(** * Fraud-Detection-Analysis: a shallow embedding of [Script.py]

    The script is a linear pipeline over three tables (accounts, account
    holders, mule flags): audit, clean, left-join, derive age and
    brackets, group and rank.  Every stage below is a Rocq function
    named after the Python function it embeds; the dataframe operations
    the script calls are modelled on lists of rows. *)

From Stdlib Require Import ZArith Floats Ascii String.
From stdpp Require Import gmap gmultiset strings list fin_maps sorting.

Open Scope string_scope.
Open Scope Z_scope.
Open Scope list_scope.

(** ** Data model *)

(** A calendar date as carried by a timestamp: year, month, day. *)
Record date := Date { year : Z; month : Z; day : Z }.

(** One cell of a table.  [Null] is the missing value (NaN / NaT / None).
    Numeric cells are integers; text cells hold the CSV text; [Stamp] is
    a parsed timestamp.  Categorical cells are text cells holding their
    label. *)
Inductive cell :=
  | Null
  | Num (z : Z)
  | Str (s : string)
  | Stamp (d : date).

Definition isna (c : cell) : bool :=
  match c with Null => true | _ => false end.

#[global] Instance date_eq_dec : EqDecision date.
Proof. solve_decision. Defined.

#[global] Instance cell_eq_dec : EqDecision cell.
Proof. solve_decision. Defined.

Definition cell_encode (c : cell) : unit + Z + string + (Z * Z * Z) :=
  match c with
  | Null => inl (inl (inl tt))
  | Num z => inl (inl (inr z))
  | Str s => inl (inr s)
  | Stamp d => inr (year d, month d, day d)
  end.

Definition cell_decode (x : unit + Z + string + (Z * Z * Z)) : cell :=
  match x with
  | inl (inl (inl _)) => Null
  | inl (inl (inr z)) => Num z
  | inl (inr s) => Str s
  | inr (y, m, d) => Stamp (Date y m d)
  end.

#[global] Instance cell_countable : Countable cell.
Proof.
  apply (inj_countable' cell_encode cell_decode).
  by intros [| | |[]].
Defined.

(** A dataframe: the column labels and the rows, each row holding one
    cell per column (position [i] of a row belongs to column [i]). *)
Record DataFrame := Frame { columns : list string; rows : list (list cell) }.

(** Every row has exactly one cell per column. *)
Definition well_formed (df : DataFrame) : Prop :=
  Forall (λ r, length r = length (columns df)) (rows df).

(** [len(df)] *)
Definition len (df : DataFrame) : nat := length (rows df).

(** Position of a column label, [None] when the label is absent (the
    script would stop with a KeyError). *)
Fixpoint col_index (name : string) (cols : list string) : option nat :=
  match cols with
  | [] => None
  | c :: cs => if decide (c = name) then Some 0%nat
               else S <$> col_index name cs
  end.

(** The cell of row [r] at position [i]; rows are never shorter than the
    column list in a well-formed frame. *)
Definition cell_at (i : nat) (r : list cell) : cell := default Null (r !! i).

(** [df[column]] by position: the cells of one column, top to bottom. *)
Definition column_at (i : nat) (df : DataFrame) : list cell :=
  cell_at i <$> rows df.

(** ** audit_data *)

(** [df.duplicated()] with the default [keep='first']: row [i] is marked
    when an equal row occurs above it.  Nulls compare equal to each
    other here, as the library's row hashing treats them. *)
Fixpoint duplicated_from (seen : list (list cell)) (rs : list (list cell))
  : list bool :=
  match rs with
  | [] => []
  | r :: rs' => bool_decide (r ∈ seen) :: duplicated_from (r :: seen) rs'
  end.

Definition duplicated (df : DataFrame) : list bool :=
  duplicated_from [] (rows df).

(** [df[mask]]: the rows whose mask entry is true, in order. *)
Fixpoint boolean_index {A} (mask : list bool) (l : list A) : list A :=
  match mask, l with
  | b :: mask', x :: l' =>
      if b then x :: boolean_index mask' l' else boolean_index mask' l'
  | _, _ => []
  end.

(** [len(df[df.duplicated()])], the duplicate count the audit prints. *)
Definition duplicate_count (df : DataFrame) : nat :=
  length (boolean_index (duplicated df) (rows df)).

(** [df[column].isna().sum()] *)
Definition missing_count (col : list cell) : nat :=
  length (filter (λ c, c = Null) col).

(** Counts as binary64 numbers, as the division promotes them. *)
Definition float_of_nat (n : nat) : float :=
  PrimFloat.of_uint63 (Uint63.of_Z (Z.of_nat n)).

(** [a / b] on counts: a zero divisor is an error, not a value. *)
Definition true_div (a b : nat) : option float :=
  match b with
  | O => None
  | S _ => Some (float_of_nat a / float_of_nat b)%float
  end.

(** [(missing_count / len(df)) * 100 if len(df) > 0 else 0] *)
Definition missing_pct (n_missing n_rows : nat) : option float :=
  if (0 <? n_rows)%nat
  then q ← true_div n_missing n_rows; Some (q * 100)%float
  else Some 0%float.

(** One entry of [stats_dict]: the value frequencies (nulls included,
    [dropna=False]) and the percentage of blanks. *)
Record column_stats := Stats {
  value_counts : gmultiset cell;
  pct_blank : float
}.

(** The loop over [df.columns]; a later column with the same label
    overwrites the earlier entry, as dict assignment does. *)
Fixpoint audit_loop (df : DataFrame) (cols : list (nat * string))
    (stats_dict : gmap string column_stats)
  : option (gmap string column_stats) :=
  match cols with
  | [] => Some stats_dict
  | (i, column) :: rest =>
      let val_counts := list_to_set_disj (column_at i df) in
      missing_pct' ← missing_pct (missing_count (column_at i df)) (len df);
      audit_loop df rest
        (<[column := Stats val_counts missing_pct']> stats_dict)
  end.

Definition audit_data (df : DataFrame) : option (gmap string column_stats) :=
  audit_loop df (imap pair (columns df)) ∅.

(** Spec-side quantity, not computed by the script: the percentage of
    rows holding a value in a column, by the same formula and guard as
    the missing percentage. *)
Definition value_count (col : list cell) : nat :=
  length (filter (λ c, c ≠ Null) col).

Definition value_pct (n_values n_rows : nat) : option float :=
  missing_pct n_values n_rows.





Definition three_rows : DataFrame :=
  Frame ["Identifier"; "MuleAccount"]
        [[Num 1; Null]; [Num 2; Num 0]; [Num 3; Num 1]].

(** ** clean_data *)

(** [df.drop_duplicates()]: the rows not marked by [duplicated], under
    the same columns. *)
Definition drop_duplicates (df : DataFrame) : DataFrame :=
  Frame (columns df) (boolean_index (negb <$> duplicated df) (rows df)).

(** [df.fillna(value=d)] with a dict: a null cell of a column that has an
    entry in [d] takes that entry; every other cell is kept. *)
Definition fillna_dict (value : gmap string cell) (df : DataFrame) : DataFrame :=
  Frame (columns df)
        ((λ r : list cell, imap (λ i c,
                  match c with
                  | Null => default Null (columns df !! i ≫= (value !!.))
                  | _ => c
                  end) r) <$> rows df).

(** [df.fillna(v)] with a scalar: every null cell of every column. *)
Definition fillna (v : cell) (df : DataFrame) : DataFrame :=
  Frame (columns df)
        ((λ r : list cell,
            (λ c, match c with Null => v | _ => c end) <$> r) <$> rows df).

Definition acct_default_vals : gmap string cell :=
  list_to_map [
    ("AccountLength", Num (-1));
    ("AverageBalance", Num (-1));
    ("NumTransactions", Num (-1));
    ("NumDeposits", Num (-1));
    ("NumWithdrawals", Num (-1));
    ("NumTransfers", Num (-1));
    ("NumLoans", Num (-1));
    ("NumCreditCards", Num (-1));
    ("NumSavingsAccounts", Num (-1))
  ].

Definition holder_default_vals : gmap string cell :=
  list_to_map [
    ("DateOfBirth", Str "Missing");
    ("Gender", Str "Missing");
    ("Income", Num (-1));
    ("CreditScore", Num (-1));
    ("LoanAmount", Num (-1));
    ("EmploymentStatus", Str "Missing");
    ("MaritalStatus", Str "Missing");
    ("OccupancyStatus", Str "Missing");
    ("NumDependents", Num (-1));
    ("SocialMediaUsageHours", Num (-1));
    ("ShoppingFrequencyPerMonth", Num (-1));
    ("HealthInsuranceStatus", Str "Missing")
  ].

Definition clean_data (acct_info holder_info fraud_indicators : DataFrame)
  : DataFrame * DataFrame * DataFrame :=
  let holder_info := drop_duplicates holder_info in
  let acct_info := fillna_dict acct_default_vals acct_info in
  let holder_info := fillna_dict holder_default_vals holder_info in
  let fraud_indicators := fillna (Num 0) fraud_indicators in
  (acct_info, holder_info, fraud_indicators).

(** The column names the claims speak of: the nine account columns, and
    the holder columns by kind. *)
Definition acct_numeric_columns : list string :=
  ["AccountLength"; "AverageBalance"; "NumTransactions"; "NumDeposits";
   "NumWithdrawals"; "NumTransfers"; "NumLoans"; "NumCreditCards";
   "NumSavingsAccounts"].

Definition holder_numeric_columns : list string :=
  ["Income"; "CreditScore"; "LoanAmount"; "NumDependents";
   "SocialMediaUsageHours"; "ShoppingFrequencyPerMonth"].

Definition holder_categorical_columns : list string :=
  ["DateOfBirth"; "Gender"; "EmploymentStatus"; "MaritalStatus";
   "OccupancyStatus"; "HealthInsuranceStatus"].

(** What a fill leaves in a cell: the default where the cell was null,
    the old content otherwise. *)
Definition filled (dflt old : cell) : cell :=
  match old with Null => dflt | _ => old end.

(** ** Column types

    A table read from a CSV file types each column by its content: a
    column of integers is held as 64-bit integers, a column of integers
    with blanks as binary64 numbers (the blank is NaN), a column with
    text as objects.  The type of a column is read off its cells. *)

Definition is_numeric (c : cell) : bool :=
  match c with Null | Num _ => true | _ => false end.

(** No text in the column: one of the two numeric types. *)
Definition numeric_column (col : list cell) : bool := forallb is_numeric col.

Definition has_number (col : list cell) : bool :=
  existsb (λ c, match c with Num _ => true | _ => false end) col.

Definition has_blank (col : list cell) : bool := existsb isna col.

(** Numbers with blanks: the binary64 type. *)
Definition float_column (col : list cell) : bool :=
  numeric_column col && has_blank col.

(** Text, with or without blanks, and no number. *)
Definition text_only (col : list cell) : bool :=
  negb (numeric_column col) && negb (has_number col).

(** An integer as binary64 holds it: unchanged up to 2^53 in magnitude,
    rounded to 53 significant bits above (to nearest, ties to the even
    significand). *)
Definition astype_float64 (z : Z) : Z :=
  if Z.abs z <=? 2 ^ 53 then z
  else
    let e := Z.log2 (Z.abs z) - 52 in
    let q := Z.abs z / 2 ^ e in
    let r := Z.abs z mod 2 ^ e in
    let up := (2 ^ (e - 1) <? r) || ((r =? 2 ^ (e - 1)) && Z.odd q) in
    Z.sgn z * ((if up then q + 1 else q) * 2 ^ e).

Definition float_cell (c : cell) : cell :=
  match c with Num z => Num (astype_float64 z) | _ => c end.

(** Numbers that every numeric type holds exactly. *)
Definition safe_cell (c : cell) : Prop :=
  match c with Num z => Z.abs z ≤ 2 ^ 53 | _ => True end.

Definition safe_column (col : list cell) : Prop := Forall safe_cell col.

(** ** merge_datasets *)

(** The suffix a merge gives to a label that both sides carry and that
    is not the join key. *)
Definition suffix_columns (on suffix : string) (other cols : list string)
  : list string :=
  (λ c, if decide (c ≠ on ∧ c ∈ other) then c +:+ suffix else c) <$> cols.

(** [Index.duplicated()]: a label is marked when it occurs earlier. *)
Fixpoint duplicated_labels (seen labels : list string) : list bool :=
  match labels with
  | [] => []
  | c :: rest => bool_decide (c ∈ seen) :: duplicated_labels (c :: seen) rest
  end.

(** The suffixes made a label repeat that did not repeat before: the
    merge refuses that (MergeError). *)
Definition suffix_clash (original renamed : list string) : bool :=
  existsb id (zip_with (λ r o, r && negb o)
                       (duplicated_labels [] renamed)
                       (duplicated_labels [] original)).

(** Key columns that cannot be joined: text on one side and numbers on
    the other, both sides non-empty (ValueError).  A text column that a
    fill has put a number into is let through. *)
Definition incompatible_keys (lk rk : list cell) : bool :=
  negb (bool_decide (lk = [])) && negb (bool_decide (rk = []))
  && ((text_only lk && numeric_column rk)
      || (numeric_column lk && text_only rk)).

(** Two numeric key columns of which one is binary64 are compared as
    binary64 numbers. *)
Definition float_join (lk rk : list cell) : bool :=
  numeric_column lk && numeric_column rk && (has_blank lk || has_blank rk).

Definition join_key (as_float : bool) (c : cell) : cell :=
  if as_float then float_cell c else c.

(** The rows of [right] whose key matches [k].  Two null keys match
    each other, as they do in the library's joins. *)
Definition matching_rows (as_float : bool) (kj : nat) (k : cell)
    (right_rows : list (list cell)) : list (list cell) :=
  filter (λ rr, join_key as_float (cell_at kj rr) = join_key as_float k)
         right_rows.

(** What a left join appends to a left row with key [k]: the other
    cells of each matching right row, in the right table's order, or
    nulls once when no right row matches. *)
Definition join_parts (as_float : bool) (kj : nat) (right : DataFrame)
    (k : cell) : list (list cell) :=
  match matching_rows as_float kj k (rows right) with
  | [] => [replicate (length (columns right) - 1) Null]
  | ms => delete kj <$> ms
  end.

(** [left.merge(right, how='left', on=on)]: every left row in order,
    once per part appended to it.  A missing key column, key columns of
    incompatible types and a clash of suffixed labels are errors. *)
Definition merge_left (on : string) (left right : DataFrame)
  : option DataFrame :=
  ki ← col_index on (columns left);
  kj ← col_index on (columns right);
  let lk := column_at ki left in
  let rk := column_at kj right in
  let llabels := suffix_columns on "_x" (columns right) (columns left) in
  let rlabels :=
    delete kj (suffix_columns on "_y" (columns left) (columns right)) in
  if incompatible_keys lk rk then None
  else if suffix_clash (columns left) llabels
          || suffix_clash (delete kj (columns right)) rlabels then None
  else
    Some (Frame
            (llabels ++ rlabels)
            (rows left ≫= λ lr,
               (lr ++.) <$> join_parts (float_join lk rk) kj right
                                       (cell_at ki lr))).

Definition merge_datasets (acct_info holder_info fraud_indicators : DataFrame)
  : option DataFrame :=
  combined_data ← merge_left "Identifier" acct_info holder_info;
  merge_left "Identifier" combined_data fraud_indicators.

(** What a left join appends to a left row with key [k]: the cells of a
    right row with that key, the key cell left out, or nulls for every
    right column but the key when no right row has the key. *)
Definition right_part (right : DataFrame) (kj : nat) (k : cell)
    (part : list cell) : Prop :=
  (∃ rr, rr ∈ rows right ∧ cell_at kj rr = k ∧ part = delete kj rr)
  ∨ (k ∉ column_at kj right
     ∧ part = replicate (length (columns right) - 1) Null).

(** ** main: identifier checks *)

(** [df['Identifier']] *)
Definition identifier_column (df : DataFrame) : option (list cell) :=
  (λ k, column_at k df) <$> col_index "Identifier" (columns df).

(** [set(series)].  Iterating a numeric column makes a new number
    object for every cell, so every NaN of a binary64 column is an
    element of its own, equal to nothing (not even to itself); the
    other elements of such a column are its numbers as binary64 holds
    them.  A text column hands out the objects it stores, and all its
    blanks are one and the same NaN object, which a set finds again by
    identity. *)
Record pyset := PySet { members : gset cell; nans : nat }.

Definition py_set (series : list cell) : pyset :=
  if float_column series
  then PySet (list_to_set (float_cell <$> filter (λ c, c ≠ Null) series))
             (missing_count series)
  else PySet (list_to_set series) 0.

(** [len(s)] *)
Definition py_len (s : pyset) : nat := (size (members s) + nans s)%nat.

(** [s == t] on sets: the same size and every element of [s] found in
    [t].  A NaN of [s] that is an object of its own is found nowhere. *)
Definition py_set_eqb (s t : pyset) : bool :=
  bool_decide (nans s = 0%nat) && bool_decide (nans t = 0%nat)
  && bool_decide (members s = members t).

(** [set(a) == set(h) == set(f)]: a chained comparison, that is
    [set(a) == set(h) and set(h) == set(f)]. *)
Definition ids_match (acct_info holder_info fraud_indicators : DataFrame)
  : option bool :=
  a ← identifier_column acct_info;
  h ← identifier_column holder_info;
  f ← identifier_column fraud_indicators;
  Some (py_set_eqb (py_set a) (py_set h) && py_set_eqb (py_set h) (py_set f)).

(** [len(list(ids)) == len(set(ids))] on the account table. *)
Definition unique_ids (acct_info : DataFrame) : option bool :=
  a ← identifier_column acct_info;
  Some (bool_decide (length a = py_len (py_set a))).

(** Spec-side: a column of numbers with at least one blank, which is
    what makes a column binary64. *)
Definition blank_in_numbers (col : list cell) : Prop :=
  Null ∈ col ∧ ∀ c, c ∈ col → c = Null ∨ ∃ z, c = Num z.

(** The identifier column is present and holds no value twice. *)
Definition duplicate_free (df : DataFrame) : Prop :=
  ∃ ids, identifier_column df = Some ids ∧ NoDup ids.

(** ** create_derived_features *)

(** [df[name]]: the cells of the column with that label; a missing label
    is an error. *)
Definition get_column (name : string) (df : DataFrame) : option (list cell) :=
  (λ i, column_at i df) <$> col_index name (columns df).

(** [df[name] = values]: overwrite the column in place when the label
    exists, append a new last column otherwise. *)
Definition set_column (name : string) (values : list cell) (df : DataFrame)
  : DataFrame :=
  match col_index name (columns df) with
  | Some i => Frame (columns df)
                    (zip_with (λ r v, <[i := v]> r) (rows df) values)
  | None => Frame (columns df ++ [name])
                  (zip_with (λ r v, r ++ [v]) (rows df) values)
  end.

(** *** Date parsing: [pd.to_datetime(..., format='%d/%m/%Y', errors='coerce')] *)

Definition digit_of (a : ascii) : option Z :=
  let n := Z.of_N (N_of_ascii a) in
  if (48 <=? n) && (n <=? 57) then Some (n - 48) else None.

Fixpoint digits_value (acc : Z) (s : string) : option Z :=
  match s with
  | EmptyString => Some acc
  | String a s' => d ← digit_of a; digits_value (10 * acc + d) s'
  end.

(** A field of decimal digits, between [lo] and [hi] characters long. *)
Definition number_field (lo hi : nat) (s : string) : option Z :=
  if (lo <=? String.length s)%nat && (String.length s <=? hi)%nat
  then digits_value 0 s else None.

Fixpoint split_on (sep : ascii) (s : string) : list string :=
  match s with
  | EmptyString => [EmptyString]
  | String a s' =>
      if decide (a = sep) then EmptyString :: split_on sep s'
      else match split_on sep s' with
           | p :: ps => String a p :: ps
           | [] => [String a EmptyString]
           end
  end.

Definition is_leap (y : Z) : bool :=
  ((y mod 4 =? 0) && negb (y mod 100 =? 0)) || (y mod 400 =? 0).

Definition days_in_month (y m : Z) : Z :=
  if m =? 2 then (if is_leap y then 29 else 28)
  else if (m =? 4) || (m =? 6) || (m =? 9) || (m =? 11) then 30
  else 31.

(** Lexicographic order on (year, month, day). *)
Definition date_leb (a b : date) : bool :=
  (year a <? year b)
  || ((year a =? year b)
      && ((month a <? month b)
          || ((month a =? month b) && (day a <=? day b)))).

(** A real calendar day, with a year of four digits. *)
Definition calendar_date (d : date) : bool :=
  (1 <=? year d) && (year d <=? 9999)
  && (1 <=? month d) && (month d <=? 12)
  && (1 <=? day d) && (day d <=? days_in_month (year d) (month d)).

(** A day that a timestamp can hold.  Where timestamps count
    nanoseconds (the library before version 3) they reach from
    22 September 1677 to 11 April 2262; otherwise every calendar day
    goes.  Which of the two applies is a parameter. *)
Definition valid_date (nanoseconds : bool) (d : date) : bool :=
  calendar_date d
  && (negb nanoseconds
      || (date_leb (Date 1677 9 22) d && date_leb d (Date 2262 4 11))).

(** The day field: one or two digits, or a blank and a digit other
    than 0. *)
Definition day_field (s : string) : option Z :=
  match s with
  | String " " (String a "") =>
      d ← digit_of a; if d =? 0 then None else Some d
  | _ => number_field 1 2 s
  end.

(** Day, month and year fields separated by slashes: the day as above,
    the month in one or two digits, the year in four; anything else
    does not parse. *)
Definition strptime_dmy (nanoseconds : bool) (s : string) : option date :=
  match split_on "/"%char s with
  | [d; m; y] =>
      dd ← day_field d;
      mm ← number_field 1 2 m;
      yy ← number_field 4 4 y;
      let parsed := Date yy mm dd in
      if valid_date nanoseconds parsed then Some parsed else None
  | _ => None
  end.

(** With [errors='coerce'] a value that does not parse becomes null
    instead of raising. *)
Definition to_datetime (nanoseconds : bool) (c : cell) : cell :=
  match c with
  | Str s => from_option Stamp Null (strptime_dmy nanoseconds s)
  | Stamp d => Stamp d
  | _ => Null
  end.

(** Spec-side: a date written out as dd/mm/yyyy, the way the claims
    mean a "day/month/year date of birth". *)
Definition digit_char (d : Z) : ascii := ascii_of_N (Z.to_N (48 + d)).

Definition two_digits (n : Z) (rest : string) : string :=
  String (digit_char (n / 10)) (String (digit_char (n mod 10)) rest).

Definition dmy_text (d : date) : string :=
  two_digits (day d)
    (String "/"
       (two_digits (month d)
          (String "/"
             (two_digits (year d / 100) (two_digits (year d mod 100) ""))))).

(** *** The age lambda *)

(** The numbers the lambda handles: integers, and the NaN that the
    [year], [month] and [day] attributes of a null timestamp give. *)
Inductive pynum := PInt (z : Z) | NaN.

Definition attr (field : date → Z) (birth_date : cell) : pynum :=
  match birth_date with Stamp d => PInt (field d) | _ => NaN end.

(** Subtraction: NaN absorbs. *)
Definition py_sub (a b : pynum) : pynum :=
  match a, b with PInt x, PInt y => PInt (x - y) | _, _ => NaN end.

(** [==] and [<]: every comparison with NaN is false. *)
Definition py_eqb (a b : pynum) : bool :=
  match a, b with PInt x, PInt y => x =? y | _, _ => false end.

Definition py_ltb (a b : pynum) : bool :=
  match a, b with PInt x, PInt y => x <? y | _, _ => false end.

(** [(a1, a2) < (b1, b2)] on tuples: the first position where the two
    sides are not equal decides, by [<]; equal tuples are not less. *)
Definition tuple_ltb (a b : pynum * pynum) : bool :=
  if negb (py_eqb a.1 b.1) then py_ltb a.1 b.1
  else if negb (py_eqb a.2 b.2) then py_ltb a.2 b.2
  else false.

(** [current_date.year - birth_date.year
     - ((current_date.month, current_date.day)
        < (birth_date.month, birth_date.day))];
    the boolean counts as 1 or 0. *)
Definition age_lambda (current_date : date) (birth_date : cell) : pynum :=
  py_sub
    (py_sub (PInt (year current_date)) (attr year birth_date))
    (PInt (Z.b2z (tuple_ltb
                    (PInt (month current_date), PInt (day current_date))
                    (attr month birth_date, attr day birth_date)))).

(** The value stored in the [Age] column: NaN is the null of a numeric
    column. *)
Definition cell_of_pynum (n : pynum) : cell :=
  match n with PInt z => Num z | NaN => Null end.

(** *** Bucketing: [pd.cut(..., bins, labels, right=False)] *)

Definition age_ranges : list Z := [0; 17; 24; 35; 45; 60; 100].
Definition age_categories : list string :=
  ["0-17"; "18-24"; "25-35"; "36-45"; "46-60"; "60+"].

Definition income_ranges : list Z :=
  [0; 10000; 20000; 30000; 40000; 60000; 80000; 100000].
Definition income_categories : list string :=
  ["0-10k"; "10k-20k"; "20k-30k"; "30k-40k"; "40k-60k"; "60k-80k"; "80k+"].

(** Bin [i] is [bins[i] <= x < bins[i+1]] and carries label [i]; a value
    in no bin has no label. *)
Fixpoint cut_label (x : Z) (bins : list Z) (labels : list string)
  : option string :=
  match bins, labels with
  | lo :: ((hi :: _) as rest), l :: ls =>
      if (lo <=? x) && (x <? hi) then Some l else cut_label x rest ls
  | _, _ => None
  end.

(** On a cell of a numeric column: nulls stay null. *)
Definition cut (bins : list Z) (labels : list string) (c : cell) : cell :=
  match c with
  | Num x => from_option Str Null (cut_label x bins labels)
  | _ => Null
  end.

(** The ages are numbers or null whatever the table holds; the income
    column is cut as it comes, and cutting a column that holds text
    raises (TypeError). *)
Definition create_derived_features (nanoseconds : bool) (current_date : date)
    (df : DataFrame) : option DataFrame :=
  dob ← get_column "DateOfBirth" df;
  let df := set_column "DateOfBirth" (to_datetime nanoseconds <$> dob) df in
  dob ← get_column "DateOfBirth" df;
  let df :=
    set_column "Age" (cell_of_pynum ∘ age_lambda current_date <$> dob) df in
  age ← get_column "Age" df;
  let df :=
    set_column "AgeCategory" (cut age_ranges age_categories <$> age) df in
  income ← get_column "Income" df;
  if numeric_column income
  then Some (set_column "IncomeCategory"
                        (cut income_ranges income_categories <$> income) df)
  else None.

(** ** analyze_fraud_patterns *)

(** What a cell of a numeric indicator column adds to a sum: its
    number; nulls are skipped. *)
Definition indicator (c : cell) : Z :=
  match c with Num z => z | _ => 0 end.

(** A sum held in 64 bits: past the ends it wraps around. *)
Definition wrap64 (z : Z) : Z := (z + 2 ^ 63) mod 2 ^ 64 - 2 ^ 63.

(** The indicators of a column added up in absolute value: what bounds
    every partial sum. *)
Definition abs_sum (col : list cell) : Z :=
  foldr (λ c acc, Z.abs (indicator c) + acc) 0 col.

(** [df[col].sum()] *)
Definition column_sum (col : list cell) : Z :=
  foldr (λ c acc, indicator c + acc) 0 col.

(** One row of a grouped result: the key (one cell per grouping column)
    and the summed indicator. *)
Definition group : Type := list cell * Z.

(** The order in which a grouped result lists its keys ([sort=True]):
    numbers by value, text by code point, key tuples position by
    position.  Category labels are text; both label lists of the script
    are ascending as text, so this is also their category order. *)
Definition cell_ltb (a b : cell) : bool :=
  match a, b with
  | Num x, Num y => x <? y
  | Str s, Str t => String.ltb s t
  | Stamp d, Stamp e => negb (date_leb e d)
  | Null, (Num _ | Str _ | Stamp _) => true
  | Num _, (Str _ | Stamp _) => true
  | Str _, Stamp _ => true
  | _, _ => false
  end.

Fixpoint key_ltb (k1 k2 : list cell) : bool :=
  match k1, k2 with
  | [], _ :: _ => true
  | a :: k1', b :: k2' =>
      cell_ltb a b || (bool_decide (a = b) && key_ltb k1' k2')
  | _, _ => false
  end.

(** A key with a null component; [groupby] drops such rows
    ([dropna=True], the default). *)
Definition has_null (k : list cell) : bool := existsb isna k.

(** Add [v] to the sum of the group with key [k]. *)
Fixpoint bump (k : list cell) (v : Z) (gs : list group) : list group :=
  match gs with
  | [] => []
  | (k', s) :: rest =>
      if decide (k = k') then (k', s + v) :: rest
      else (k', s) :: bump k v rest
  end.

(** Open a group for [k] at its place in key order. *)
Fixpoint insert_key (k : list cell) (v : Z) (gs : list group) : list group :=
  match gs with
  | [] => [(k, v)]
  | (k', s) :: rest =>
      if key_ltb k k' then (k, v) :: gs
      else (k', s) :: insert_key k v rest
  end.

(** Add one row to the groups: into its group when the key is there,
    as a new group otherwise. *)
Definition add_to_group (k : list cell) (v : Z) (gs : list group)
  : list group :=
  if decide (k ∈ gs.*1) then bump k v gs else insert_key k v gs.

(** The rows sorted into groups, starting from the groups that exist
    before any row is seen, each group with the sum of its rows as an
    integer. *)
Definition groupby_sum (init : list group) (keys : list (list cell))
    (vals : list cell) : list group :=
  foldl (λ gs kv, if has_null kv.1 then gs
                  else add_to_group kv.1 (indicator kv.2) gs)
        init (zip keys vals).

(** [df.groupby(keys)[col].sum()] on a numeric column.  The sums are
    64-bit integers: adding with wrap-around row by row ends on the
    integer sum wrapped once.  (A column with blanks is summed in
    binary64, which gives the same number as long as the partial sums
    stay within 2^53.) *)
Definition int64_sums (gs : list group) : list group :=
  (λ g : group, (g.1, wrap64 g.2)) <$> gs.

(** The distinct non-null values of a column, in key order. *)
Definition levels (col : list cell) : list cell :=
  (λ g : group, default Null (head g.1))
    <$> groupby_sum [] ((λ c, [c]) <$> col) ((λ _, Num 0) <$> col).

(** The groups a result starts from.  A categorical grouper lists every
    category, seen or not, unless [observed] is set; which of the two is
    the default depends on the library version, so [observed] is a
    parameter.  With two groupers the unseen combinations are listed as
    well. *)
Definition age_groups (observed : bool) : list group :=
  if observed then [] else (λ l, ([Str l], 0)) <$> age_categories.

Definition profile_groups (observed : bool) (gender : list cell) : list group :=
  if observed then []
  else l ← age_categories; g ← levels gender; [([Str l; g], 0)].

(** [df.groupby(['AgeCategory', 'Gender'])['MuleAccount'].sum().reset_index()].
    The sums are sums of numbers: on an indicator column that holds
    text the library concatenates or raises, and the analysis stops. *)
Definition combination_sums (observed : bool) (df : DataFrame)
  : option (list group) :=
  age_cat ← get_column "AgeCategory" df;
  gender ← get_column "Gender" df;
  mule ← get_column "MuleAccount" df;
  if numeric_column mule
  then Some (int64_sums
               (groupby_sum (profile_groups observed gender)
                            (zip_with (λ a g, [a; g]) age_cat gender) mule))
  else None.

(** What the library promises of [sort_values(by='MuleAccount',
    ascending=False)] when no [kind] is given: the same rows, in
    non-increasing order of the sum.  The default algorithm is not one
    of the stable kinds, so the order among equal sums is left open, and
    the sorting routine is a parameter of the analysis. *)
Definition by_sum_desc (a b : group) : Prop := b.2 ≤ a.2.

Definition sort_contract (sort_values : list group → list group) : Prop :=
  ∀ l, sort_values l ≡ₚ l ∧ Sorted by_sum_desc (sort_values l).

(** A sort is stable when, for every value of the sum, the groups with
    that sum come out in the order they went in. *)
Definition stable (sort_values : list group → list group) : Prop :=
  ∀ l v, filter (λ g : group, g.2 = v) (sort_values l)
         = filter (λ g : group, g.2 = v) l.

Record analysis := Analysis {
  age_cat_results : list group;
  gender_breakdown : list group;
  fraud_analysis : list group;
  printed_head : list group
}.

Definition analyze_fraud_patterns (observed : bool)
    (sort_values : list group → list group) (df : DataFrame)
  : option analysis :=
  age_cat ← get_column "AgeCategory" df;
  mule ← get_column "MuleAccount" df;
  let age_cat_results :=
    int64_sums
      (groupby_sum (age_groups observed) ((λ c, [c]) <$> age_cat) mule) in
  gender ← get_column "Gender" df;
  let gender_breakdown :=
    int64_sums (groupby_sum [] ((λ c, [c]) <$> gender) mule) in
  fraud_analysis ← combination_sums observed df;
  let fraud_analysis := sort_values fraud_analysis in
  Some (Analysis age_cat_results gender_breakdown fraud_analysis
                 (take 5 fraud_analysis)).

(** Two sorting routines that meet the contract: insertion sort that
    keeps equal sums in input order, and the same after reversing the
    input, which returns equal sums in reverse order. *)
Fixpoint insert_desc (g : group) (sorted : list group) : list group :=
  match sorted with
  | [] => [g]
  | h :: t => if g.2 <? h.2 then h :: insert_desc g t else g :: h :: t
  end.

Definition stable_sort_values (l : list group) : list group :=
  foldr insert_desc [] l.

Definition reversing_sort_values (l : list group) : list group :=
  stable_sort_values (reverse l).

(** The totals the analysis is compared with. *)
Definition sum_groups (gs : list group) : Z :=
  foldr (λ g acc, g.2 + acc) 0 gs.

(** The indicator summed over the rows that have the key [k]. *)
Definition key_total (k : list cell) (keys : list (list cell))
    (vals : list cell) : Z :=
  foldr (λ kv acc, (if decide (kv.1 = k) then indicator kv.2 else 0) + acc)
        0 (zip keys vals).

(** The sum a grouped result holds for the key [k]; 0 when it has no
    such group. *)
Definition group_sum (k : list cell) (gs : list group) : Z :=
  foldr (λ g acc, (if decide (g.1 = k) then g.2 else 0) + acc) 0 gs.

(** The indicator summed over the rows whose key has a null. *)
Definition excluded_sum (keys : list (list cell)) (vals : list cell) : Z :=
  foldr (λ kv acc, (if has_null kv.1 then indicator kv.2 else 0) + acc)
        0 (zip keys vals).

(** The rows whose key has no null, as pairs of key and indicator. *)
Definition full_key_rows (keys : list (list cell)) (vals : list cell)
  : list (list cell * cell) :=
  filter (λ kv : list cell * cell, has_null kv.1 = false) (zip keys vals).

(** The groups a result starts from have distinct full keys and sum 0. *)
Definition fresh_groups (init : list group) : Prop :=
  NoDup init.*1 ∧ ∀ k s, (k, s) ∈ init → s = 0 ∧ has_null k = false.

(** ** main *)

(** The whole run on three loaded tables: audit, identifier checks,
    clean, merge, derive, analyze, draw.  The two charts are drawn by
    the plotting library from the two single-key results; whether that
    goes through depends on the display and is a parameter of the run.
    Next to the table it returns, the run is given the analysis it
    printed and the two identifier flags it printed. *)
Definition main (nanoseconds : bool) (current_date : date) (observed : bool)
    (sort_values : list group → list group)
    (create_visualizations : list group → list group → option unit)
    (acct_info holder_info fraud_indicators : DataFrame)
  : option (DataFrame * analysis * (bool * bool)) :=
  acct_stats ← audit_data acct_info;
  holder_stats ← audit_data holder_info;
  fraud_stats ← audit_data fraud_indicators;
  ids_ok ← ids_match acct_info holder_info fraud_indicators;
  unique ← unique_ids acct_info;
  let cleaned := clean_data acct_info holder_info fraud_indicators in
  combined_data ← merge_datasets cleaned.1.1 cleaned.1.2 cleaned.2;
  combined_data ← create_derived_features nanoseconds current_date
                                          combined_data;
  results ← analyze_fraud_patterns observed sort_values combined_data;
  _ ← create_visualizations (age_cat_results results)
                            (gender_breakdown results);
  Some (combined_data, results, (ids_ok, unique)).

(** ** Fixture tables

    Three accounts; two distinct holders, one of them entered twice and
    none for account 3; three flags, one of them blank. *)
Definition acct_fixture : DataFrame :=
  Frame ["Identifier"; "AccountLength"; "AverageBalance"]
        [[Num 1; Num 12; Null]; [Num 2; Null; Num 300]; [Num 3; Num 7; Num 50]].

Definition holder_fixture : DataFrame :=
  Frame ["Identifier"; "DateOfBirth"; "Gender"; "Income"]
        [[Num 1; Str "15/06/1990"; Str "F"; Num 25000];
         [Num 2; Null; Null; Null];
         [Num 1; Str "15/06/1990"; Str "F"; Num 25000]].

Definition fraud_fixture : DataFrame :=
  Frame ["Identifier"; "MuleAccount"]
        [[Num 1; Num 1]; [Num 2; Null]; [Num 3; Num 1]].

(** A merged table as [merge_datasets] hands it on, and a run date. *)
Definition combined_fixture : DataFrame :=
  Frame ["Identifier"; "AccountLength"; "DateOfBirth"; "Gender"; "Income";
         "MuleAccount"]
        [[Num 1; Num 12; Str "15/06/1990"; Str "F"; Num 25000; Num 1];
         [Num 2; Num (-1); Str "Missing"; Str "Missing"; Num (-1); Num 0];
         [Num 3; Num 7; Null; Null; Null; Num 1];
         [Num 4; Num 3; Str "10/03/2007"; Str "M"; Num 0; Num 1]].

Definition today_fixture : date := Date 2024 3 10.

(** A derived table in which every bracket occurs with every gender and
    no account is flagged: eighteen combinations, all with sum 0. *)
Definition ties_fixture : DataFrame :=
  Frame ["AgeCategory"; "Gender"; "MuleAccount"]
        (l ← age_categories; g ← ["F"; "M"; "Missing"];
         [[Str l; Str g; Num 0]]).

(** A table after the feature step, and what the analysis makes of it
    when only the seen groups are listed. *)
Definition derived_fixture : DataFrame :=
  Frame ["Identifier"; "Gender"; "MuleAccount"; "Age"; "AgeCategory"]
        [[Num 1; Str "F"; Num 1; Num 33; Str "25-35"];
         [Num 2; Str "Missing"; Num 0; Null; Null];
         [Num 3; Null; Num 1; Null; Null];
         [Num 4; Str "M"; Num 1; Num 17; Str "18-24"];
         [Num 5; Str "F"; Num 1; Num 30; Str "25-35"]].

Definition derived_fixture_analysis : analysis :=
  Analysis [([Str "18-24"], 1); ([Str "25-35"], 2)]
           [([Str "F"], 2); ([Str "M"], 1); ([Str "Missing"], 0)]
           [([Str "25-35"; Str "F"], 2); ([Str "18-24"; Str "M"], 1)]
           [([Str "25-35"; Str "F"], 2); ([Str "18-24"; Str "M"], 1)].

(** A table with identifier 1 and a blank identifier. *)
Definition blank_id_fixture : DataFrame :=
  Frame ["Identifier"; "MuleAccount"] [[Num 1; Num 0]; [Null; Num 1]].

(** Identifiers at the edge of what binary64 tells apart.  In the first
    triple the account column has a blank, so it is binary64, and the
    two holder identifiers differ by 1 above 2^53.  In the second the
    holder column has the blank and the account identifier is the odd
    neighbour of the holder's. *)
Definition wide_acct_fixture : DataFrame :=
  Frame ["Identifier"; "AccountLength"]
        [[Num 9007199254740992; Num 12]; [Null; Num 7]].

Definition wide_holder_fixture : DataFrame :=
  Frame ["Identifier"; "Gender"]
        [[Num 9007199254740992; Str "F"]; [Num 9007199254740993; Str "M"]].

Definition wide_fraud_fixture : DataFrame :=
  Frame ["Identifier"; "MuleAccount"] [[Num 9007199254740992; Num 1]].

Definition odd_acct_fixture : DataFrame :=
  Frame ["Identifier"; "AccountLength"] [[Num 9007199254740993; Num 12]].

Definition even_holder_fixture : DataFrame :=
  Frame ["Identifier"; "Gender"]
        [[Num 9007199254740992; Str "F"]; [Null; Str "M"]].

Definition odd_fraud_fixture : DataFrame :=
  Frame ["Identifier"; "MuleAccount"] [[Num 9007199254740993; Num 1]].

(** A holder table with two rows that differ only in a blank gender. *)
Definition blank_gender_fixture : DataFrame :=
  Frame ["Identifier"; "Gender"]
        [[Num 1; Null]; [Num 1; Str "Missing"]].

(** A holder table for the three accounts of the fixture. *)
Definition acct_holders_fixture : DataFrame :=
  Frame ["Identifier"; "DateOfBirth"; "Gender"; "Income"]
        [[Num 1; Str "15/06/1990"; Str "F"; Num 25000];
         [Num 2; Null; Null; Null];
         [Num 3; Str "10/03/2007"; Str "M"; Num 0]].

(** ** Theorems *)

Section Audit.

Lemma missing_value_count (col : list cell) :
  (missing_count col + value_count col = length col)%nat.
Proof.
  unfold missing_count, value_count.
  induction col as [|c col IH]; [done|].
  rewrite !filter_cons. destruct (decide (c = Null)), (decide (c ≠ Null));
    simpl; try lia; contradiction.
Qed.

Lemma missing_pct_total (m n : nat) : is_Some (missing_pct m n).
Proof.
  unfold missing_pct, true_div. destruct n; simpl; eauto.
Qed.

Lemma audit_loop_total df cols stats : is_Some (audit_loop df cols stats).
Proof.
  revert stats. induction cols as [|[i c] cols IH]; intros stats; simpl; [eauto|].
  destruct (missing_pct_total (missing_count (column_at i df)) (len df)) as [p ->].
  simpl. apply IH.
Qed.


Lemma missing_pct_empty (m : nat) : missing_pct m 0 = Some 0%float.
Proof. reflexivity. Qed.







(** The two percentages of that column, as the script would print
    them. *)
Example three_rows_percentages :
  missing_pct (missing_count (column_at 1 three_rows)) (len three_rows)
    = Some 0x1.0aaaaaaaaaaaap+5%float
  ∧ value_pct (value_count (column_at 1 three_rows)) (len three_rows)
    = Some 0x1.0aaaaaaaaaaaap+6%float.
Proof. vm_compute. split; reflexivity. Qed.

End Audit.

Section Cleaning.

Local Abbreviation keep_first seen rs :=
  (boolean_index (negb <$> duplicated_from seen rs) rs).

Lemma keep_first_cons seen (r : list cell) rs :
  keep_first seen (r :: rs) =
    if decide (r ∈ seen) then keep_first (r :: seen) rs
    else r :: keep_first (r :: seen) rs.
Proof.
  simpl. destruct (decide (r ∈ seen)) as [Hin|Hnin].
  - by rewrite bool_decide_eq_true_2.
  - by rewrite bool_decide_eq_false_2.
Qed.

Lemma keep_first_not_seen seen rs (x : list cell) :
  x ∈ keep_first seen rs → (x ∉ seen) ∧ x ∈ rs.
Proof.
  revert seen. induction rs as [|r rs IH]; intros seen.
  - simpl. by intros ?%elem_of_nil.
  - rewrite keep_first_cons. destruct (decide (r ∈ seen)) as [Hin|Hnin].
    + intros [Hx1 Hx2]%IH. split; [|by right].
      intros Hs. apply Hx1. by right.
    + intros [->|[Hx1 Hx2]%IH]%elem_of_cons.
      * split; [done|by left].
      * split; [|by right]. intros Hs. apply Hx1. by right.
Qed.

Lemma keep_first_elem seen rs (x : list cell) :
  x ∈ rs → x ∉ seen → x ∈ keep_first seen rs.
Proof.
  revert seen. induction rs as [|r rs IH]; intros seen.
  - by intros ?%elem_of_nil.
  - rewrite keep_first_cons. intros Hx Hseen.
    destruct (decide (x = r)) as [->|Hne].
    + rewrite decide_False by done. by left.
    + assert (x ∈ keep_first (r :: seen) rs).
      { apply IH.
        - by apply elem_of_cons in Hx as [?|?].
        - by intros [?|?]%elem_of_cons. }
      destruct (decide (r ∈ seen)); [done|by right].
Qed.

Lemma keep_first_NoDup seen (rs : list (list cell)) :
  NoDup (keep_first seen rs).
Proof.
  revert seen. induction rs as [|r rs IH]; intros seen.
  - simpl. constructor.
  - rewrite keep_first_cons. destruct (decide (r ∈ seen)); [apply IH|].
    constructor; [|apply IH].
    intros [Hn _]%keep_first_not_seen. apply Hn. by left.
Qed.

Lemma keep_first_sublist seen (rs : list (list cell)) :
  keep_first seen rs `sublist_of` rs.
Proof.
  revert seen. induction rs as [|r rs IH]; intros seen.
  - simpl. constructor.
  - rewrite keep_first_cons. destruct (decide (r ∈ seen)).
    + by apply sublist_cons.
    + by apply sublist_skip.
Qed.

Lemma keep_first_id seen (l : list (list cell)) :
  NoDup l → (∀ x, x ∈ l → x ∉ seen) → keep_first seen l = l.
Proof.
  revert seen. induction l as [|r l IH]; intros seen Hnd Hdisj; [done|].
  rewrite keep_first_cons. apply NoDup_cons in Hnd as [Hr Hnd].
  rewrite decide_False by (apply Hdisj; by left).
  f_equal. apply IH; [done|].
  intros x Hx [->|Hs]%elem_of_cons; [done|].
  by apply (Hdisj x); [right|].
Qed.

(** A row appended below a table survives exactly when no equal row is
    already in the table: the first occurrence is the one kept, in its
    place. *)
Lemma keep_first_snoc seen rs (r : list cell) :
  keep_first seen (rs ++ [r]) =
    if decide (r ∈ seen ∨ r ∈ rs) then keep_first seen rs
    else keep_first seen rs ++ [r].
Proof.
  revert seen. induction rs as [|r' rs IH]; intros seen.
  - rewrite app_nil_l, keep_first_cons. simpl.
    destruct (decide (r ∈ seen)) as [Hin|Hnin].
    + by rewrite decide_True by (by left).
    + rewrite decide_False; [done|]. intros [?|?%elem_of_nil]; done.
  - rewrite <- app_comm_cons, !keep_first_cons, IH.
    destruct (decide (r ∈ r' :: seen ∨ r ∈ rs)) as [Hin|Hnin],
             (decide (r ∈ seen ∨ r ∈ r' :: rs)) as [Hin'|Hnin'];
      try (by destruct (decide (r' ∈ seen))); exfalso.
    + apply Hnin'. destruct Hin as [[->|?]%elem_of_cons|?].
      * right. by left.
      * by left.
      * right. by right.
    + apply Hnin. destruct Hin' as [?|[->|?]%elem_of_cons].
      * left. by right.
      * left. by left.
      * by right.
Qed.

Lemma drop_duplicates_rows_same df r :
  r ∈ rows df ↔ r ∈ rows (drop_duplicates df).
Proof.
  unfold drop_duplicates, duplicated; simpl. split.
  - intros Hr. apply keep_first_elem; [done|apply not_elem_of_nil].
  - by intros [_ ?]%keep_first_not_seen.
Qed.

(** C7: removing duplicate rows twice gives the table that removing
    them once gives; the removal keeps the columns, leaves no two equal
    rows, drops nothing but repeats (every row of the input still
    occurs), keeps the surviving rows in their input order, and keeps of
    equal rows the first: a row added at the bottom is dropped exactly
    when an equal row stands above it. *)
Theorem drop_duplicates_idempotent (holder_info : DataFrame) :
  drop_duplicates (drop_duplicates holder_info) = drop_duplicates holder_info
  ∧ columns (drop_duplicates holder_info) = columns holder_info
  ∧ NoDup (rows (drop_duplicates holder_info))
  ∧ rows (drop_duplicates holder_info) `sublist_of` rows holder_info
  ∧ (∀ r, r ∈ rows holder_info ↔ r ∈ rows (drop_duplicates holder_info))
  ∧ (∀ r, rows (drop_duplicates
                  (Frame (columns holder_info) (rows holder_info ++ [r]))) =
          if decide (r ∈ rows holder_info)
          then rows (drop_duplicates holder_info)
          else rows (drop_duplicates holder_info) ++ [r]).
Proof.
  destruct holder_info as [cols rs]. unfold drop_duplicates, duplicated. simpl.
  repeat split.
  - f_equal. apply keep_first_id; [apply keep_first_NoDup|].
    intros x _. apply not_elem_of_nil.
  - apply keep_first_NoDup.
  - apply keep_first_sublist.
  - intros Hr. apply keep_first_elem; [done|apply not_elem_of_nil].
  - by intros [_ ?]%keep_first_not_seen.
  - intros r. rewrite keep_first_snoc.
    destruct (decide (r ∈ rs)) as [Hin|Hnin].
    + by rewrite decide_True by (by right).
    + rewrite decide_False; [done|]. intros [?%elem_of_nil|?]; done.
Qed.

Lemma fillna_dict_rows (d : gmap string cell) df k (r : list cell) i x :
  rows df !! k = Some r → r !! i = Some x →
  ∃ r', rows (fillna_dict d df) !! k = Some r' ∧ length r' = length r ∧
        r' !! i = Some (filled (default Null (columns df !! i ≫= (d !!.))) x).
Proof.
  intros Hk Hi. unfold fillna_dict; simpl.
  rewrite list_lookup_fmap, Hk; simpl. eexists. split; [done|].
  rewrite length_imap, list_lookup_imap, Hi; simpl. split; [done|].
  by destruct x.
Qed.

Lemma fillna_dict_no_null (d : gmap string cell) df i c v (r' : list cell) :
  columns df !! i = Some c → d !! c = Some v → v ≠ Null →
  r' ∈ rows (fillna_dict d df) → r' !! i ≠ Some Null.
Proof.
  intros Hc Hd Hv Hr'. unfold fillna_dict in Hr'; simpl in Hr'.
  apply list_elem_of_fmap in Hr' as (r & -> & _).
  rewrite list_lookup_imap. destruct (r !! i) as [x|]; simpl; [|done].
  rewrite Hc; simpl. rewrite Hd; simpl. by destruct x; intros [=].
Qed.

Lemma fillna_rows v df k (r : list cell) i x :
  rows df !! k = Some r → r !! i = Some x →
  ∃ r', rows (fillna v df) !! k = Some r' ∧ length r' = length r ∧
        r' !! i = Some (filled v x).
Proof.
  intros Hk Hi. unfold fillna; simpl.
  rewrite list_lookup_fmap, Hk; simpl. eexists. split; [done|].
  rewrite length_fmap, list_lookup_fmap, Hi; simpl. split; [done|].
  by destruct x.
Qed.

Lemma fillna_no_null v df i (r' : list cell) :
  v ≠ Null → r' ∈ rows (fillna v df) → r' !! i ≠ Some Null.
Proof.
  intros Hv Hr'. unfold fillna in Hr'; simpl in Hr'.
  apply list_elem_of_fmap in Hr' as (r & -> & _).
  rewrite list_lookup_fmap. destruct (r !! i) as [x|]; simpl; [|done].
  by destruct x; intros [=].
Qed.

Ltac named_column H :=
  repeat (apply elem_of_cons in H as [->|H]; [reflexivity|]);
  by apply elem_of_nil in H.

Lemma acct_default_numeric c :
  c ∈ acct_numeric_columns → acct_default_vals !! c = Some (Num (-1)).
Proof. intros H. named_column H. Qed.

Lemma holder_default_numeric c :
  c ∈ holder_numeric_columns → holder_default_vals !! c = Some (Num (-1)).
Proof. intros H. named_column H. Qed.

Lemma holder_default_categorical c :
  c ∈ holder_categorical_columns →
  holder_default_vals !! c = Some (Str "Missing").
Proof. intros H. named_column H. Qed.

(** The default maps name nothing else: nine account columns, twelve
    holder columns. *)
Lemma default_vals_domains :
  dom acct_default_vals = list_to_set acct_numeric_columns
  ∧ dom holder_default_vals =
      list_to_set (holder_numeric_columns ++ holder_categorical_columns)
  ∧ length acct_numeric_columns = 9%nat
  ∧ length (holder_numeric_columns ++ holder_categorical_columns) = 12%nat
  ∧ NoDup acct_numeric_columns
  ∧ NoDup (holder_numeric_columns ++ holder_categorical_columns).
Proof.
  split; [|split; [|split; [|split; [|split]]]]; [| |done|done| |].
  - apply (bool_decide_unpack
             (dom acct_default_vals = list_to_set acct_numeric_columns)).
    vm_compute. exact I.
  - apply (bool_decide_unpack
             (dom holder_default_vals =
              list_to_set (holder_numeric_columns
                           ++ holder_categorical_columns))).
    vm_compute. exact I.
  - apply (bool_decide_unpack (NoDup acct_numeric_columns)). by vm_compute.
  - apply (bool_decide_unpack
             (NoDup (holder_numeric_columns ++ holder_categorical_columns))).
    by vm_compute.
Qed.

(** C3: after [clean_data], whatever the three input tables: no cell
    of the nine named account columns is null, no cell of the twelve
    named holder columns is null, and no cell of the fraud table (so none
    of its flag column) is null.  The fills put -1 where a named numeric
    cell was null, "Missing" where a named categorical cell was null, 0
    where a fraud cell was null, and leave every cell that held a value
    as it was; the holder table is filled after its duplicate rows are
    dropped. *)
Theorem clean_data_no_nulls (acct_info holder_info fraud_indicators : DataFrame) :
  let cleaned := clean_data acct_info holder_info fraud_indicators in
  let acct' := cleaned.1.1 in
  let holder' := cleaned.1.2 in
  let fraud' := cleaned.2 in
  (∀ i c r, columns acct' !! i = Some c → c ∈ acct_numeric_columns →
            r ∈ rows acct' → r !! i ≠ Some Null)
  ∧ (∀ i c r, columns holder' !! i = Some c →
              c ∈ holder_numeric_columns ++ holder_categorical_columns →
              r ∈ rows holder' → r !! i ≠ Some Null)
  ∧ (∀ i r, r ∈ rows fraud' → r !! i ≠ Some Null)
  ∧ (columns acct' = columns acct_info
     ∧ ∀ k r i c x,
         rows acct_info !! k = Some r → r !! i = Some x →
         columns acct_info !! i = Some c → c ∈ acct_numeric_columns →
         ∃ r', rows acct' !! k = Some r' ∧ length r' = length r ∧
               r' !! i = Some (filled (Num (-1)) x))
  ∧ (columns holder' = columns holder_info
     ∧ ∀ k r i c x,
         rows (drop_duplicates holder_info) !! k = Some r → r !! i = Some x →
         columns holder_info !! i = Some c →
         ∃ r', rows holder' !! k = Some r' ∧ length r' = length r ∧
               (c ∈ holder_numeric_columns →
                r' !! i = Some (filled (Num (-1)) x)) ∧
               (c ∈ holder_categorical_columns →
                r' !! i = Some (filled (Str "Missing") x)))
  ∧ (columns fraud' = columns fraud_indicators
     ∧ ∀ k r i x,
         rows fraud_indicators !! k = Some r → r !! i = Some x →
         ∃ r', rows fraud' !! k = Some r' ∧ length r' = length r ∧
               r' !! i = Some (filled (Num 0) x)).
Proof.
  unfold clean_data; cbv zeta; cbn [fst snd]. repeat split.
  - intros i c r Hc Hin Hr. simpl in Hc.
    by eapply fillna_dict_no_null; [exact Hc|by apply acct_default_numeric| |].
  - intros i c r Hc Hin Hr. simpl in Hc. apply elem_of_app in Hin as [Hin|Hin].
    + by eapply (fillna_dict_no_null _ (drop_duplicates holder_info));
        [exact Hc|by apply holder_default_numeric| |].
    + by eapply (fillna_dict_no_null _ (drop_duplicates holder_info));
        [exact Hc|by apply holder_default_categorical| |].
  - intros i r Hr. by eapply fillna_no_null; [|exact Hr].
  - intros k r i c x Hk Hi Hc Hin.
    destruct (fillna_dict_rows acct_default_vals _ _ _ _ _ Hk Hi)
      as (r' & Hr' & Hlen & Hx).
    exists r'. repeat split; [done|done|].
    by rewrite Hx, Hc; simpl; rewrite acct_default_numeric.
  - intros k r i c x Hk Hi Hc.
    destruct (fillna_dict_rows holder_default_vals _ _ _ _ _ Hk Hi)
      as (r' & Hr' & Hlen & Hx).
    simpl in Hx. exists r'. repeat split; [done|done| |].
    + intros Hin. by rewrite Hx, Hc; simpl; rewrite holder_default_numeric.
    + intros Hin.
      by rewrite Hx, Hc; simpl; rewrite holder_default_categorical.
  - intros k r i x Hk Hi. by apply fillna_rows.
Qed.

End Cleaning.

Section Identifiers.

Lemma float_column_spec (col : list cell) :
  float_column col = true ↔ blank_in_numbers col.
Proof.
  unfold float_column, blank_in_numbers, numeric_column, has_blank.
  rewrite andb_true_iff, forallb_forall, existsb_exists. split.
  - intros [Hnum (c & Hc & Hna)]. split.
    + destruct c; try done. by apply list_elem_of_In.
    + intros c' Hc'%list_elem_of_In. specialize (Hnum c' Hc').
      destruct c'; try done; eauto.
  - intros [Hnull Hnum]. split.
    + intros c Hc%list_elem_of_In.
      by destruct (Hnum c Hc) as [->|[z ->]].
    + exists Null. split; [by apply list_elem_of_In|done].
Qed.

Lemma missing_count_pos (col : list cell) :
  Null ∈ col → (0 < missing_count col)%nat.
Proof.
  unfold missing_count. intros Hin.
  assert (Hf : Null ∈ filter (λ c, c = Null) col)
    by by apply list_elem_of_filter.
  destruct (filter _ col); [by apply elem_of_nil in Hf|simpl; lia].
Qed.

Lemma py_set_plain (col : list cell) :
  float_column col = false → py_set col = PySet (list_to_set col) 0.
Proof. unfold py_set. by intros ->. Qed.

Lemma py_set_nans (col : list cell) :
  nans (py_set col) = 0%nat ↔ float_column col = false.
Proof.
  unfold py_set. destruct (float_column col) eqn:Hf; simpl; [|done].
  apply float_column_spec in Hf as [Hnull _].
  apply missing_count_pos in Hnull. split; [lia|done].
Qed.

Lemma py_set_eqb_spec (l1 l2 : list cell) :
  py_set_eqb (py_set l1) (py_set l2) = true ↔
  float_column l1 = false ∧ float_column l2 = false ∧ ∀ x, x ∈ l1 ↔ x ∈ l2.
Proof.
  unfold py_set_eqb.
  rewrite !andb_true_iff, !bool_decide_eq_true, !py_set_nans. split.
  - intros [[H1 H2] Hm]. rewrite !py_set_plain in Hm by done. simpl in Hm.
    split; [done|]. split; [done|]. intros x.
    by rewrite <- !(elem_of_list_to_set (C := gset cell)), Hm.
  - intros (H1 & H2 & Hm). rewrite !py_set_plain by done. simpl.
    split; [done|]. apply set_eq. intros x.
    by rewrite !elem_of_list_to_set.
Qed.

(** C8 (as the script computes it): with the three identifier columns
    at hand, the consistency check yields a boolean.  It is true
    exactly when no identifier column is a column of numbers with a
    blank and the three columns hold the same members (whatever the
    order and the repetitions).  So it is false as soon as some
    identifier occurs in one table and is missing from another, and it
    is also false whenever a numeric identifier column has a blank,
    even if all three columns are equal. *)
Theorem ids_match_iff_equal_sets (acct_info holder_info fraud_indicators : DataFrame)
    (a h f : list cell) :
  identifier_column acct_info = Some a →
  identifier_column holder_info = Some h →
  identifier_column fraud_indicators = Some f →
  (ids_match acct_info holder_info fraud_indicators = Some true ↔
     (¬ blank_in_numbers a ∧ ¬ blank_in_numbers h ∧ ¬ blank_in_numbers f)
     ∧ ∀ x, (x ∈ a ↔ x ∈ h) ∧ (x ∈ h ↔ x ∈ f) ∧ (x ∈ a ↔ x ∈ f))
  ∧ (ids_match acct_info holder_info fraud_indicators ≠ Some true ↔
     ids_match acct_info holder_info fraud_indicators = Some false)
  ∧ (∀ x, (x ∈ a ∨ x ∈ h ∨ x ∈ f) → (x ∉ a ∨ x ∉ h ∨ x ∉ f) →
          ids_match acct_info holder_info fraud_indicators = Some false)
  ∧ (blank_in_numbers a ∨ blank_in_numbers h ∨ blank_in_numbers f →
     ids_match acct_info holder_info fraud_indicators = Some false).
Proof.
  intros Ha Hh Hf. unfold ids_match. rewrite Ha, Hh, Hf; simpl.
  assert (Hnf : ∀ l, float_column l = false ↔ ¬ blank_in_numbers l).
  { intros l. rewrite <- float_column_spec. by destruct (float_column l). }
  assert (Hmem : Some (py_set_eqb (py_set a) (py_set h)
                       && py_set_eqb (py_set h) (py_set f)) = Some true ↔
                 (¬ blank_in_numbers a ∧ ¬ blank_in_numbers h
                  ∧ ¬ blank_in_numbers f)
                 ∧ ∀ x, (x ∈ a ↔ x ∈ h) ∧ (x ∈ h ↔ x ∈ f) ∧ (x ∈ a ↔ x ∈ f)).
  { rewrite <- !Hnf. split.
    - intros [= [(H1 & H2 & H3)%py_set_eqb_spec
                 (_ & H4 & H5)%py_set_eqb_spec]%andb_true_iff].
      split; [done|]. intros x. specialize (H3 x); specialize (H5 x). tauto.
    - intros [(H1 & H2 & H3) H]. f_equal. apply andb_true_iff.
      split; apply py_set_eqb_spec; (split; [done|]); (split; [done|]);
        intros x; apply H. }
  split; [exact Hmem|]. split; [|split].
  - destruct (py_set_eqb _ _ && py_set_eqb _ _); split; congruence.
  - intros x Hsome Hnone.
    destruct (py_set_eqb _ _ && py_set_eqb _ _) eqn:Hb; [|done].
    exfalso. destruct Hmem as [Hmem _].
    destruct (Hmem eq_refl) as [_ Hx].
    destruct (Hx x) as (H1 & H2 & H3). tauto.
  - intros Hblank.
    destruct (py_set_eqb _ _ && py_set_eqb _ _) eqn:Hb; [|done].
    exfalso. destruct Hmem as [Hmem _].
    destruct (Hmem eq_refl) as [(H1 & H2 & H3) _]. tauto.
Qed.

Lemma ids_match_iff_equal_sets_witness :
  (ids_match acct_fixture acct_holders_fixture fraud_fixture = Some true ↔
     (¬ blank_in_numbers [Num 1; Num 2; Num 3]
      ∧ ¬ blank_in_numbers [Num 1; Num 2; Num 3]
      ∧ ¬ blank_in_numbers [Num 1; Num 2; Num 3])
     ∧ ∀ x, (x ∈ [Num 1; Num 2; Num 3] ↔ x ∈ [Num 1; Num 2; Num 3])
            ∧ (x ∈ [Num 1; Num 2; Num 3] ↔ x ∈ [Num 1; Num 2; Num 3])
            ∧ (x ∈ [Num 1; Num 2; Num 3] ↔ x ∈ [Num 1; Num 2; Num 3]))
  ∧ (ids_match acct_fixture acct_holders_fixture fraud_fixture ≠ Some true ↔
     ids_match acct_fixture acct_holders_fixture fraud_fixture = Some false)
  ∧ (∀ x, (x ∈ [Num 1; Num 2; Num 3] ∨ x ∈ [Num 1; Num 2; Num 3]
           ∨ x ∈ [Num 1; Num 2; Num 3]) →
          (x ∉ [Num 1; Num 2; Num 3] ∨ x ∉ [Num 1; Num 2; Num 3]
           ∨ x ∉ [Num 1; Num 2; Num 3]) →
          ids_match acct_fixture acct_holders_fixture fraud_fixture
          = Some false)
  ∧ (blank_in_numbers [Num 1; Num 2; Num 3]
     ∨ blank_in_numbers [Num 1; Num 2; Num 3]
     ∨ blank_in_numbers [Num 1; Num 2; Num 3] →
     ids_match acct_fixture acct_holders_fixture fraud_fixture = Some false).
Proof.
  apply (ids_match_iff_equal_sets acct_fixture acct_holders_fixture
                                  fraud_fixture);
    reflexivity.
Defined.

(** C8 as stated fails: three tables that each hold identifier 1 and a
    blank identifier have equal identifier sets, with the blank counted
    as a member or left out, and the check says no. *)
Lemma blank_identifiers_never_match :
  ¬ (∀ (acct_info holder_info fraud_indicators : DataFrame) (a h f : list cell),
       identifier_column acct_info = Some a →
       identifier_column holder_info = Some h →
       identifier_column fraud_indicators = Some f →
       (ids_match acct_info holder_info fraud_indicators = Some true ↔
        ∀ x, (x ∈ a ↔ x ∈ h) ∧ (x ∈ h ↔ x ∈ f)))
  ∧ ¬ (∀ (acct_info holder_info fraud_indicators : DataFrame)
         (a h f : list cell),
         identifier_column acct_info = Some a →
         identifier_column holder_info = Some h →
         identifier_column fraud_indicators = Some f →
         (ids_match acct_info holder_info fraud_indicators = Some true ↔
          ∀ x, x ≠ Null → (x ∈ a ↔ x ∈ h) ∧ (x ∈ h ↔ x ∈ f))).
Proof.
  split; intros H;
    destruct (H blank_id_fixture blank_id_fixture blank_id_fixture
                _ _ _ eq_refl eq_refl eq_refl) as [_ Hback];
    assert (Hno : ids_match blank_id_fixture blank_id_fixture blank_id_fixture
                  = Some false) by (vm_compute; reflexivity);
    rewrite Hno in Hback; by discriminate Hback.
Qed.

(** The holder fixture lacks identifier 3: the check says no. *)
Example fixture_ids_do_not_match :
  ids_match acct_fixture holder_fixture fraud_fixture = Some false
  ∧ ids_match acct_fixture acct_fixture fraud_fixture = Some true.
Proof. by vm_compute. Qed.

End Identifiers.

Section Merging.

Lemma col_index_lt name cols k :
  col_index name cols = Some k → cols !! k = Some name.
Proof.
  revert k. induction cols as [|c cols IH]; intros k; simpl; [done|].
  destruct (decide (c = name)) as [->|Hne].
  - by intros [= <-].
  - destruct (col_index name cols) as [k'|]; simpl; [|done].
    intros [= <-]. simpl. by apply IH.
Qed.

Lemma append_nil (s : string) : "" +:+ s = s.
Proof. reflexivity. Qed.
Lemma append_cons a (c s : string) : String a c +:+ s = String a (c +:+ s).
Proof. reflexivity. Qed.
Lemma suffix_not_identifier (c suffix : string) :
  suffix = "_x" ∨ suffix = "_y" → c +:+ suffix ≠ "Identifier".
Proof.
  intros Hs Heq.
  assert (Hl : String.length suffix = 2%nat) by (by destruct Hs as [-> | ->]).
  assert (Hne : suffix ≠ "er") by (by destruct Hs as [-> | ->]).
  clear Hs. revert Heq.
  do 8 (destruct c as [|? c];
        [rewrite ?append_cons, append_nil; intros Heq;
         apply (f_equal String.length) in Heq; simpl in Heq; lia|]).
  rewrite !append_cons. intros [= _ _ _ _ _ _ _ _ Heq].
  destruct c as [|? c].
  - by rewrite append_nil in Heq.
  - rewrite append_cons in Heq. injection Heq as _ Heq.
    destruct c as [|? c].
    + rewrite append_nil in Heq. subst. simpl in Hl. lia.
    + rewrite append_cons in Heq. injection Heq as _ Heq.
      destruct c; [rewrite append_nil in Heq; subst; simpl in Hl; lia|done].
Qed.

(** The key column of the left table keeps its position in the merged
    table: suffixed labels never collide with the key label. *)
Lemma col_index_suffix suffix other cols more k :
  suffix = "_x" ∨ suffix = "_y" →
  col_index "Identifier" cols = Some k →
  col_index "Identifier"
    (suffix_columns "Identifier" suffix other cols ++ more) = Some k.
Proof.
  intros Hs. revert k. induction cols as [|c cols IH]; intros k; simpl; [done|].
  destruct (decide (c = "Identifier")) as [->|Hne].
  - intros [= <-].
    destruct (decide ("Identifier" ≠ "Identifier" ∧ _)) as [[Hne _]|_]; [done|].
    by rewrite decide_True.
  - destruct (col_index "Identifier" cols) as [k'|]; simpl; [|done].
    intros [= <-].
    rewrite (IH k' eq_refl); simpl.
    destruct (decide (c ≠ "Identifier" ∧ c ∈ other)).
    + rewrite decide_False; [done|]. by apply suffix_not_identifier.
    + by rewrite decide_False.
Qed.

Lemma astype_float64_safe z : Z.abs z ≤ 2 ^ 53 → astype_float64 z = z.
Proof.
  intros Hz. unfold astype_float64.
  by destruct (Z.leb_spec (Z.abs z) (2 ^ 53)); [|lia].
Qed.

Lemma join_key_safe fl c : safe_cell c → join_key fl c = c.
Proof.
  destruct fl; [|done]. destruct c; simpl; try done.
  intros Hz. by rewrite astype_float64_safe.
Qed.

Lemma safe_column_elem (col : list cell) c :
  safe_column col → c ∈ col → safe_cell c.
Proof. intros Hs. by apply Forall_forall. Qed.

Lemma join_keys_safe fl (ids : list cell) :
  safe_column ids → join_key fl <$> ids = ids.
Proof.
  induction 1 as [|c ids Hc _ IH]; [done|].
  csimpl. by rewrite join_key_safe, IH.
Qed.

Lemma matching_rows_unique fl kj k (rs : list (list cell)) :
  NoDup (join_key fl <$> (cell_at kj <$> rs)) →
  (length (matching_rows fl kj k rs) ≤ 1)%nat.
Proof.
  unfold matching_rows. induction rs as [|r rs IH]; simpl; [lia|].
  intros [Hr Hnd]%NoDup_cons. rewrite filter_cons.
  destruct (decide (join_key fl (cell_at kj r) = join_key fl k)) as [Hk|Hk];
    [|by apply IH].
  simpl. destruct (filter _ rs) as [|r' rest] eqn:Hf; [simpl; lia|].
  exfalso. apply Hr.
  assert (Hin : r' ∈ filter (λ rr, join_key fl (cell_at kj rr) = join_key fl k)
                            rs) by (rewrite Hf; left).
  apply list_elem_of_filter in Hin as [Hk' Hin].
  apply list_elem_of_fmap. exists (cell_at kj r'). split; [congruence|].
  apply list_elem_of_fmap. by exists r'.
Qed.

Lemma matching_rows_spec fl kj k (rs : list (list cell)) rr :
  rr ∈ matching_rows fl kj k rs ↔
  join_key fl (cell_at kj rr) = join_key fl k ∧ rr ∈ rs.
Proof. unfold matching_rows. by rewrite list_elem_of_filter. Qed.

(** Each left row gets at least one part, exactly one when the right
    keys, as the join compares them, do not repeat; a part has one cell
    per right column other than the key. *)
Lemma join_parts_nonempty fl kj right k : join_parts fl kj right k ≠ [].
Proof. unfold join_parts. by destruct (matching_rows _ _ _ _). Qed.

Lemma join_parts_one fl kj right k :
  NoDup (join_key fl <$> column_at kj right) →
  length (join_parts fl kj right k) = 1%nat.
Proof.
  intros Hnd. unfold join_parts.
  pose proof (matching_rows_unique fl kj k (rows right) Hnd).
  destruct (matching_rows _ _ _ _) as [|r1 [|r2 rest]]; simpl in *;
    [done|done|lia].
Qed.

Lemma join_parts_length fl kj right k p :
  well_formed right → (kj < length (columns right))%nat →
  p ∈ join_parts fl kj right k →
  length p = (length (columns right) - 1)%nat.
Proof.
  intros Hwf Hkj. unfold join_parts.
  destruct (matching_rows _ _ _ _) as [|rr ms] eqn:Hmatch.
  - intros ->%list_elem_of_singleton. by rewrite length_replicate.
  - intros (rr' & -> & Hrr')%list_elem_of_fmap.
    rewrite <- Hmatch in Hrr'. apply matching_rows_spec in Hrr' as [_ Hin].
    pose proof (proj1 (Forall_forall _ _) Hwf rr' Hin) as Hlen.
    simpl in Hlen. rewrite length_delete; [lia|].
    apply lookup_lt_is_Some_2. lia.
Qed.

Lemma join_parts_spec fl kj right k p :
  p ∈ join_parts fl kj right k ↔
  (∃ rr, rr ∈ rows right
         ∧ join_key fl (cell_at kj rr) = join_key fl k ∧ p = delete kj rr)
  ∨ ((∀ rr, rr ∈ rows right → join_key fl (cell_at kj rr) ≠ join_key fl k)
     ∧ p = replicate (length (columns right) - 1) Null).
Proof.
  unfold join_parts.
  destruct (matching_rows _ _ _ _) as [|r0 ms] eqn:He.
  - rewrite list_elem_of_singleton. split.
    + intros ->. right. split; [|done]. intros rr Hin Hk.
      assert (Hrr : rr ∈ matching_rows fl kj k (rows right))
        by by apply matching_rows_spec.
      rewrite He in Hrr. by apply elem_of_nil in Hrr.
    + intros [(rr & Hin & Hk & _)|[_ ->]]; [|done].
      assert (Hrr : rr ∈ matching_rows fl kj k (rows right))
        by by apply matching_rows_spec.
      rewrite He in Hrr. by apply elem_of_nil in Hrr.
  - rewrite <- He, list_elem_of_fmap. split.
    + intros (rr & -> & [Hk Hin]%matching_rows_spec). left. by exists rr.
    + intros [(rr & Hin & Hk & ->)|[Hno _]].
      * exists rr. split; [done|]. by apply matching_rows_spec.
      * assert (Hr0 : r0 ∈ matching_rows fl kj k (rows right))
          by (rewrite He; left).
        apply matching_rows_spec in Hr0 as [Hk Hin]. by destruct (Hno r0).
Qed.

(** With keys that every numeric type holds exactly, the join compares
    the keys as they are. *)
Lemma join_parts_exact fl kj right k p :
  safe_cell k → safe_column (column_at kj right) →
  p ∈ join_parts fl kj right k ↔ right_part right kj k p.
Proof.
  intros Hk Hsafe. rewrite join_parts_spec. unfold right_part.
  assert (Hkey : ∀ rr, rr ∈ rows right →
                       join_key fl (cell_at kj rr) = cell_at kj rr).
  { intros rr Hin. apply join_key_safe.
    apply (proj1 (Forall_forall _ _) Hsafe).
    apply list_elem_of_fmap. by exists rr. }
  rewrite (join_key_safe fl k Hk). split.
  - intros [(rr & Hin & Heq & ->)|[Hno ->]].
    + left. exists rr. by rewrite <- (Hkey rr Hin).
    + right. split; [|done].
      intros (rr & -> & Hin)%list_elem_of_fmap.
      apply (Hno rr Hin). by rewrite Hkey.
  - intros [(rr & Hin & Heq & ->)|[Hnin ->]].
    + left. exists rr. by rewrite Hkey.
    + right. split; [|done]. intros rr Hin Heq. apply Hnin.
      apply list_elem_of_fmap. exists rr. by rewrite <- (Hkey rr Hin).
Qed.

Lemma merged_rows_length (g : list cell → list (list cell))
    (ls : list (list cell)) :
  (∀ lr, lr ∈ ls → length (g lr) = 1%nat) → length (ls ≫= g) = length ls.
Proof.
  induction ls as [|lr ls IH]; intros Hg; [done|].
  rewrite bind_cons, length_app, Hg by left. simpl. f_equal.
  apply IH. intros ? ?. apply Hg. by right.
Qed.

(** What a left join that returns is made of. *)
Lemma merge_left_inv (left right m : DataFrame) :
  merge_left "Identifier" left right = Some m →
  ∃ ki kj fl,
    col_index "Identifier" (columns left) = Some ki
    ∧ col_index "Identifier" (columns right) = Some kj
    ∧ col_index "Identifier" (columns m) = Some ki
    ∧ length (columns m)
      = (length (columns left) + (length (columns right) - 1))%nat
    ∧ rows m = rows left ≫= (λ lr, (lr ++.) <$>
                                     join_parts fl kj right (cell_at ki lr)).
Proof.
  unfold merge_left.
  destruct (col_index "Identifier" (columns left)) as [ki|] eqn:Hki; [|done].
  destruct (col_index "Identifier" (columns right)) as [kj|] eqn:Hkj; [|done].
  simpl. destruct (incompatible_keys _ _); [done|].
  destruct (suffix_clash _ _ || suffix_clash _ _); [done|].
  intros [= <-]. exists ki, kj. eexists.
  split; [done|]. split; [done|]. simpl. split; [|split; [|done]].
  - apply col_index_suffix; [by left|done].
  - unfold suffix_columns.
    rewrite length_app, length_delete, !length_fmap.
    + lia.
    + rewrite list_lookup_fmap. apply col_index_lt in Hkj. by rewrite Hkj.
Qed.

Lemma merge_left_len (left right m : DataFrame) ids :
  identifier_column right = Some ids → NoDup ids → safe_column ids →
  merge_left "Identifier" left right = Some m →
  len m = len left.
Proof.
  intros Hids Hnd Hsafe Hm.
  apply merge_left_inv in Hm as (ki & kj & fl & Hki & Hkj & _ & _ & Hrows).
  unfold identifier_column in Hids. rewrite Hkj in Hids.
  injection Hids as <-.
  unfold len. rewrite Hrows. apply merged_rows_length. intros lr _.
  rewrite length_fmap. apply join_parts_one.
  by rewrite join_keys_safe.
Qed.

(** C5 (as the joins compare keys): when the holder and the fraud
    identifiers do not repeat and are text or integers of magnitude at
    most 2^53, a merge that returns has exactly as many rows as the
    account table, whatever the account table holds. *)
Theorem merge_preserves_row_count
    (acct_info holder_info fraud_indicators combined_data : DataFrame)
    (ids_h ids_f : list cell) :
  identifier_column holder_info = Some ids_h →
  identifier_column fraud_indicators = Some ids_f →
  NoDup ids_h → NoDup ids_f →
  safe_column ids_h → safe_column ids_f →
  merge_datasets acct_info holder_info fraud_indicators = Some combined_data →
  len combined_data = len acct_info.
Proof.
  intros Hh Hf Hndh Hndf Hsh Hsf Hm. unfold merge_datasets in Hm.
  destruct (merge_left "Identifier" acct_info holder_info) as [m1|] eqn:Hm1;
    [|done].
  simpl in Hm.
  rewrite (merge_left_len _ _ _ _ Hf Hndf Hsf Hm).
  by apply (merge_left_len _ _ _ _ Hh Hndh Hsh Hm1).
Qed.

Lemma merge_preserves_row_count_witness :
  len (default acct_fixture
         (merge_datasets acct_fixture (drop_duplicates holder_fixture)
                         fraud_fixture))
  = len acct_fixture.
Proof.
  apply (merge_preserves_row_count acct_fixture (drop_duplicates holder_fixture)
           fraud_fixture _ [Num 1; Num 2] [Num 1; Num 2; Num 3]);
    try reflexivity.
  - apply (bool_decide_unpack (NoDup [Num 1; Num 2])). vm_compute. exact I.
  - apply (bool_decide_unpack (NoDup [Num 1; Num 2; Num 3])).
    vm_compute. exact I.
  - repeat constructor; simpl; lia.
  - repeat constructor; simpl; lia.
Defined.

(** C5 as stated fails.  The account identifiers 2^53 and blank make a
    binary64 column; against it the holder identifiers 2^53 and 2^53+1,
    which do not repeat, are compared as binary64 numbers, where both
    are 2^53: the first account row comes out twice, and the merged
    table has three rows for two accounts. *)
Lemma rounded_identifiers_repeat_rows :
  ¬ (∀ (acct_info holder_info fraud_indicators combined_data : DataFrame),
       duplicate_free acct_info → duplicate_free holder_info →
       duplicate_free fraud_indicators →
       merge_datasets acct_info holder_info fraud_indicators
       = Some combined_data →
       len combined_data = len acct_info).
Proof.
  intros H.
  assert (Hnd2 : ∀ x y : cell, x ≠ y → NoDup [x; y]).
  { intros x y Hxy. apply NoDup_cons. split; [|apply NoDup_singleton].
    by intros ->%list_elem_of_singleton. }
  specialize (H wide_acct_fixture wide_holder_fixture wide_fraud_fixture
                (default wide_acct_fixture
                   (merge_datasets wide_acct_fixture wide_holder_fixture
                                   wide_fraud_fixture))).
  assert (Hlen : len (default wide_acct_fixture
                        (merge_datasets wide_acct_fixture wide_holder_fixture
                                        wide_fraud_fixture)) = 3%nat)
    by (vm_compute; reflexivity).
  rewrite Hlen in H. discriminate H.
  - eexists. split; [reflexivity|]. by apply Hnd2.
  - eexists. split; [reflexivity|]. by apply Hnd2.
  - eexists. split; [reflexivity|]. apply NoDup_singleton.
  - vm_compute. reflexivity.
Qed.

(** The three rows of that merge. *)
Example wide_fixture_merge :
  rows <$> merge_datasets wide_acct_fixture wide_holder_fixture
                          wide_fraud_fixture
  = Some [[Num 9007199254740992; Num 12; Str "F"; Num 1];
          [Num 9007199254740992; Num 12; Str "M"; Num 1];
          [Null; Num 7; Null; Null]].
Proof. vm_compute. reflexivity. Qed.

End Merging.

Section Columns.

Lemma col_index_bound name cols k :
  col_index name cols = Some k → (k < length cols)%nat.
Proof. intros H%col_index_lt. by eapply lookup_lt_Some. Qed.

Lemma col_index_snoc_new name cols :
  col_index name cols = None →
  col_index name (cols ++ [name]) = Some (length cols).
Proof.
  induction cols as [|c cols IH]; simpl.
  - by rewrite decide_True.
  - destruct (decide (c = name)); [done|].
    destruct (col_index name cols); [done|]. intros _. by rewrite IH.
Qed.

Lemma col_index_snoc_other name name' cols :
  name ≠ name' →
  col_index name' (cols ++ [name]) = col_index name' cols.
Proof.
  intros Hne. induction cols as [|c cols IH]; simpl.
  - by rewrite decide_False.
  - destruct (decide (c = name')); [done|]. by rewrite IH.
Qed.

Lemma col_index_distinct name name' cols i j :
  name ≠ name' →
  col_index name cols = Some i → col_index name' cols = Some j → i ≠ j.
Proof.
  intros Hne Hi%col_index_lt Hj%col_index_lt ->. congruence.
Qed.

Lemma column_at_overwrite i cols (rs : list (list cell)) (vals : list cell) :
  length vals = length rs →
  Forall (λ r, i < length r)%nat rs →
  column_at i (Frame cols (zip_with (λ r v, <[i := v]> r) rs vals)) = vals.
Proof.
  unfold column_at; simpl. revert vals.
  induction rs as [|r rs IH]; intros [|v vals] Hlen Hwf; simplify_eq/=; [done|].
  apply Forall_cons in Hwf as [Hr Hwf]. f_equal; [|by apply IH].
  unfold cell_at. by rewrite list_lookup_insert_eq.
Qed.

Lemma column_at_overwrite_other i j cols (rs : list (list cell)) (vals : list cell) :
  i ≠ j → length vals = length rs →
  column_at j (Frame cols (zip_with (λ r v, <[i := v]> r) rs vals))
  = column_at j (Frame cols rs).
Proof.
  intros Hne. unfold column_at; simpl. revert vals.
  induction rs as [|r rs IH]; intros [|v vals] Hlen; simplify_eq/=; [done|].
  f_equal; [|by apply IH].
  unfold cell_at. by rewrite list_lookup_insert_ne.
Qed.

Lemma column_at_append cols (rs : list (list cell)) (vals : list cell) n :
  length vals = length rs →
  Forall (λ r, length r = n) rs →
  column_at n (Frame cols (zip_with (λ r v, r ++ [v]) rs vals)) = vals.
Proof.
  unfold column_at; simpl. revert vals.
  induction rs as [|r rs IH]; intros [|v vals] Hlen Hwf; simplify_eq/=; [done|].
  apply Forall_cons in Hwf as [Hr Hwf]. f_equal; [|by apply IH].
  unfold cell_at. rewrite lookup_app_r by lia.
  by replace (n - length r)%nat with 0%nat by lia.
Qed.

Lemma column_at_append_other j cols cols' (rs : list (list cell))
    (vals : list cell) n :
  (j < n)%nat → length vals = length rs →
  Forall (λ r, length r = n) rs →
  column_at j (Frame cols (zip_with (λ r v, r ++ [v]) rs vals))
  = column_at j (Frame cols' rs).
Proof.
  intros Hj. unfold column_at; simpl. revert vals.
  induction rs as [|r rs IH]; intros [|v vals] Hlen Hwf; simplify_eq/=; [done|].
  apply Forall_cons in Hwf as [Hr Hwf]. f_equal; [|by apply IH].
  unfold cell_at. by rewrite lookup_app_l by lia.
Qed.

Lemma get_column_length name df col :
  get_column name df = Some col → length col = len df.
Proof.
  unfold get_column. destruct (col_index _ _); simpl; [|done].
  intros [= <-]. unfold column_at, len. by rewrite length_fmap.
Qed.

Lemma set_column_well_formed name vals df :
  well_formed df → well_formed (set_column name vals df).
Proof.
  unfold well_formed, set_column. intros Hwf.
  destruct (col_index name (columns df)) as [i|]; simpl.
  - revert vals. induction (rows df) as [|r rs IH]; intros [|v vals]; simpl;
      try constructor.
    + apply Forall_cons in Hwf as [Hr _]. by rewrite length_insert.
    + apply Forall_cons in Hwf as [_ Hwf]. by apply IH.
  - revert vals. induction (rows df) as [|r rs IH]; intros [|v vals]; simpl;
      try constructor.
    + apply Forall_cons in Hwf as [Hr _]. rewrite !length_app, Hr. done.
    + apply Forall_cons in Hwf as [_ Hwf]. by apply IH.
Qed.

Lemma set_column_len name vals df :
  length vals = len df → len (set_column name vals df) = len df.
Proof.
  unfold len, set_column. intros Hlen.
  destruct (col_index name (columns df)); simpl;
    rewrite length_zip_with; lia.
Qed.

Lemma get_set_column name vals df :
  well_formed df → length vals = len df →
  get_column name (set_column name vals df) = Some vals.
Proof.
  intros Hwf Hlen. unfold get_column, set_column.
  destruct (col_index name (columns df)) as [i|] eqn:Hi; simpl.
  - rewrite Hi; simpl. f_equal. apply column_at_overwrite; [done|].
    apply col_index_bound in Hi.
    eapply Forall_impl; [exact Hwf|]. simpl. intros r ->. done.
  - rewrite col_index_snoc_new by done. simpl. f_equal.
    by apply column_at_append.
Qed.

Lemma get_set_column_other name name' vals df :
  name ≠ name' → well_formed df → length vals = len df →
  get_column name' (set_column name vals df) = get_column name' df.
Proof.
  intros Hne Hwf Hlen. unfold get_column, set_column.
  destruct (col_index name (columns df)) as [i|] eqn:Hi; simpl.
  - destruct (col_index name' (columns df)) as [j|] eqn:Hj; simpl; [|done].
    f_equal. destruct df as [cols rs].
    apply column_at_overwrite_other; [|done].
    by eapply col_index_distinct.
  - rewrite col_index_snoc_other by done.
    destruct (col_index name' (columns df)) as [j|] eqn:Hj; simpl; [|done].
    f_equal. destruct df as [cols rs].
    eapply column_at_append_other; [|done|exact Hwf].
    by eapply col_index_bound.
Qed.

End Columns.

Section Features.

Lemma feature_step_result ns today df dob income :
  well_formed df →
  get_column "DateOfBirth" df = Some dob →
  get_column "Income" df = Some income →
  ∃ df', create_derived_features ns today df
         = (if numeric_column income then Some df' else None)
    ∧ well_formed df' ∧ len df' = len df
    ∧ get_column "DateOfBirth" df' = Some (to_datetime ns <$> dob)
    ∧ get_column "Age" df'
      = Some (cell_of_pynum ∘ age_lambda today <$> (to_datetime ns <$> dob))
    ∧ get_column "AgeCategory" df'
      = Some (cut age_ranges age_categories <$>
                (cell_of_pynum ∘ age_lambda today <$> (to_datetime ns <$> dob)))
    ∧ get_column "IncomeCategory" df'
      = Some (cut income_ranges income_categories <$> income)
    ∧ (∀ name,
         name ∉ ["DateOfBirth"; "Age"; "AgeCategory"; "IncomeCategory"] →
         get_column name df' = get_column name df).
Proof.
  intros Hwf Hdob Hinc. unfold create_derived_features.
  pose proof (get_column_length _ _ _ Hdob) as Hldob.
  pose proof (get_column_length _ _ _ Hinc) as Hlinc.
  rewrite Hdob; simpl.
  set (dob' := to_datetime ns <$> dob).
  set (df1 := set_column "DateOfBirth" dob' df).
  assert (Hl1 : length dob' = len df) by (unfold dob'; by rewrite length_fmap).
  assert (Hwf1 : well_formed df1) by by apply set_column_well_formed.
  assert (Hlen1 : len df1 = len df) by by apply set_column_len.
  assert (Hg1 : get_column "DateOfBirth" df1 = Some dob')
    by by apply get_set_column.
  rewrite Hg1; simpl.
  set (age := cell_of_pynum ∘ age_lambda today <$> dob').
  set (df2 := set_column "Age" age df1).
  assert (Hl2 : length age = len df1)
    by (unfold age; rewrite length_fmap; congruence).
  assert (Hwf2 : well_formed df2) by by apply set_column_well_formed.
  assert (Hlen2 : len df2 = len df1) by by apply set_column_len.
  assert (Hg2 : get_column "Age" df2 = Some age) by by apply get_set_column.
  rewrite Hg2; simpl.
  set (cat := cut age_ranges age_categories <$> age).
  set (df3 := set_column "AgeCategory" cat df2).
  assert (Hl3 : length cat = len df2)
    by (unfold cat; rewrite length_fmap; congruence).
  assert (Hwf3 : well_formed df3) by by apply set_column_well_formed.
  assert (Hlen3 : len df3 = len df2) by by apply set_column_len.
  assert (Hother3 : ∀ name, name ∉ ["DateOfBirth"; "Age"; "AgeCategory"] →
                            get_column name df3 = get_column name df).
  { intros name Hn. unfold df3, df2, df1.
    rewrite !get_set_column_other; try done;
      intros <-; apply Hn; set_solver. }
  assert (Hni : "Income" ∉ ["DateOfBirth"; "Age"; "AgeCategory"]).
  { rewrite !not_elem_of_cons. repeat split; [done..|apply not_elem_of_nil]. }
  rewrite (Hother3 _ Hni), Hinc. simpl.
  set (inc := cut income_ranges income_categories <$> income).
  assert (Hl4 : length inc = len df3)
    by (unfold inc; rewrite length_fmap; congruence).
  eexists. split; [done|].
  split; [by apply set_column_well_formed|].
  split; [rewrite set_column_len by done; congruence|].
  split; [|split; [|split; [|split]]].
  - unfold df3, df2.
    by rewrite !get_set_column_other by done.
  - unfold df3. by rewrite !get_set_column_other by done.
  - rewrite get_set_column_other by done. by apply get_set_column.
  - by apply get_set_column.
  - intros name Hn. rewrite get_set_column_other; [|intros <-|done|done].
    + apply Hother3. intros Hin. apply Hn. set_solver.
    + apply Hn. set_solver.
Qed.

Lemma create_derived_features_columns ns today df dob income :
  well_formed df →
  get_column "DateOfBirth" df = Some dob →
  get_column "Income" df = Some income →
  numeric_column income = true →
  ∃ df', create_derived_features ns today df = Some df'
    ∧ well_formed df' ∧ len df' = len df
    ∧ get_column "DateOfBirth" df' = Some (to_datetime ns <$> dob)
    ∧ get_column "Age" df'
      = Some (cell_of_pynum ∘ age_lambda today <$> (to_datetime ns <$> dob))
    ∧ get_column "AgeCategory" df'
      = Some (cut age_ranges age_categories <$>
                (cell_of_pynum ∘ age_lambda today <$> (to_datetime ns <$> dob)))
    ∧ get_column "IncomeCategory" df'
      = Some (cut income_ranges income_categories <$> income)
    ∧ (∀ name,
         name ∉ ["DateOfBirth"; "Age"; "AgeCategory"; "IncomeCategory"] →
         get_column name df' = get_column name df).
Proof.
  intros Hwf Hdob Hinc Hnum.
  destruct (feature_step_result ns today df dob income Hwf Hdob Hinc)
    as (df' & Hdf' & H).
  rewrite Hnum in Hdf'. by exists df'.
Qed.

Lemma age_lambda_stamp today b :
  cell_of_pynum (age_lambda today (Stamp b)) =
    Num (year today - year b
         - (if decide (month today < month b
                       ∨ (month today = month b ∧ day today < day b))
            then 1 else 0)).
Proof.
  unfold age_lambda, tuple_ltb; simpl. f_equal. f_equal.
  destruct (decide _) as [H|H];
    destruct (month today =? month b) eqn:Hm; simpl;
    destruct (day today =? day b) eqn:Hd; simpl;
    destruct (month today <? month b) eqn:Hml;
    destruct (day today <? day b) eqn:Hdl; simpl; try done; lia.
Qed.

Lemma age_lambda_null today c :
  (∀ b, c ≠ Stamp b) → cell_of_pynum (age_lambda today c) = Null.
Proof. intros H. destruct c; try done. by destruct (H d). Qed.

Lemma to_datetime_cases ns c :
  (∃ b, to_datetime ns c = Stamp b) ∨ to_datetime ns c = Null.
Proof.
  destruct c; simpl; eauto. destruct (strptime_dmy ns s); simpl; eauto.
Qed.

(** *** Reading back a date written as dd/mm/yyyy *)

Ltac digit_cases k :=
  let H := fresh in
  assert (H : k = 0 ∨ k = 1 ∨ k = 2 ∨ k = 3 ∨ k = 4 ∨ k = 5 ∨ k = 6
              ∨ k = 7 ∨ k = 8 ∨ k = 9) by lia;
  destruct H as [->|[->|[->|[->|[->|[->|[->|[->|[->| ->]]]]]]]]].

Lemma digit_of_char k : 0 ≤ k ≤ 9 → digit_of (digit_char k) = Some k.
Proof. intros Hk. digit_cases k; reflexivity. Qed.

Lemma digit_char_not_slash k : 0 ≤ k ≤ 9 → digit_char k ≠ "/"%char.
Proof. intros Hk. digit_cases k; discriminate. Qed.

Lemma split_on_digit k s :
  0 ≤ k ≤ 9 →
  split_on "/" (String (digit_char k) s)
  = match split_on "/" s with
    | p :: ps => String (digit_char k) p :: ps
    | [] => [String (digit_char k) EmptyString]
    end.
Proof.
  intros Hk. cbn [split_on].
  by rewrite decide_False by by apply digit_char_not_slash.
Qed.

Lemma split_on_two_digits n s :
  0 ≤ n ≤ 99 →
  split_on "/" (two_digits n s)
  = match split_on "/" s with
    | p :: ps => two_digits n p :: ps
    | [] => [two_digits n EmptyString]
    end.
Proof.
  intros Hn. unfold two_digits.
  rewrite !split_on_digit by (Z.div_mod_to_equations; lia).
  by destruct (split_on "/" s).
Qed.

Lemma digits_value_two_digits acc n s :
  0 ≤ n ≤ 99 →
  digits_value acc (two_digits n s) = digits_value (100 * acc + n) s.
Proof.
  intros Hn. unfold two_digits. cbn [digits_value].
  rewrite !digit_of_char by (Z.div_mod_to_equations; lia). simpl.
  f_equal. Z.div_mod_to_equations. lia.
Qed.

Lemma number_field_two_digits n :
  0 ≤ n ≤ 99 → number_field 1 2 (two_digits n "") = Some n.
Proof.
  intros Hn. unfold number_field.
  change (String.length (two_digits n "")) with 2%nat. cbn [Nat.leb andb].
  rewrite digits_value_two_digits by done. simpl. f_equal; lia.
Qed.

Lemma day_field_two_digits n :
  0 ≤ n ≤ 99 → day_field (two_digits n "") = Some n.
Proof.
  intros Hn. rewrite <- (number_field_two_digits n Hn).
  unfold day_field, two_digits.
  assert (Hd : 0 ≤ n / 10 ≤ 9) by (Z.div_mod_to_equations; lia).
  digit_cases (n / 10); reflexivity.
Qed.

Lemma number_field_four_digits n :
  0 ≤ n ≤ 9999 →
  number_field 4 4 (two_digits (n / 100) (two_digits (n mod 100) "")) = Some n.
Proof.
  intros Hn. unfold number_field.
  change (String.length (two_digits (n / 100) (two_digits (n mod 100) "")))
    with 4%nat. cbn [Nat.leb andb].
  rewrite !digits_value_two_digits by (Z.div_mod_to_equations; lia).
  simpl. f_equal; Z.div_mod_to_equations; lia.
Qed.

(** The text of a date, written as dd/mm/yyyy, reads back as that
    date, day first, when a timestamp can hold it, and does not parse
    otherwise. *)
Lemma strptime_dmy_text ns (b : date) :
  0 ≤ day b ≤ 99 → 0 ≤ month b ≤ 99 → 0 ≤ year b ≤ 9999 →
  strptime_dmy ns (dmy_text b) = if valid_date ns b then Some b else None.
Proof.
  destruct b as [y m d]. simpl. intros Hd Hm Hy.
  unfold strptime_dmy, dmy_text. cbn [day month year].
  assert (Hy1 : 0 ≤ y / 100 ≤ 99) by (Z.div_mod_to_equations; lia).
  assert (Hy2 : 0 ≤ y mod 100 ≤ 99) by (Z.div_mod_to_equations; lia).
  rewrite (split_on_two_digits d) by done. cbn [split_on].
  rewrite decide_True by done.
  rewrite (split_on_two_digits m) by done. cbn [split_on].
  rewrite decide_True by done.
  rewrite (split_on_two_digits (y / 100)) by done.
  rewrite (split_on_two_digits (y mod 100)) by done. cbn [split_on].
  rewrite day_field_two_digits, number_field_two_digits,
    number_field_four_digits by done.
  reflexivity.
Qed.

Lemma valid_date_fields ns (b : date) :
  valid_date ns b = true →
  1 ≤ day b ≤ 31 ∧ 1 ≤ month b ≤ 12 ∧ 1 ≤ year b ≤ 9999.
Proof.
  unfold valid_date, calendar_date, days_in_month.
  rewrite !andb_true_iff, !Z.leb_le.
  intros [[[[[[Hy1 Hy2] Hm1] Hm2] Hd1] Hd2] _].
  repeat split; try done.
  repeat (match type of Hd2 with
          | context [if ?c then _ else _] => destruct c
          end); lia.
Qed.

Lemma to_datetime_text ns (b : date) :
  valid_date ns b = true → to_datetime ns (Str (dmy_text b)) = Stamp b.
Proof.
  intros Hv. destruct (valid_date_fields ns b Hv) as (Hd & Hm & Hy).
  simpl. rewrite strptime_dmy_text by lia. by rewrite Hv.
Qed.

(** C4: on a well-formed merged table with a date-of-birth column and
    a numeric income column the feature step returns, with one age per
    row.  Where the date of birth parses, the age is the current year
    minus the birth year, minus 1 exactly when (current month, current
    day) comes before (birth month, birth day) in lexicographic order;
    where it does not parse, the age is null; every cell is one or the
    other.  What parses: the text dd/mm/yyyy of a date reads back as
    that date, day first, when it is a calendar day that a timestamp
    can hold, and does not parse when it is not; a null cell, a number
    and the text "Missing" do not parse. *)
Theorem derived_age_is_calendar_age (nanoseconds : bool) (current_date : date)
    (df : DataFrame) (dob income : list cell) :
  well_formed df →
  get_column "DateOfBirth" df = Some dob →
  get_column "Income" df = Some income →
  numeric_column income = true →
  ∃ df' age,
    create_derived_features nanoseconds current_date df = Some df'
    ∧ get_column "Age" df' = Some age
    ∧ length age = length dob
    ∧ (∀ k c, dob !! k = Some c →
         (∀ b, to_datetime nanoseconds c = Stamp b →
            age !! k =
              Some (Num (year current_date - year b
                         - (if decide
                                 (month current_date < month b
                                  ∨ (month current_date = month b
                                     ∧ day current_date < day b))
                            then 1 else 0))))
         ∧ (to_datetime nanoseconds c = Null → age !! k = Some Null)
         ∧ ((∃ b, to_datetime nanoseconds c = Stamp b)
            ∨ to_datetime nanoseconds c = Null))
    ∧ (∀ b, 0 ≤ day b ≤ 99 → 0 ≤ month b ≤ 99 → 0 ≤ year b ≤ 9999 →
         to_datetime nanoseconds (Str (dmy_text b))
         = if valid_date nanoseconds b then Stamp b else Null)
    ∧ (∀ b, valid_date nanoseconds b = true ↔
            (1 ≤ year b ≤ 9999 ∧ 1 ≤ month b ≤ 12
             ∧ 1 ≤ day b ≤ days_in_month (year b) (month b))
            ∧ (nanoseconds = true →
               date_leb (Date 1677 9 22) b = true
               ∧ date_leb b (Date 2262 4 11) = true))
    ∧ to_datetime nanoseconds Null = Null
    ∧ (∀ z, to_datetime nanoseconds (Num z) = Null)
    ∧ to_datetime nanoseconds (Str "Missing") = Null.
Proof.
  intros Hwf Hdob Hinc Hnum.
  destruct (create_derived_features_columns nanoseconds current_date df dob
              income Hwf Hdob Hinc Hnum) as (df' & Hdf' & _ & _ & _ & Hage & _).
  exists df', (cell_of_pynum ∘ age_lambda current_date
               <$> (to_datetime nanoseconds <$> dob)).
  split; [done|]. split; [done|].
  split; [by rewrite !length_fmap|].
  split; [|split; [|split; [|by destruct nanoseconds]]].
  - intros k c Hk.
    rewrite !list_lookup_fmap, Hk; simpl.
    split; [|split].
    + intros b ->. by rewrite age_lambda_stamp.
    + by intros ->.
    + apply to_datetime_cases.
  - intros b Hd Hm Hy. simpl. rewrite strptime_dmy_text by done.
    by destruct (valid_date nanoseconds b).
  - intros b. unfold valid_date, calendar_date.
    rewrite !andb_true_iff, orb_true_iff, negb_true_iff, andb_true_iff,
      !Z.leb_le.
    destruct nanoseconds; split.
    + intros [H1 [H2|[H2 H3]]]; [done|]. split; [tauto|]. by intros _.
    + intros [H1 H2]. destruct H2 as [H2 H3]; [done|].
      split; [tauto|]. by right.
    + intros [H1 _]. split; [tauto|done].
    + intros [H1 _]. split; [tauto|]. by left.
Qed.

Lemma derived_age_is_calendar_age_witness :
  ∃ df' age,
    create_derived_features true today_fixture combined_fixture = Some df'
    ∧ get_column "Age" df' = Some age
    ∧ length age
      = length [Str "15/06/1990"; Str "Missing"; Null; Str "10/03/2007"]
    ∧ (∀ k c,
         [Str "15/06/1990"; Str "Missing"; Null; Str "10/03/2007"] !! k
         = Some c →
         (∀ b, to_datetime true c = Stamp b →
            age !! k =
              Some (Num (year today_fixture - year b
                         - (if decide
                                 (month today_fixture < month b
                                  ∨ (month today_fixture = month b
                                     ∧ day today_fixture < day b))
                            then 1 else 0))))
         ∧ (to_datetime true c = Null → age !! k = Some Null)
         ∧ ((∃ b, to_datetime true c = Stamp b) ∨ to_datetime true c = Null))
    ∧ (∀ b, 0 ≤ day b ≤ 99 → 0 ≤ month b ≤ 99 → 0 ≤ year b ≤ 9999 →
         to_datetime true (Str (dmy_text b))
         = if valid_date true b then Stamp b else Null)
    ∧ (∀ b, valid_date true b = true ↔
            (1 ≤ year b ≤ 9999 ∧ 1 ≤ month b ≤ 12
             ∧ 1 ≤ day b ≤ days_in_month (year b) (month b))
            ∧ (true = true →
               date_leb (Date 1677 9 22) b = true
               ∧ date_leb b (Date 2262 4 11) = true))
    ∧ to_datetime true Null = Null
    ∧ (∀ z, to_datetime true (Num z) = Null)
    ∧ to_datetime true (Str "Missing") = Null.
Proof.
  apply (derived_age_is_calendar_age true today_fixture combined_fixture
           [Str "15/06/1990"; Str "Missing"; Null; Str "10/03/2007"]
           [Num 25000; Num (-1); Null; Num 0]).
  - repeat constructor.
  - reflexivity.
  - reflexivity.
  - reflexivity.
Defined.

(** What the parser takes and what it leaves: the day comes first;
    fields may be written without the leading zero, the day also with
    a blank in its place; 29 February exists in leap years only; where
    timestamps count nanoseconds their range ends the dates that
    parse. *)
Example parsed_dates :
  (∀ ns, to_datetime ns (Str "15/06/1990") = Stamp (Date 1990 6 15))
  ∧ (∀ ns, to_datetime ns (Str "01/02/2003") = Stamp (Date 2003 2 1))
  ∧ (∀ ns, to_datetime ns (Str "5/3/2000") = Stamp (Date 2000 3 5))
  ∧ (∀ ns, to_datetime ns (Str " 5/03/2000") = Stamp (Date 2000 3 5))
  ∧ (∀ ns, to_datetime ns (Str "29/02/2000") = Stamp (Date 2000 2 29))
  ∧ (∀ ns, to_datetime ns (Str "29/02/1900") = Null)
  ∧ (∀ ns, to_datetime ns (Str "31/04/2000") = Null)
  ∧ (∀ ns, to_datetime ns (Str "06/15/1990") = Null)
  ∧ (∀ ns, to_datetime ns (Str "1990-06-15") = Null)
  ∧ (∀ ns, to_datetime ns (Str "15/06/90") = Null)
  ∧ (∀ ns, to_datetime ns (Str "15/06/1990 ") = Null)
  ∧ (∀ ns, to_datetime ns (Str "") = Null)
  ∧ to_datetime true (Str "21/09/1677") = Null
  ∧ to_datetime true (Str "22/09/1677") = Stamp (Date 1677 9 22)
  ∧ to_datetime true (Str "11/04/2262") = Stamp (Date 2262 4 11)
  ∧ to_datetime true (Str "12/04/2262") = Null
  ∧ to_datetime false (Str "21/09/1677") = Stamp (Date 1677 9 21)
  ∧ to_datetime false (Str "12/04/2262") = Stamp (Date 2262 4 12).
Proof. repeat split; try intros []; reflexivity. Qed.

(** The ages the fixture gets on 10 March 2024: 33 (birthday in June
    still ahead), null, null, 17 (born 10 March 2007: the birthday is
    today), and their brackets. *)
Example fixture_ages :
  (df ← create_derived_features true today_fixture combined_fixture;
   age ← get_column "Age" df; cat ← get_column "AgeCategory" df;
   Some (age, cat))
  = Some ([Num 33; Null; Null; Num 17],
          [Str "25-35"; Null; Null; Str "18-24"]).
Proof. vm_compute. reflexivity. Qed.

(** Ages outside [0, 100) get no bracket; ages inside get one of the
    six labels. *)
Lemma age_17_bucket_edges :
  (∀ x, x < 0 ∨ 100 ≤ x → cut age_ranges age_categories (Num x) = Null)
  ∧ (∀ x, 0 ≤ x < 100 → ∃ l, l ∈ age_categories ∧
                              cut age_ranges age_categories (Num x) = Str l).
Proof.
  assert (Hcut : ∀ x, cut age_ranges age_categories (Num x) =
    if decide (x < 0) then Null else if decide (x < 17) then Str "0-17"
    else if decide (x < 24) then Str "18-24"
    else if decide (x < 35) then Str "25-35"
    else if decide (x < 45) then Str "36-45"
    else if decide (x < 60) then Str "46-60"
    else if decide (x < 100) then Str "60+" else Null).
  { intros x. unfold cut, age_ranges, age_categories; simpl.
    repeat case_decide;
      repeat (match goal with
              | |- context [?a <=? ?b] => destruct (Z.leb_spec a b)
              | |- context [?a <? ?b] => destruct (Z.ltb_spec a b)
              end; simpl; try lia); done. }
  split.
  - intros x Hx. rewrite Hcut. repeat case_decide; try done; lia.
  - intros x Hx. rewrite Hcut. unfold age_categories.
    repeat case_decide; try lia; eexists; (split; [|done]);
      rewrite !elem_of_cons; tauto.
Qed.

(** C1 (what the script does): the brackets are left-closed and
    right-open on the edges 0, 17, 24, 35, 45, 60, 100, so age 17 gets
    the label "18-24", not "0-17"; age 18 gets "18-24"; ages outside
    [0, 100), among them 100 and -1, and null ages get no bracket; the
    label "0-17" goes to the ages 0 to 16 only. *)
Theorem age_17_labelled_18_24 :
  cut age_ranges age_categories (Num 17) = Str "18-24"
  ∧ cut age_ranges age_categories (Num 18) = Str "18-24"
  ∧ cut age_ranges age_categories (Num 100) = Null
  ∧ cut age_ranges age_categories (Num (-1)) = Null
  ∧ cut age_ranges age_categories Null = Null
  ∧ (∀ x, x < 0 ∨ 100 ≤ x → cut age_ranges age_categories (Num x) = Null)
  ∧ (∀ x, 0 ≤ x < 100 → ∃ l, l ∈ age_categories ∧
                              cut age_ranges age_categories (Num x) = Str l)
  ∧ (∀ x, cut age_ranges age_categories (Num x) = Str "0-17" ↔ 0 ≤ x < 17)
  ∧ (∀ x, cut age_ranges age_categories (Num x) = Str "18-24" ↔ 17 ≤ x < 24).
Proof.
  assert (Hcut : ∀ x, cut age_ranges age_categories (Num x) =
    if decide (x < 0) then Null else if decide (x < 17) then Str "0-17"
    else if decide (x < 24) then Str "18-24"
    else if decide (x < 35) then Str "25-35"
    else if decide (x < 45) then Str "36-45"
    else if decide (x < 60) then Str "46-60"
    else if decide (x < 100) then Str "60+" else Null).
  { intros x. unfold cut, age_ranges, age_categories; simpl.
    repeat case_decide;
      repeat (match goal with
              | |- context [?a <=? ?b] => destruct (Z.leb_spec a b)
              | |- context [?a <? ?b] => destruct (Z.ltb_spec a b)
              end; simpl; try lia); done. }
  do 5 (split; [reflexivity|]).
  split; [|split; [|split]].
  - intros x Hx. rewrite Hcut. repeat case_decide; try done; lia.
  - intros x Hx. rewrite Hcut. unfold age_categories.
    repeat case_decide; try lia; eexists; (split; [|done]);
      rewrite !elem_of_cons; tauto.
  - intros x. rewrite Hcut. repeat case_decide; split; try done; lia.
  - intros x. rewrite Hcut. repeat case_decide; split; try done; lia.
Qed.

End Features.

Section Sorting.

Lemma insert_desc_Permutation g l : insert_desc g l ≡ₚ g :: l.
Proof.
  induction l as [|h t IH]; simpl; [done|].
  destruct (g.2 <? h.2); [|done].
  rewrite IH. apply Permutation_swap.
Qed.

Lemma insert_desc_HdRel a g l :
  by_sum_desc a g → HdRel by_sum_desc a l →
  HdRel by_sum_desc a (insert_desc g l).
Proof.
  intros Hag Hal. destruct l as [|h t]; simpl; [by constructor|].
  destruct (g.2 <? h.2); constructor; [|done].
  by apply HdRel_inv in Hal.
Qed.

Lemma insert_desc_Sorted g l :
  Sorted by_sum_desc l → Sorted by_sum_desc (insert_desc g l).
Proof.
  induction 1 as [|h t Hs IH Hhd]; simpl.
  - by repeat constructor.
  - destruct (Z.ltb_spec g.2 h.2) as [Hlt|Hge].
    + constructor; [done|].
      apply insert_desc_HdRel; [unfold by_sum_desc; lia|done].
    + constructor; [by constructor|]. constructor. unfold by_sum_desc. lia.
Qed.

Lemma stable_sort_values_contract : sort_contract stable_sort_values.
Proof.
  intros l. unfold stable_sort_values. induction l as [|g l [IHp IHs]]; simpl.
  - split; [done|constructor].
  - split; [by rewrite insert_desc_Permutation, IHp|by apply insert_desc_Sorted].
Qed.

Lemma reversing_sort_values_contract : sort_contract reversing_sort_values.
Proof.
  intros l. unfold reversing_sort_values.
  destruct (stable_sort_values_contract (reverse l)) as [Hp Hs].
  split; [by rewrite Hp, reverse_Permutation|done].
Qed.

Lemma filter_insert_desc v g l :
  filter (λ g : group, g.2 = v) (insert_desc g l)
  = filter (λ g : group, g.2 = v) (g :: l).
Proof.
  induction l as [|h t IH]; simpl; [done|].
  destruct (Z.ltb_spec g.2 h.2) as [Hlt|Hge]; [|done].
  rewrite (filter_cons _ h), IH, !filter_cons.
  destruct (decide (h.2 = v)), (decide (g.2 = v)); try done; lia.
Qed.

(** Insertion sort keeps groups with equal sums in their input order. *)
Lemma stable_sort_values_stable : stable stable_sort_values.
Proof.
  intros l v. unfold stable_sort_values. induction l as [|g l IH]; simpl; [done|].
  by rewrite filter_insert_desc, !filter_cons, IH.
Qed.

(** In a list sorted by non-increasing sum, whatever stands among the
    first [n] rows has a sum no smaller than whatever stands after. *)
Lemma sorted_take_drop n (l : list group) g g' :
  Sorted by_sum_desc l → g ∈ take n l → g' ∈ drop n l → g'.2 ≤ g.2.
Proof.
  intros Hs%Sorted_StronglySorted; [|intros ???; unfold by_sum_desc; lia].
  rewrite <- (take_drop n l) in Hs. intros Hg Hg'.
  by apply (StronglySorted_app_1_elem_of _ _ _ _ _ Hs Hg Hg').
Qed.

End Sorting.

Section Grouping.

Local Abbreviation step :=
  (λ (gs : list group) (kv : list cell * cell),
     if has_null kv.1 then gs else add_to_group kv.1 (indicator kv.2) gs).

Lemma bump_keys k v gs : (bump k v gs).*1 = gs.*1.
Proof.
  induction gs as [|[k' s] gs IH]; csimpl; [done|].
  destruct (decide (k = k')); csimpl; [done|by f_equal].
Qed.

Lemma insert_key_keys k v gs : (insert_key k v gs).*1 ≡ₚ k :: gs.*1.
Proof.
  induction gs as [|[k' s] gs IH]; csimpl; [done|].
  destruct (key_ltb k k'); csimpl; [done|].
  rewrite IH. apply Permutation_swap.
Qed.

Lemma add_to_group_keys k k' v gs :
  k ∈ (add_to_group k' v gs).*1 ↔ k = k' ∨ k ∈ gs.*1.
Proof.
  unfold add_to_group. destruct (decide (k' ∈ gs.*1)) as [Hin|Hnin].
  - rewrite bump_keys. split; [by right|]. by intros [->|?].
  - by rewrite insert_key_keys, elem_of_cons.
Qed.

Lemma add_to_group_NoDup k v gs :
  NoDup gs.*1 → NoDup (add_to_group k v gs).*1.
Proof.
  unfold add_to_group. intros Hnd. destruct (decide (k ∈ gs.*1)) as [Hin|Hnin].
  - by rewrite bump_keys.
  - rewrite insert_key_keys. by apply NoDup_cons.
Qed.

Lemma sum_groups_add k v gs :
  sum_groups (add_to_group k v gs) = sum_groups gs + v.
Proof.
  unfold add_to_group. destruct (decide (k ∈ gs.*1)) as [Hin|_].
  - induction gs as [|[k' s] gs IH]; simpl in *; [by apply elem_of_nil in Hin|].
    destruct (decide (k = k')) as [->|Hne]; simpl; [lia|].
    apply elem_of_cons in Hin as [?|Hin]; [done|]. rewrite IH by done. lia.
  - induction gs as [|[k' s] gs IH]; simpl; [lia|].
    destruct (key_ltb k k'); simpl; lia.
Qed.

Lemma group_sum_add k k' v gs :
  group_sum k (add_to_group k' v gs)
  = group_sum k gs + (if decide (k' = k) then v else 0).
Proof.
  unfold add_to_group. destruct (decide (k' ∈ gs.*1)) as [Hin|_].
  - induction gs as [|[k'' s] gs IH]; simpl in *;
      [by apply elem_of_nil in Hin|].
    destruct (decide (k' = k'')) as [->|Hne]; simpl.
    + destruct (decide (k'' = k)); lia.
    + apply elem_of_cons in Hin as [?|Hin]; [done|]. rewrite IH by done.
      destruct (decide (k' = k)), (decide (k'' = k)); lia.
  - induction gs as [|[k'' s] gs IH]; simpl.
    + destruct (decide (k' = k)); lia.
    + destruct (key_ltb k' k''); simpl; [|rewrite IH];
        destruct (decide (k' = k)), (decide (k'' = k)); lia.
Qed.

Lemma group_sum_absent k gs : k ∉ gs.*1 → group_sum k gs = 0.
Proof.
  induction gs as [|[k' s] gs IH]; simpl; [done|].
  intros [Hne Hnin]%not_elem_of_cons.
  rewrite decide_False by done. rewrite IH by done. lia.
Qed.

Lemma group_sum_elem k s gs :
  NoDup gs.*1 → (k, s) ∈ gs → group_sum k gs = s.
Proof.
  induction gs as [|[k' s'] gs IH]; simpl; [by intros _ ?%elem_of_nil|].
  intros [Hk' Hnd]%NoDup_cons [[= -> ->]|Hin]%elem_of_cons.
  - rewrite decide_True by done. rewrite group_sum_absent by done. lia.
  - rewrite decide_False.
    + rewrite IH by done. lia.
    + intros ->. apply Hk'. apply list_elem_of_fmap. by exists (k, s).
Qed.

(** The fold over the rows, seen from one key: the group's sum grows by
    the indicators of the rows that carry the key. *)
Lemma foldl_group_sum k kvs init :
  has_null k = false →
  group_sum k (foldl step init kvs)
  = group_sum k init
    + foldr (λ kv acc, (if decide (kv.1 = k) then indicator kv.2 else 0) + acc)
            0 kvs.
Proof.
  intros Hk. revert init. induction kvs as [|[k' c] kvs IH]; intros init; simpl.
  - lia.
  - rewrite IH. destruct (has_null k') eqn:Hn; simpl.
    + rewrite decide_False by congruence. lia.
    + rewrite group_sum_add. lia.
Qed.

Lemma foldl_groups_NoDup kvs init :
  NoDup init.*1 → NoDup (foldl step init kvs).*1.
Proof.
  revert init. induction kvs as [|[k c] kvs IH]; intros init Hnd; simpl; [done|].
  apply IH. destruct (has_null k); simpl; [done|by apply add_to_group_NoDup].
Qed.

Lemma foldl_groups_keys k kvs init :
  k ∈ (foldl step init kvs).*1 ↔
  k ∈ init.*1 ∨ (has_null k = false ∧ k ∈ kvs.*1).
Proof.
  revert init. induction kvs as [|[k' c] kvs IH]; intros init; simpl.
  - rewrite elem_of_nil. tauto.
  - rewrite IH, elem_of_cons. destruct (has_null k') eqn:Hn; simpl.
    + split; [tauto|]. intros [?|[? [->|?]]]; [tauto|congruence|tauto].
    + rewrite add_to_group_keys.
      split; [intros [[->|?]|[? ?]]; tauto|].
      intros [?|[? [->|?]]]; tauto.
Qed.

(** The fold over the rows, seen from the total: every row with a full
    key adds its indicator; a row with a null in its key adds nothing. *)
Lemma foldl_groups_total kvs init :
  sum_groups (foldl step init kvs)
  + foldr (λ kv acc, (if has_null kv.1 then indicator kv.2 else 0) + acc) 0 kvs
  = sum_groups init + foldr (λ kv acc, indicator kv.2 + acc) 0 kvs.
Proof.
  revert init. induction kvs as [|[k c] kvs IH]; intros init; simpl; [lia|].
  specialize (IH (if has_null k then init
                  else add_to_group k (indicator c) init)).
  destruct (has_null k); simpl in *; [lia|].
  rewrite sum_groups_add in IH. lia.
Qed.

Lemma zip_column_sum (keys : list (list cell)) (vals : list cell) :
  length keys = length vals →
  foldr (λ kv acc, indicator kv.2 + acc) 0 (zip keys vals) = column_sum vals.
Proof.
  revert vals. induction keys as [|k keys IH]; intros [|v vals] Hlen;
    simplify_eq/=; [done|]. by rewrite IH.
Qed.

Lemma fresh_sum_groups init : fresh_groups init → sum_groups init = 0.
Proof.
  intros [_ H]. induction init as [|[k s] init IH]; simpl; [done|].
  destruct (H k s) as [-> _]; [left|]. rewrite IH; [done|].
  intros k' s' Hin. apply H. by right.
Qed.

Lemma fresh_group_sum k init : fresh_groups init → group_sum k init = 0.
Proof.
  intros [_ H]. induction init as [|[k' s] init IH]; simpl; [done|].
  destruct (H k' s) as [-> _]; [left|]. rewrite IH.
  - by destruct (decide (k' = k)).
  - intros k'' s' Hin. apply H. by right.
Qed.

Lemma fresh_nil : fresh_groups [].
Proof. split; [constructor|]. by intros k s ?%elem_of_nil. Qed.

Lemma fresh_age_groups observed : fresh_groups (age_groups observed).
Proof.
  destruct observed; [apply fresh_nil|]. split.
  - apply (bool_decide_unpack (NoDup (age_groups false).*1)). by vm_compute.
  - intros k s Hin. unfold age_groups, age_categories in Hin; simpl in Hin.
    repeat (apply elem_of_cons in Hin as [[= -> ->]|Hin]; [done|]).
    by apply elem_of_nil in Hin.
Qed.

Lemma groupby_sum_fresh init keys vals :
  fresh_groups init →
  NoDup (groupby_sum init keys vals).*1
  ∧ ∀ k s, (k, s) ∈ groupby_sum init keys vals →
           has_null k = false ∧ s = key_total k keys vals.
Proof.
  intros Hinit. pose proof Hinit as [Hnd Hzero]. unfold groupby_sum.
  assert (Hnd' := foldl_groups_NoDup (zip keys vals) init Hnd).
  split; [done|]. intros k s Hin.
  assert (Hk : has_null k = false).
  { assert (Hkey : k ∈ (foldl step init (zip keys vals)).*1).
    { apply list_elem_of_fmap. by exists (k, s). }
    apply foldl_groups_keys in Hkey as [Hkey|[? _]]; [|done].
    apply list_elem_of_fmap in Hkey as ([k' s'] & -> & Hkey).
    by apply Hzero in Hkey as [_ ?]. }
  split; [done|].
  rewrite <- (group_sum_elem k s _ Hnd' Hin).
  rewrite foldl_group_sum by done. rewrite fresh_group_sum by done.
  unfold key_total. lia.
Qed.

Lemma groupby_sum_total init keys vals :
  fresh_groups init → length keys = length vals →
  sum_groups (groupby_sum init keys vals) + excluded_sum keys vals
  = column_sum vals.
Proof.
  intros Hinit Hlen. unfold groupby_sum, excluded_sum.
  rewrite foldl_groups_total, zip_column_sum by done.
  rewrite fresh_sum_groups by done. lia.
Qed.

Lemma groupby_sum_row init keys vals i k :
  length keys = length vals → keys !! i = Some k → has_null k = false →
  k ∈ (groupby_sum init keys vals).*1.
Proof.
  intros Hlen Hi Hk. unfold groupby_sum. apply foldl_groups_keys. right.
  split; [done|]. rewrite fst_zip by lia. by eapply list_elem_of_lookup_2.
Qed.

Lemma groupby_sum_observed keys vals k :
  k ∈ (groupby_sum [] keys vals).*1 → has_null k = false ∧ k ∈ keys.
Proof.
  unfold groupby_sum. intros [?%elem_of_nil|[Hk Hin]]%foldl_groups_keys; [done|].
  split; [done|].
  apply list_elem_of_fmap in Hin as ([k' v] & -> & Hin).
  by apply elem_of_zip_l in Hin.
Qed.

Lemma levels_spec col :
  NoDup (levels col) ∧ ∀ g, g ∈ levels col → g ≠ Null.
Proof.
  unfold levels.
  set (gs := groupby_sum [] ((λ c, [c]) <$> col) ((λ _, Num 0) <$> col)).
  assert (Hkeys : ∀ g : group, g ∈ gs → ∃ c, g.1 = [c] ∧ c ≠ Null).
  { intros [k s] Hin.
    assert (Hk : k ∈ gs.*1) by (apply list_elem_of_fmap; by exists (k, s)).
    apply groupby_sum_observed in Hk as [Hn Hk].
    apply list_elem_of_fmap in Hk as (c & -> & _).
    exists c. split; [done|]. intros ->. done. }
  assert (Hnd : NoDup gs.*1).
  { apply (groupby_sum_fresh [] _ _ fresh_nil). }
  split.
  - apply NoDup_fmap_2_strong.
    + intros g1 g2 H1 H2 Heq.
      destruct (Hkeys _ H1) as (c1 & Hc1 & _), (Hkeys _ H2) as (c2 & Hc2 & _).
      rewrite Hc1, Hc2 in Heq. simpl in Heq. subst c2.
      assert (Hfst : g1.1 = g2.1) by congruence.
      destruct g1 as [k1 s1], g2 as [k2 s2]; simpl in *. subst k2.
      f_equal; [congruence|].
      rewrite <- (group_sum_elem _ _ _ Hnd H1).
      rewrite <- (group_sum_elem _ _ _ Hnd H2). congruence.
    + by eapply NoDup_fmap_1.
  - intros g (grp & -> & Hin)%list_elem_of_fmap.
    destruct (Hkeys _ Hin) as (c & -> & Hc). done.
Qed.

Lemma profile_keys_NoDup (labels : list string) (gs : list cell) :
  NoDup labels → NoDup gs →
  NoDup (l ← labels; g ← gs; [([Str l; g], 0) : group]).*1.
Proof.
  intros Hl Hg. induction Hl as [|l labels Hnin Hl IH]; [constructor|].
  rewrite bind_cons, fmap_app. apply NoDup_app. split; [|split; [|done]].
  - clear IH. induction Hg as [|g gs Hgn Hg IHg]; [constructor|].
    rewrite bind_cons. csimpl. apply NoDup_cons. split; [|done].
    intros (grp & Heq & Hin)%list_elem_of_fmap.
    apply list_elem_of_bind in Hin as (g' & Hin & Hg').
    apply list_elem_of_singleton in Hin as ->. simpl in Heq.
    injection Heq as ->. done.
  - intros k (grp & -> & Hin)%list_elem_of_fmap
           (grp' & Heq & Hin')%list_elem_of_fmap.
    apply list_elem_of_bind in Hin as (g & Hin & _).
    apply list_elem_of_singleton in Hin as ->.
    apply list_elem_of_bind in Hin' as (l' & Hin' & Hl').
    apply list_elem_of_bind in Hin' as (g' & Hin' & _).
    apply list_elem_of_singleton in Hin' as ->. simpl in Heq.
    injection Heq as -> _. done.
Qed.

Lemma fresh_profile_groups observed gender :
  fresh_groups (profile_groups observed gender).
Proof.
  destruct observed; [apply fresh_nil|]. unfold profile_groups.
  destruct (levels_spec gender) as [Hnd Hnn]. split.
  - apply profile_keys_NoDup; [|done].
    apply (bool_decide_unpack (NoDup age_categories)). by vm_compute.
  - intros k s (l & Hin & _)%list_elem_of_bind.
    apply list_elem_of_bind in Hin as (g & Hin & Hg).
    apply list_elem_of_singleton in Hin as [= -> ->].
    split; [done|]. specialize (Hnn g Hg). by destruct g.
Qed.

(** Taking the rows with a null in the key out of the table beforehand
    changes nothing in the grouped result. *)
Lemma groupby_sum_full_keys init keys vals :
  groupby_sum init keys vals
  = groupby_sum init (full_key_rows keys vals).*1 (full_key_rows keys vals).*2.
Proof.
  unfold groupby_sum, full_key_rows. rewrite zip_fst_snd.
  generalize (zip keys vals). intros kvs. revert init.
  induction kvs as [|[k c] kvs IH]; intros init; [done|].
  rewrite filter_cons. simpl. destruct (has_null k) eqn:Hk; simpl.
  - apply IH.
  - rewrite Hk. apply IH.
Qed.

(** *** Sums in 64 bits *)

Lemma foldr_abs_nonneg (vals : list cell) :
  0 ≤ foldr (λ c acc, Z.abs (indicator c) + acc) 0 vals.
Proof. induction vals as [|v vals IH]; simpl; lia. Qed.

Lemma wrap64_id z : - 2 ^ 63 ≤ z < 2 ^ 63 → wrap64 z = z.
Proof.
  unfold wrap64. change (2 ^ 63) with 9223372036854775808.
  change (2 ^ 64) with 18446744073709551616.
  intros Hz. rewrite Z.mod_small; lia.
Qed.

Lemma int64_sums_keys gs : (int64_sums gs).*1 = gs.*1.
Proof.
  unfold int64_sums. rewrite <- list_fmap_compose. by apply list_fmap_ext.
Qed.

Lemma key_total_bound k (keys : list (list cell)) (vals : list cell) :
  Z.abs (key_total k keys vals) ≤ abs_sum vals.
Proof.
  unfold key_total, abs_sum. revert vals.
  induction keys as [|k' keys IH]; intros [|v vals]; simpl; try lia.
  - pose proof (foldr_abs_nonneg vals). lia.
  - specialize (IH vals). destruct (decide (k' = k)); lia.
Qed.

(** While the indicators add up to at most 2^53 in absolute value, no
    sum leaves the 64 bits (nor what binary64 holds exactly). *)
Lemma int64_sums_small init keys vals :
  fresh_groups init → abs_sum vals ≤ 2 ^ 53 →
  int64_sums (groupby_sum init keys vals) = groupby_sum init keys vals.
Proof.
  intros Hinit Hsmall. unfold int64_sums.
  destruct (groupby_sum_fresh init keys vals Hinit) as [_ Hsum].
  rewrite <- (list_fmap_id (groupby_sum init keys vals)) at 2.
  apply Forall_fmap_ext, Forall_forall. intros [k s0] Hin. simpl.
  destruct (Hsum k s0 Hin) as [_ ->].
  pose proof (key_total_bound k keys vals) as Hb.
  rewrite wrap64_id; [done|].
  change (2 ^ 53) with 9007199254740992 in Hsmall.
  change (2 ^ 63) with 9223372036854775808. lia.
Qed.

End Grouping.

Section Analysis.

Lemma analyze_fraud_patterns_inv observed sort_values df r :
  analyze_fraud_patterns observed sort_values df = Some r →
  ∃ age_cat gender mule groups,
    get_column "AgeCategory" df = Some age_cat
    ∧ get_column "Gender" df = Some gender
    ∧ get_column "MuleAccount" df = Some mule
    ∧ length age_cat = len df ∧ length gender = len df
    ∧ length mule = len df
    ∧ numeric_column mule = true
    ∧ groups = int64_sums
                 (groupby_sum (profile_groups observed gender)
                              (zip_with (λ a g, [a; g]) age_cat gender) mule)
    ∧ combination_sums observed df = Some groups
    ∧ r = Analysis
            (int64_sums
               (groupby_sum (age_groups observed) ((λ c, [c]) <$> age_cat)
                            mule))
            (int64_sums (groupby_sum [] ((λ c, [c]) <$> gender) mule))
            (sort_values groups)
            (take 5 (sort_values groups)).
Proof.
  unfold analyze_fraud_patterns, combination_sums.
  destruct (get_column "AgeCategory" df) as [age_cat|] eqn:Ha; [|done].
  destruct (get_column "MuleAccount" df) as [mule|] eqn:Hm; [|done].
  destruct (get_column "Gender" df) as [gender|] eqn:Hg; [|done].
  simpl. destruct (numeric_column mule) eqn:Hnum; [|done].
  simpl. intros [= <-]. exists age_cat, gender, mule. eexists.
  repeat split; eauto using get_column_length.
Qed.

Lemma int64_sums_no_null init keys vals k s :
  fresh_groups init → (k, s) ∈ int64_sums (groupby_sum init keys vals) →
  has_null k = false.
Proof.
  intros Hinit Hin.
  assert (Hk : k ∈ (groupby_sum init keys vals).*1).
  { rewrite <- int64_sums_keys. apply list_elem_of_fmap. by exists (k, s). }
  apply list_elem_of_fmap in Hk as ([k' s'] & -> & Hk).
  by apply (groupby_sum_fresh _ _ _ Hinit) in Hk as [? _].
Qed.

(** C2 (what the script guarantees): the combination analysis takes the
    age-category, gender and indicator columns; it has one group per
    pair of non-null age category and gender, no pair twice, and every
    row with a full pair is in a group; while the indicators add up to
    at most 2^53 in absolute value, each group holds the sum of the
    indicator over the rows of its pair; the sorted result holds the
    same groups in non-increasing order of the sum; the report is its
    first five rows, none of which has a smaller sum than a row left
    out.  The order among equal sums is whatever the sorting routine
    leaves. *)
Theorem top_five_by_descending_sum (observed : bool)
    (sort_values : list group → list group) (df : DataFrame) (r : analysis) :
  sort_contract sort_values →
  analyze_fraud_patterns observed sort_values df = Some r →
  ∃ age_cat gender mule groups,
    get_column "AgeCategory" df = Some age_cat
    ∧ get_column "Gender" df = Some gender
    ∧ get_column "MuleAccount" df = Some mule
    ∧ combination_sums observed df = Some groups
    ∧ NoDup groups.*1
    ∧ (∀ k s, (k, s) ∈ groups → has_null k = false)
    ∧ (abs_sum mule ≤ 2 ^ 53 →
       ∀ k s, (k, s) ∈ groups →
         s = key_total k (zip_with (λ a g, [a; g]) age_cat gender) mule)
    ∧ (∀ i a g, age_cat !! i = Some a → gender !! i = Some g →
         a ≠ Null → g ≠ Null → [a; g] ∈ groups.*1)
    ∧ fraud_analysis r ≡ₚ groups
    ∧ Sorted by_sum_desc (fraud_analysis r)
    ∧ printed_head r = take 5 (fraud_analysis r)
    ∧ (∀ g g', g ∈ printed_head r → g' ∈ drop 5 (fraud_analysis r) →
         g'.2 ≤ g.2).
Proof.
  intros Hsort Hr.
  apply analyze_fraud_patterns_inv in Hr
    as (age_cat & gender & mule & groups & Ha & Hg & Hm & Hla & Hlg & Hlm
        & Hnum & Hgroups & Hcomb & ->).
  exists age_cat, gender, mule, groups.
  destruct (Hsort groups) as [Hperm Hsorted].
  pose proof (fresh_profile_groups observed gender) as Hfresh.
  destruct (groupby_sum_fresh _ (zip_with (λ a g, [a; g]) age_cat gender) mule
              Hfresh) as [Hnd Hsum].
  split; [done|]. split; [done|]. split; [done|]. split; [done|].
  split; [by rewrite Hgroups, int64_sums_keys|].
  split; [|split; [|split; [|split; [done|split; [done|split; [done|]]]]]].
  - intros k s Hin. rewrite Hgroups in Hin.
    by eapply int64_sums_no_null.
  - intros Hsmall k s Hin.
    rewrite Hgroups, int64_sums_small in Hin by done. by eapply Hsum.
  - intros i a g Hia Hig Hna Hng. rewrite Hgroups, int64_sums_keys.
    apply (groupby_sum_row _ _ _ i).
    + rewrite length_zip_with. lia.
    + by rewrite lookup_zip_with, Hia, Hig.
    + by destruct a, g.
  - simpl. intros g g'. by apply sorted_take_drop.
Qed.

Lemma top_five_by_descending_sum_witness :
  ∃ age_cat gender mule groups,
    get_column "AgeCategory" derived_fixture = Some age_cat
    ∧ get_column "Gender" derived_fixture = Some gender
    ∧ get_column "MuleAccount" derived_fixture = Some mule
    ∧ combination_sums true derived_fixture = Some groups
    ∧ NoDup groups.*1
    ∧ (∀ k s, (k, s) ∈ groups → has_null k = false)
    ∧ (abs_sum mule ≤ 2 ^ 53 →
       ∀ k s, (k, s) ∈ groups →
         s = key_total k (zip_with (λ a g, [a; g]) age_cat gender) mule)
    ∧ (∀ i a g, age_cat !! i = Some a → gender !! i = Some g →
         a ≠ Null → g ≠ Null → [a; g] ∈ groups.*1)
    ∧ fraud_analysis derived_fixture_analysis ≡ₚ groups
    ∧ Sorted by_sum_desc (fraud_analysis derived_fixture_analysis)
    ∧ printed_head derived_fixture_analysis
      = take 5 (fraud_analysis derived_fixture_analysis)
    ∧ (∀ g g', g ∈ printed_head derived_fixture_analysis →
         g' ∈ drop 5 (fraud_analysis derived_fixture_analysis) →
         g'.2 ≤ g.2).
Proof.
  apply (top_five_by_descending_sum true stable_sort_values derived_fixture).
  - apply stable_sort_values_contract.
  - reflexivity.
Defined.

(** C2 as stated fails: the analysis does not fix the order of groups
    with equal sums.  With a sorting routine that meets the library's
    contract and returns equal sums in reverse order, the eighteen tied
    groups of the fixture do not come out in the order they went in. *)
Lemma tied_groups_not_kept_in_order :
  ¬ (∀ sort_values, sort_contract sort_values →
       ∀ observed r groups,
         analyze_fraud_patterns observed sort_values ties_fixture = Some r →
         combination_sums observed ties_fixture = Some groups →
         ∀ v, filter (λ g : group, g.2 = v) (fraud_analysis r)
              = filter (λ g : group, g.2 = v) groups).
Proof.
  intros H.
  specialize (H reversing_sort_values reversing_sort_values_contract true
                _ _ eq_refl eq_refl 0).
  vm_compute in H. discriminate H.
Qed.

(** C10: in each of the three grouped results no group has a null in
    its key, and the result is what the rows with a full key give on
    their own: the rows with a null in the key (a null age category, a
    null gender, or either) are left out.  While the indicators add up
    to at most 2^53 in absolute value, the sums of the groups plus the
    indicator of the rows left out make up the indicator summed over
    the whole table.  An age category is null exactly when the age is
    null or outside [0, 100).  So the
    grouped sums can fall short of the whole: on the fixture the three
    results total 3, 3 and 3 against 4 flagged accounts. *)
Theorem null_keys_left_out_of_sums :
  (∀ observed sort_values df r,
     sort_contract sort_values →
     analyze_fraud_patterns observed sort_values df = Some r →
     ∃ age_cat gender mule,
       get_column "AgeCategory" df = Some age_cat
       ∧ get_column "Gender" df = Some gender
       ∧ get_column "MuleAccount" df = Some mule
       ∧ (∀ k s, (k, s) ∈ age_cat_results r ∨ (k, s) ∈ gender_breakdown r
                 ∨ (k, s) ∈ fraud_analysis r → has_null k = false)
       ∧ (let by_age := full_key_rows ((λ c, [c]) <$> age_cat) mule in
          let by_gender := full_key_rows ((λ c, [c]) <$> gender) mule in
          let by_both :=
            full_key_rows (zip_with (λ a g, [a; g]) age_cat gender) mule in
          age_cat_results r
          = int64_sums (groupby_sum (age_groups observed)
                                    by_age.*1 by_age.*2)
          ∧ gender_breakdown r
            = int64_sums (groupby_sum [] by_gender.*1 by_gender.*2)
          ∧ fraud_analysis r
            ≡ₚ int64_sums (groupby_sum (profile_groups observed gender)
                                       by_both.*1 by_both.*2))
       ∧ (abs_sum mule ≤ 2 ^ 53 →
          sum_groups (age_cat_results r)
          + excluded_sum ((λ c, [c]) <$> age_cat) mule = column_sum mule
          ∧ sum_groups (gender_breakdown r)
            + excluded_sum ((λ c, [c]) <$> gender) mule = column_sum mule
          ∧ sum_groups (fraud_analysis r)
            + excluded_sum (zip_with (λ a g, [a; g]) age_cat gender) mule
            = column_sum mule))
  ∧ (∀ c, cut age_ranges age_categories c = Null ↔
          ∀ x, c = Num x → x < 0 ∨ 100 ≤ x)
  ∧ (∃ df r mule,
       analyze_fraud_patterns true stable_sort_values df = Some r
       ∧ get_column "MuleAccount" df = Some mule
       ∧ abs_sum mule ≤ 2 ^ 53
       ∧ sum_groups (age_cat_results r) < column_sum mule
       ∧ sum_groups (gender_breakdown r) < column_sum mule
       ∧ sum_groups (fraud_analysis r) < column_sum mule).
Proof.
  split; [|split].
  - intros observed sort_values df r Hsort Hr.
    apply analyze_fraud_patterns_inv in Hr
      as (age_cat & gender & mule & groups & Ha & Hg & Hm & Hla & Hlg & Hlm
          & Hnum & Hgroups & Hcomb & ->).
    exists age_cat, gender, mule. simpl.
    destruct (Hsort groups) as [Hperm _].
    split; [done|]. split; [done|]. split; [done|]. split; [|split].
    + intros k s [Hin|[Hin|Hin]].
      * by eapply (int64_sums_no_null _ _ _ _ _ (fresh_age_groups observed)).
      * by eapply (int64_sums_no_null _ _ _ _ _ fresh_nil).
      * rewrite Hperm, Hgroups in Hin.
        by eapply (int64_sums_no_null _ _ _ _ _
                     (fresh_profile_groups observed gender)).
    + cbv zeta. rewrite <- !groupby_sum_full_keys.
      split; [done|]. split; [done|]. by rewrite Hperm, Hgroups.
    + intros Hsmall.
      rewrite !int64_sums_small by (done || apply fresh_age_groups
                                    || apply fresh_nil).
      split; [|split].
      * apply groupby_sum_total; [apply fresh_age_groups|].
        rewrite length_fmap. lia.
      * apply groupby_sum_total; [apply fresh_nil|].
        rewrite length_fmap. lia.
      * assert (Hsg : sum_groups (sort_values groups) = sum_groups groups).
        { unfold sum_groups. apply foldr_permutation_proper; try apply _; [|done].
          intros ???. lia. }
        rewrite Hsg, Hgroups.
        rewrite int64_sums_small
          by (done || apply fresh_profile_groups).
        apply groupby_sum_total; [apply fresh_profile_groups|].
        rewrite length_zip_with. lia.
  - intros c. destruct c as [|x| |]; simpl; try (split; [by intros|done]).
    pose proof age_17_bucket_edges as Hb.
    split.
    + intros Hnull y [= <-].
      destruct (decide (x < 0 ∨ 100 ≤ x)) as [|Hin]; [done|].
      destruct (proj2 Hb x) as (l & _ & Hl); [lia|].
      simpl in Hl. congruence.
    + intros Hout. apply (proj1 Hb). by apply Hout.
  - exists derived_fixture, derived_fixture_analysis.
    eexists. split; [reflexivity|]. split; [reflexivity|]. by vm_compute.
Qed.

End Analysis.

Section Pipeline.

Lemma fillna_dict_well_formed d df :
  well_formed df → well_formed (fillna_dict d df).
Proof.
  unfold well_formed, fillna_dict; simpl. intros Hwf.
  apply Forall_fmap. eapply Forall_impl; [exact Hwf|].
  intros r Hr. simpl. by rewrite length_imap.
Qed.

(** A fill by a map leaves alone the columns the map does not name. *)
Lemma fillna_dict_unnamed_column (d : gmap string cell) df k c :
  columns df !! k = Some c → d !! c = None →
  column_at k (fillna_dict d df) = column_at k df.
Proof.
  intros Hc Hd. unfold column_at, fillna_dict; simpl.
  rewrite <- list_fmap_compose. apply list_fmap_ext. intros _ r _. simpl.
  unfold cell_at. rewrite list_lookup_imap.
  destruct (r !! k) as [x|]; simpl; [|done].
  destruct x; try done. by rewrite Hc; simpl; rewrite Hd.
Qed.

Lemma fillna_column v df k :
  well_formed df → (k < length (columns df))%nat →
  column_at k (fillna v df) = filled v <$> column_at k df.
Proof.
  intros Hwf Hk. unfold column_at, fillna; simpl.
  rewrite <- !list_fmap_compose. apply Forall_fmap_ext.
  eapply Forall_impl; [exact Hwf|]. intros r Hr. simpl.
  unfold cell_at. rewrite list_lookup_fmap.
  destruct (lookup_lt_is_Some_2 r k) as [x ->]; [by rewrite Hr|].
  by destruct x.
Qed.

Lemma drop_duplicates_column k df x :
  x ∈ column_at k (drop_duplicates df) ↔ x ∈ column_at k df.
Proof.
  unfold column_at. rewrite !list_elem_of_fmap.
  split; intros (r & -> & Hr); exists r; (split; [done|]).
  - by apply drop_duplicates_rows_same.
  - by apply drop_duplicates_rows_same in Hr.
Qed.

End Pipeline.

(** * Further properties of the stages *)

Section AuditMore.

Local Abbreviation keep_first seen rs :=
  (boolean_index (negb <$> duplicated_from seen rs) rs).

Lemma duplicated_from_length seen (rs : list (list cell)) :
  length (duplicated_from seen rs) = length rs.
Proof.
  revert seen. induction rs as [|r rs IH]; intros seen; simpl; [done|].
  by rewrite IH.
Qed.

Lemma boolean_index_complement {A} (mask : list bool) (l : list A) :
  length mask = length l →
  (length (boolean_index mask l) + length (boolean_index (negb <$> mask) l)
   = length l)%nat.
Proof.
  revert l. induction mask as [|b mask IH]; intros [|x l] Hlen;
    simplify_eq/=; [done|].
  specialize (IH l Hlen). destruct b; simpl; lia.
Qed.

Lemma keep_first_full_length seen (rs : list (list cell)) :
  length (keep_first seen rs) = length rs → keep_first seen rs = rs.
Proof.
  revert seen. induction rs as [|r rs IH]; intros seen; [done|].
  rewrite keep_first_cons. destruct (decide (r ∈ seen)).
  - intros Hlen. pose proof (sublist_length _ _ (keep_first_sublist (r :: seen) rs)).
    simpl in Hlen. lia.
  - simpl. intros [= Hlen]. f_equal. by apply IH.
Qed.

Lemma audit_duplicates_count (df : DataFrame) :
  (duplicate_count df + len (drop_duplicates df) = len df)%nat.
Proof.
  unfold duplicate_count, drop_duplicates, len, duplicated; simpl.
  apply boolean_index_complement, duplicated_from_length.
Qed.

(** X1: the duplicate count the audit prints for a table is exactly the
    number of rows that [drop_duplicates] takes out of it, and it is 0
    exactly when no two rows of the table are equal. *)
Theorem audit_duplicates_are_the_dropped_rows (df : DataFrame) :
  (duplicate_count df + len (drop_duplicates df) = len df)%nat
  ∧ (duplicate_count df = 0%nat ↔ NoDup (rows df))
  ∧ (duplicate_count df = 0%nat ↔ drop_duplicates df = df).
Proof.
  pose proof (audit_duplicates_count df) as Hsum.
  assert (Hfix : duplicate_count df = 0%nat → drop_duplicates df = df).
  { intros H0. destruct df as [cols rs].
    unfold drop_duplicates, duplicated, len in *; simpl in *. f_equal.
    apply keep_first_full_length. lia. }
  split; [exact Hsum|]. split; split.
  - intros H0. rewrite <- (Hfix H0).
    unfold drop_duplicates, duplicated; simpl. apply keep_first_NoDup.
  - intros Hnd.
    assert (Hid : drop_duplicates df = df).
    { destruct df as [cols rs]. unfold drop_duplicates, duplicated; simpl.
      f_equal. apply keep_first_id; [done|]. intros x _. apply not_elem_of_nil. }
    rewrite Hid in Hsum. lia.
  - exact Hfix.
  - intros Hid. rewrite Hid in Hsum. lia.
Qed.

Lemma multiplicity_list_to_set_disj (x : cell) (l : list cell) :
  multiplicity x (list_to_set_disj l : gmultiset cell)
  = length (filter (λ c, c = x) l).
Proof.
  induction l as [|c l IH]; [done|].
  rewrite list_to_set_disj_cons, multiplicity_disj_union, IH, filter_cons.
  destruct (decide (c = x)) as [->|Hne].
  - by rewrite multiplicity_singleton_eq.
  - by rewrite multiplicity_singleton_ne.
Qed.

Lemma size_list_to_set_disj_cells (l : list cell) :
  size (list_to_set_disj l : gmultiset cell) = length l.
Proof.
  induction l as [|c l IH]; [done|].
  rewrite list_to_set_disj_cons, gmultiset_size_disj_union,
    gmultiset_size_singleton, IH. done.
Qed.

Lemma audit_loop_entries df cols stats out :
  audit_loop df cols stats = Some out →
  dom out = dom stats ∪ list_to_set cols.*2
  ∧ ∀ c st, out !! c = Some st →
      stats !! c = Some st ∨
      ∃ i, (i, c) ∈ cols
           ∧ value_counts st = list_to_set_disj (column_at i df).
Proof.
  revert stats. induction cols as [|[i c'] cols IH]; intros stats; simpl.
  - intros [= ->]. split; [set_solver|]. intros c st ?. by left.
  - destruct (missing_pct _ _) as [p|]; simpl; [|done].
    intros Hloop. destruct (IH _ Hloop) as [Hdom Hent]. split.
    + rewrite Hdom, dom_insert_L. set_solver.
    + intros c st Hout. destruct (Hent c st Hout) as [Hin|(j & Hj & Hv)].
      * destruct (decide (c' = c)) as [->|Hne].
        -- rewrite lookup_insert_eq in Hin. injection Hin as <-.
           right. exists i. split; [left|done].
        -- rewrite lookup_insert_ne in Hin by done. by left.
      * right. exists j. split; [by right|done].
Qed.

(** X2: the audit's dictionary has one entry per column label of the
    table, no other; the value counts of an entry are the cells of a
    column with that label, nulls included, each value counted as often
    as it occurs: the counts add up to the row count, and the count of
    the null is the number of missing cells. *)
Theorem audit_value_counts (df : DataFrame) :
  ∃ stats, audit_data df = Some stats
    ∧ dom stats = list_to_set (columns df)
    ∧ ∀ c st, stats !! c = Some st →
        ∃ i, columns df !! i = Some c
          ∧ (∀ x, multiplicity x (value_counts st)
                  = length (filter (λ y, y = x) (column_at i df)))
          ∧ size (value_counts st) = len df
          ∧ multiplicity Null (value_counts st)
            = missing_count (column_at i df).
Proof.
  destruct (audit_loop_total df (imap pair (columns df)) ∅) as [stats Hs].
  exists stats. split; [exact Hs|].
  destruct (audit_loop_entries _ _ _ _ Hs) as [Hdom Hent]. split.
  - rewrite Hdom, dom_empty_L, (left_id_L ∅ (∪)). f_equal.
    rewrite fmap_imap, (imap_ext _ (const id)) by done.
    by rewrite imap_const, list_fmap_id.
  - intros c st Hst. destruct (Hent c st Hst) as [Hemp|(i & Hi & Hv)].
    { by rewrite lookup_empty in Hemp. }
    apply elem_of_lookup_imap in Hi as (j & c' & [= -> ->] & Hj).
    exists j. split; [exact Hj|]. rewrite Hv. split; [|split].
    + intros x. apply multiplicity_list_to_set_disj.
    + rewrite size_list_to_set_disj_cells. unfold column_at, len.
      by rewrite length_fmap.
    + apply multiplicity_list_to_set_disj.
Qed.

End AuditMore.

Section IdentifiersMore.

Lemma size_list_to_set_le (l : list cell) :
  (size (list_to_set l : gset cell) ≤ length l)%nat
  ∧ (size (list_to_set l : gset cell) = length l ↔ NoDup l).
Proof.
  induction l as [|x l [IHle IHeq]].
  - rewrite list_to_set_nil, size_empty. split; [done|].
    split; [constructor|done].
  - rewrite list_to_set_cons. simpl length.
    destruct (decide (x ∈ l)) as [Hin|Hnin].
    + assert (Heq : {[x]} ∪ list_to_set l =@{gset cell} list_to_set l).
      { apply set_eq. intros y. rewrite elem_of_union, elem_of_singleton,
          !elem_of_list_to_set. split; [intros [->|?]; done|by right]. }
      rewrite Heq. split; [lia|]. split; [lia|].
      by intros [? _]%NoDup_cons.
    + rewrite size_union, size_singleton.
      * split; [lia|]. rewrite NoDup_cons, <- IHeq. split; [|lia].
        intros H. split; [done|lia].
      * intros y. rewrite elem_of_singleton, elem_of_list_to_set.
        by intros -> ?.
Qed.

Lemma filter_no_blank (l : list cell) :
  has_blank l = false → filter (λ c, c ≠ Null) l = l.
Proof.
  unfold has_blank. induction l as [|c l IH]; [done|]. simpl.
  intros [Hc Hl]%orb_false_iff. rewrite filter_cons, IH by done.
  by destruct c.
Qed.

Lemma float_cells_safe (l : list cell) :
  safe_column l → float_cell <$> l = l.
Proof. apply (join_keys_safe true). Qed.

(** X3: the duplicate check of [main] is an error when the account table
    has no identifier column.  Otherwise, with identifiers that are
    text or integers of magnitude at most 2^53, it says true exactly
    when no identifier occurs twice, where the blanks of a numeric
    identifier column never count as a repeat, however many there are,
    and the blanks of a text column count as one value. *)
Theorem unique_ids_iff_no_repeats (acct_info : DataFrame) :
  (unique_ids acct_info = None ↔
     col_index "Identifier" (columns acct_info) = None)
  ∧ (∀ ids, identifier_column acct_info = Some ids → safe_column ids →
       let counted :=
         if numeric_column ids then filter (λ c, c ≠ Null) ids else ids in
       (unique_ids acct_info = Some true ↔ NoDup counted)
       ∧ (unique_ids acct_info = Some false ↔ ¬ NoDup counted)).
Proof.
  unfold unique_ids, identifier_column. split.
  - destruct (col_index "Identifier" (columns acct_info)); simpl; split; done.
  - intros ids Hids Hsafe. rewrite Hids; simpl.
    set (counted := if numeric_column ids then _ else _).
    assert (Hiff : length ids = py_len (py_set ids) ↔ NoDup counted).
    { unfold counted, py_set, py_len, float_column.
      destruct (numeric_column ids) eqn:Hnum; simpl.
      - destruct (has_blank ids) eqn:Hblank; simpl.
        + rewrite float_cells_safe.
          2:{ apply Forall_forall. intros c [_ Hc]%list_elem_of_filter.
              by apply (proj1 (Forall_forall _ _) Hsafe). }
          destruct (size_list_to_set_le (filter (λ c, c ≠ Null) ids))
            as [_ <-].
          pose proof (missing_value_count ids) as Hlen.
          unfold value_count in Hlen. lia.
        + rewrite filter_no_blank by done.
          destruct (size_list_to_set_le ids) as [_ <-]. lia.
      - destruct (size_list_to_set_le ids) as [_ <-]. lia. }
    destruct (decide (length ids = py_len (py_set ids))) as [Heq|Hne].
    + rewrite bool_decide_eq_true_2 by done.
      assert (NoDup counted) by by apply Hiff. split; split; done.
    + rewrite bool_decide_eq_false_2 by done.
      assert (¬ NoDup counted) by (by intros ?%Hiff). split; split; done.
Qed.

(** Two blanks next to identifier 1 pass the duplicate check; two
    entries of identifier 1 do not. *)
Example blanks_are_not_repeats :
  unique_ids (Frame ["Identifier"] [[Num 1]; [Null]; [Null]]) = Some true
  ∧ unique_ids (Frame ["Identifier"] [[Num 1]; [Num 1]; [Null]]) = Some false
  ∧ unique_ids (Frame ["Identifier"] [[Str "a"]; [Null]; [Null]])
    = Some false.
Proof. by vm_compute. Qed.

End IdentifiersMore.

Section CleaningMore.

Lemma unnamed_in_acct_defaults c :
  c ∉ acct_numeric_columns → acct_default_vals !! c = None.
Proof.
  intros Hc. apply not_elem_of_dom.
  destruct default_vals_domains as (-> & _). by rewrite elem_of_list_to_set.
Qed.

Lemma unnamed_in_holder_defaults c :
  c ∉ holder_numeric_columns ++ holder_categorical_columns →
  holder_default_vals !! c = None.
Proof.
  intros Hc. apply not_elem_of_dom.
  destruct default_vals_domains as (_ & -> & _). by rewrite elem_of_list_to_set.
Qed.

Lemma fillna_well_formed v df : well_formed df → well_formed (fillna v df).
Proof.
  unfold well_formed, fillna; simpl. intros Hwf.
  apply Forall_fmap. eapply Forall_impl; [exact Hwf|].
  intros r Hr. simpl. by rewrite length_fmap.
Qed.

Lemma drop_duplicates_well_formed df :
  well_formed df → well_formed (drop_duplicates df).
Proof.
  unfold well_formed. intros Hwf. apply Forall_forall. intros r Hr.
  apply drop_duplicates_rows_same in Hr.
  by apply (proj1 (Forall_forall _ _) Hwf).
Qed.

Lemma identifier_not_filled :
  "Identifier" ∉ acct_numeric_columns
  ∧ "Identifier" ∉ holder_numeric_columns ++ holder_categorical_columns.
Proof.
  split.
  - apply (bool_decide_unpack ("Identifier" ∉ acct_numeric_columns)).
    vm_compute. exact I.
  - apply (bool_decide_unpack
             ("Identifier" ∉ holder_numeric_columns
                               ++ holder_categorical_columns)).
    vm_compute. exact I.
Qed.

(** X4: cleaning keeps the shape of the tables and touches nothing it
    does not name.  The account and fraud tables keep their row counts
    and the holder table loses exactly its duplicate rows; one cell per
    column stays one cell per column; a column that the default map of
    its table does not name comes out cell for cell as it went in, the
    identifier columns of the account and holder tables among them,
    while the fraud table's identifier column is filled like every other
    fraud column: a null identifier becomes 0. *)
Theorem clean_data_keeps_shape (acct_info holder_info fraud_indicators : DataFrame) :
  let cleaned := clean_data acct_info holder_info fraud_indicators in
  len cleaned.1.1 = len acct_info
  ∧ len cleaned.2 = len fraud_indicators
  ∧ (len cleaned.1.2 + duplicate_count holder_info = len holder_info)%nat
  ∧ (well_formed acct_info → well_formed cleaned.1.1)
  ∧ (well_formed holder_info → well_formed cleaned.1.2)
  ∧ (well_formed fraud_indicators → well_formed cleaned.2)
  ∧ (∀ k c, columns acct_info !! k = Some c → c ∉ acct_numeric_columns →
            column_at k cleaned.1.1 = column_at k acct_info)
  ∧ (∀ k c, columns holder_info !! k = Some c →
            c ∉ holder_numeric_columns ++ holder_categorical_columns →
            column_at k cleaned.1.2
            = column_at k (drop_duplicates holder_info))
  ∧ identifier_column cleaned.1.1 = identifier_column acct_info
  ∧ identifier_column cleaned.1.2
    = identifier_column (drop_duplicates holder_info)
  ∧ (well_formed fraud_indicators →
     identifier_column cleaned.2
     = (λ ids : list cell, filled (Num 0) <$> ids)
         <$> identifier_column fraud_indicators).
Proof.
  unfold clean_data; cbv zeta; cbn [fst snd].
  destruct identifier_not_filled as [Hia Hih].
  split; [|split; [|split; [|split; [|split; [|split; [|split;
    [|split; [|split; [|split]]]]]]]]].
  - unfold len, fillna_dict; simpl. by rewrite length_fmap.
  - unfold len, fillna; simpl. by rewrite length_fmap.
  - pose proof (audit_duplicates_count holder_info) as Hcount.
    unfold len, fillna_dict in *; simpl in *. rewrite length_fmap. lia.
  - apply fillna_dict_well_formed.
  - intros Hwf. by apply fillna_dict_well_formed, drop_duplicates_well_formed.
  - apply fillna_well_formed.
  - intros k c Hc Hn.
    by eapply fillna_dict_unnamed_column, unnamed_in_acct_defaults.
  - intros k c Hc Hn.
    by eapply (fillna_dict_unnamed_column _ (drop_duplicates holder_info)),
      unnamed_in_holder_defaults.
  - unfold identifier_column. simpl.
    destruct (col_index "Identifier" (columns acct_info)) as [k|] eqn:Hk;
      simpl; [|done].
    f_equal. eapply fillna_dict_unnamed_column; [by apply col_index_lt|].
    by apply unnamed_in_acct_defaults.
  - unfold identifier_column. simpl.
    destruct (col_index "Identifier" (columns holder_info)) as [k|] eqn:Hk;
      simpl; [|done].
    f_equal.
    eapply (fillna_dict_unnamed_column _ (drop_duplicates holder_info));
      [by apply col_index_lt|].
    by apply unnamed_in_holder_defaults.
  - intros Hwf. unfold identifier_column. simpl.
    destruct (col_index "Identifier" (columns fraud_indicators)) as [k|] eqn:Hk;
      simpl; [|done].
    f_equal. apply fillna_column; [done|by eapply col_index_bound].
Qed.

Lemma fillna_dict_rows_fixed (d : gmap string cell) df :
  (∀ r', r' ∈ rows df →
         ∃ r, r' ∈ rows (fillna_dict d (Frame (columns df) [r]))) →
  fillna_dict d df = df.
Proof.
  intros Hfixed. destruct df as [cols rs]. simpl in *.
  unfold fillna_dict; simpl. f_equal.
  rewrite <- (list_fmap_id rs) at 2. apply Forall_fmap_ext, Forall_forall.
  intros r' Hr'. destruct (Hfixed r' Hr') as (r & Hr). simpl in Hr.
  apply list_elem_of_singleton in Hr as ->. simpl.
  apply list_eq. intros i. rewrite !list_lookup_imap.
  destruct (r !! i) as [x|]; simpl; [|done]. f_equal.
  destruct x; try done.
  by destruct (default Null (cols !! i ≫= (d !!.))).
Qed.

Lemma fillna_dict_idempotent (d : gmap string cell) df :
  fillna_dict d (fillna_dict d df) = fillna_dict d df.
Proof.
  apply fillna_dict_rows_fixed.
  intros r' (r & -> & _)%list_elem_of_fmap. exists r. simpl. left.
Qed.

Lemma fillna_idempotent v df : fillna v (fillna v df) = fillna v df.
Proof.
  unfold fillna; simpl. f_equal. rewrite <- list_fmap_compose.
  apply list_fmap_ext. intros _ r _. simpl. rewrite <- list_fmap_compose.
  apply list_fmap_ext. intros _ x _. simpl. destruct x; try done. by destruct v.
Qed.

Lemma clean_data_shape_ids (acct_info holder_info fraud_indicators : DataFrame) :
  let cleaned := clean_data acct_info holder_info fraud_indicators in
  (well_formed acct_info → well_formed cleaned.1.1)
  ∧ identifier_column cleaned.1.1 = identifier_column acct_info
  ∧ identifier_column cleaned.1.2
    = identifier_column (drop_duplicates holder_info)
  ∧ (well_formed fraud_indicators →
     identifier_column cleaned.2
     = (λ ids : list cell, filled (Num 0) <$> ids)
         <$> identifier_column fraud_indicators).
Proof.
  unfold clean_data; cbv zeta; cbn [fst snd].
  destruct identifier_not_filled as [Hia Hih].
  split; [apply fillna_dict_well_formed|]. split; [|split].
  - unfold identifier_column. simpl.
    destruct (col_index "Identifier" (columns acct_info)) as [k|] eqn:Hk;
      simpl; [|done].
    f_equal. eapply fillna_dict_unnamed_column; [by apply col_index_lt|].
    by apply unnamed_in_acct_defaults.
  - unfold identifier_column. simpl.
    destruct (col_index "Identifier" (columns holder_info)) as [k|] eqn:Hk;
      simpl; [|done].
    f_equal.
    eapply (fillna_dict_unnamed_column _ (drop_duplicates holder_info));
      [by apply col_index_lt|].
    by apply unnamed_in_holder_defaults.
  - intros Hwf. unfold identifier_column. simpl.
    destruct (col_index "Identifier" (columns fraud_indicators)) as [k|] eqn:Hk;
      simpl; [|done].
    f_equal. apply fillna_column; [done|by eapply col_index_bound].
Qed.

(** X5: cleaning an already cleaned triple changes nothing in the
    account and fraud tables, and in the holder table only drops
    duplicate rows once more, every fill being already done.  That
    second removal is not idle in general: duplicates are removed before
    the fill, and the fill can make two rows equal. *)
Theorem clean_data_twice (acct_info holder_info fraud_indicators : DataFrame) :
  let cleaned := clean_data acct_info holder_info fraud_indicators in
  clean_data cleaned.1.1 cleaned.1.2 cleaned.2
  = (cleaned.1.1, drop_duplicates cleaned.1.2, cleaned.2)
  ∧ ∃ holder_info',
      ¬ NoDup (rows (clean_data acct_info holder_info' fraud_indicators).1.2).
Proof.
  unfold clean_data; cbv zeta; cbn [fst snd]. split.
  - f_equal; [f_equal|].
    + apply fillna_dict_idempotent.
    + apply fillna_dict_rows_fixed.
      intros r' Hr'%drop_duplicates_rows_same.
      apply list_elem_of_fmap in Hr' as (r & -> & _). exists r. simpl. left.
    + apply fillna_idempotent.
  - exists blank_gender_fixture. intros Hnd.
    apply (bool_decide_pack _) in Hnd. vm_compute in Hnd. exact Hnd.
Qed.

End CleaningMore.

Section MergingMore.

Lemma bind_bind_rows (f g : list cell → list (list cell))
    (l : list (list cell)) :
  (l ≫= f) ≫= g = l ≫= (λ x, f x ≫= g).
Proof.
  induction l as [|x l IH]; [done|].
  by rewrite !bind_cons, bind_app, IH.
Qed.

(** The shape of the two joins of a merge that returns: every account
    row, in order, followed by each of its holder parts and, for each
    of those, each of its fraud parts. *)
Lemma merge_datasets_inv (acct_info holder_info fraud_indicators m : DataFrame) :
  merge_datasets acct_info holder_info fraud_indicators = Some m →
  ∃ ki kh kf fl1 fl2,
    col_index "Identifier" (columns acct_info) = Some ki
    ∧ col_index "Identifier" (columns holder_info) = Some kh
    ∧ col_index "Identifier" (columns fraud_indicators) = Some kf
    ∧ col_index "Identifier" (columns m) = Some ki
    ∧ length (columns m)
      = (length (columns acct_info) + (length (columns holder_info) - 1)
         + (length (columns fraud_indicators) - 1))%nat
    ∧ rows m
      = rows acct_info ≫= (λ ra, (ra ++.) <$>
          (join_parts fl1 kh holder_info (cell_at ki ra) ≫= λ p1,
             (p1 ++.) <$> join_parts fl2 kf fraud_indicators
                                     (cell_at ki (ra ++ p1)))).
Proof.
  unfold merge_datasets.
  destruct (merge_left "Identifier" acct_info holder_info) as [m1|] eqn:Hm1;
    [|done].
  simpl. intros Hm2.
  apply merge_left_inv in Hm1
    as (ki & kh & fl1 & Hki & Hkh & Hk1 & Hc1 & Hr1).
  apply merge_left_inv in Hm2
    as (ki' & kf & fl2 & Hki' & Hkf & Hk2 & Hc2 & Hr2).
  assert (ki' = ki) as -> by congruence.
  exists ki, kh, kf, fl1, fl2.
  split; [done|]. split; [done|]. split; [done|]. split; [done|].
  split; [lia|].
  rewrite Hr2, Hr1, bind_bind_rows. apply list_bind_ext; [|done].
  intros ra. induction (join_parts fl1 kh holder_info (cell_at ki ra))
    as [|p1 ps IH]; [done|].
  rewrite fmap_cons, !bind_cons, fmap_app, IH. f_equal.
  rewrite <- list_fmap_compose. apply list_fmap_ext.
  intros _ p2 _. simpl. by rewrite app_assoc.
Qed.

Lemma key_of_extended_row (df : DataFrame) ki (ra p : list cell) :
  well_formed df → col_index "Identifier" (columns df) = Some ki →
  ra ∈ rows df → cell_at ki (ra ++ p) = cell_at ki ra.
Proof.
  intros Hwf Hki Hra. unfold cell_at. rewrite lookup_app_l; [done|].
  rewrite (proj1 (Forall_forall _ _) Hwf ra Hra). by eapply col_index_bound.
Qed.

(** Which rows a merge that returns holds, in terms of the parts the
    two joins append. *)
Lemma merge_datasets_rows (acct_info holder_info fraud_indicators m : DataFrame) :
  well_formed acct_info →
  merge_datasets acct_info holder_info fraud_indicators = Some m →
  ∃ ki kh kf fl1 fl2,
    col_index "Identifier" (columns acct_info) = Some ki
    ∧ col_index "Identifier" (columns holder_info) = Some kh
    ∧ col_index "Identifier" (columns fraud_indicators) = Some kf
    ∧ ∀ r, r ∈ rows m ↔
           ∃ ra hp fp,
             r = ra ++ hp ++ fp ∧ ra ∈ rows acct_info
             ∧ hp ∈ join_parts fl1 kh holder_info (cell_at ki ra)
             ∧ fp ∈ join_parts fl2 kf fraud_indicators (cell_at ki ra).
Proof.
  intros Hwf Hm.
  apply merge_datasets_inv in Hm
    as (ki & kh & kf & fl1 & fl2 & Hki & Hkh & Hkf & _ & _ & Hrows).
  exists ki, kh, kf, fl1, fl2.
  split; [done|]. split; [done|]. split; [done|].
  intros r. rewrite Hrows, list_elem_of_bind. split.
  - intros (ra & Hr & Hra).
    apply list_elem_of_fmap in Hr as (p & -> & Hp).
    apply list_elem_of_bind in Hp as (hp & Hp & Hhp).
    apply list_elem_of_fmap in Hp as (fp & -> & Hfp).
    rewrite (key_of_extended_row acct_info) in Hfp by done.
    by exists ra, hp, fp.
  - intros (ra & hp & fp & -> & Hra & Hhp & Hfp).
    exists ra. split; [|done].
    apply list_elem_of_fmap. exists (hp ++ fp). split; [done|].
    apply list_elem_of_bind. exists hp. split; [|done].
    apply list_elem_of_fmap. exists fp. split; [done|].
    by rewrite (key_of_extended_row acct_info).
Qed.

Lemma take_left_rows n (ra : list cell) (ps : list (list cell)) :
  length ra = n → take n <$> ((ra ++.) <$> ps) = replicate (length ps) ra.
Proof.
  intros <-. induction ps as [|p ps IH]; [done|].
  csimpl. by rewrite take_app_length, IH.
Qed.

Lemma merged_left_parts (acct_info : DataFrame)
    (parts : list cell → list (list cell)) :
  well_formed acct_info →
  take (length (columns acct_info)) <$>
    (rows acct_info ≫= (λ ra, (ra ++.) <$> parts ra))
  = rows acct_info ≫= (λ ra, replicate (length (parts ra)) ra).
Proof.
  unfold well_formed. induction 1 as [|ra rs Hra Hrs IH]; [done|].
  rewrite !bind_cons, fmap_app, IH. f_equal. by apply take_left_rows.
Qed.

Lemma merged_rows_at_least (rs : list (list cell))
    (parts : list cell → list (list cell)) :
  (∀ ra, parts ra ≠ []) →
  (length rs ≤ length (rs ≫= (λ ra, (ra ++.) <$> parts ra)))%nat.
Proof.
  intros Hne. induction rs as [|ra rs IH]; [done|].
  rewrite bind_cons, length_app, length_fmap. simpl.
  specialize (Hne ra). destruct (parts ra); [done|]. simpl. lia.
Qed.

Lemma merged_rows_once (rs : list (list cell))
    (parts : list cell → list (list cell)) :
  (∀ ra, length (parts ra) = 1%nat) →
  rs ≫= (λ ra, replicate (length (parts ra)) ra) = rs.
Proof.
  intros Hone. induction rs as [|ra rs IH]; [done|].
  by rewrite bind_cons, Hone, IH.
Qed.

Lemma two_joins_nonempty fl1 fl2 kh kf ki (h f : DataFrame) (ra : list cell) :
  join_parts fl1 kh h (cell_at ki ra)
    ≫= (λ p1, (p1 ++.) <$> join_parts fl2 kf f (cell_at ki (ra ++ p1)))
  ≠ [].
Proof.
  pose proof (join_parts_nonempty fl1 kh h (cell_at ki ra)) as Hne1.
  destruct (join_parts fl1 kh h (cell_at ki ra)) as [|p1 ps]; [done|].
  rewrite bind_cons.
  pose proof (join_parts_nonempty fl2 kf f (cell_at ki (ra ++ p1))) as Hne2.
  by destruct (join_parts fl2 kf f (cell_at ki (ra ++ p1))).
Qed.

Lemma two_joins_once fl1 fl2 kh kf ki (h f : DataFrame) (ra : list cell) :
  NoDup (column_at kh h) → NoDup (column_at kf f) →
  safe_column (column_at kh h) → safe_column (column_at kf f) →
  length (join_parts fl1 kh h (cell_at ki ra)
            ≫= (λ p1, (p1 ++.) <$> join_parts fl2 kf f (cell_at ki (ra ++ p1))))
  = 1%nat.
Proof.
  intros Hndh Hndf Hsh Hsf.
  pose proof (join_parts_one fl1 kh h (cell_at ki ra)) as Hone1.
  rewrite join_keys_safe in Hone1 by done. specialize (Hone1 Hndh).
  destruct (join_parts fl1 kh h (cell_at ki ra)) as [|p1 [|??]];
    simplify_eq/=.
  rewrite app_nil_r, length_fmap. apply join_parts_one.
  by rewrite join_keys_safe.
Qed.

(** X7: a merge that returns keeps every account row, in the account
    table's order: cut to the account columns, the merged rows are the
    account rows, each one or more times in a row.  So the merged table
    is never shorter than the account table, and when the holder and
    fraud identifiers do not repeat and are text or integers of
    magnitude at most 2^53, its left part is the account table row for
    row. *)
Theorem merge_keeps_account_rows
    (acct_info holder_info fraud_indicators combined_data : DataFrame) :
  well_formed acct_info →
  merge_datasets acct_info holder_info fraud_indicators = Some combined_data →
  (len acct_info ≤ len combined_data)%nat
  ∧ (∃ copies : list cell → nat,
       (∀ ra, 1 ≤ copies ra)%nat
       ∧ take (length (columns acct_info)) <$> rows combined_data
         = rows acct_info ≫= (λ ra, replicate (copies ra) ra))
  ∧ (∀ ids_h ids_f,
       identifier_column holder_info = Some ids_h →
       identifier_column fraud_indicators = Some ids_f →
       NoDup ids_h → NoDup ids_f → safe_column ids_h → safe_column ids_f →
       take (length (columns acct_info)) <$> rows combined_data
       = rows acct_info).
Proof.
  intros Hwf Hm.
  apply merge_datasets_inv in Hm
    as (ki & kh & kf & fl1 & fl2 & Hki & Hkh & Hkf & _ & _ & Hrows).
  set (parts := λ ra,
         join_parts fl1 kh holder_info (cell_at ki ra) ≫= λ p1,
           (p1 ++.) <$> join_parts fl2 kf fraud_indicators
                                   (cell_at ki (ra ++ p1))) in Hrows.
  assert (Hne : ∀ ra, parts ra ≠ []) by (intros ra; apply two_joins_nonempty).
  assert (Htake : take (length (columns acct_info)) <$> rows combined_data
                  = rows acct_info ≫= (λ ra, replicate (length (parts ra)) ra)).
  { rewrite Hrows. by apply merged_left_parts. }
  split; [|split].
  - unfold len. rewrite Hrows. by apply merged_rows_at_least.
  - exists (λ ra, length (parts ra)). split; [|done].
    intros ra. specialize (Hne ra). destruct (parts ra); [done|]. simpl. lia.
  - intros ids_h ids_f Hh Hf Hndh Hndf Hsh Hsf.
    unfold identifier_column in Hh, Hf. rewrite Hkh in Hh. rewrite Hkf in Hf.
    injection Hh as <-. injection Hf as <-.
    rewrite Htake. apply merged_rows_once. intros ra.
    by apply two_joins_once.
Qed.

Lemma merge_keeps_account_rows_witness :
  (len acct_fixture ≤ len (default acct_fixture
      (merge_datasets acct_fixture acct_holders_fixture fraud_fixture)))%nat
  ∧ (∃ copies : list cell → nat,
       (∀ ra, 1 ≤ copies ra)%nat
       ∧ take (length (columns acct_fixture)) <$>
           rows (default acct_fixture
                   (merge_datasets acct_fixture acct_holders_fixture
                                   fraud_fixture))
         = rows acct_fixture ≫= (λ ra, replicate (copies ra) ra))
  ∧ (∀ ids_h ids_f,
       identifier_column acct_holders_fixture = Some ids_h →
       identifier_column fraud_fixture = Some ids_f →
       NoDup ids_h → NoDup ids_f → safe_column ids_h → safe_column ids_f →
       take (length (columns acct_fixture)) <$>
         rows (default acct_fixture
                 (merge_datasets acct_fixture acct_holders_fixture
                                 fraud_fixture))
       = rows acct_fixture).
Proof.
  apply (merge_keeps_account_rows acct_fixture acct_holders_fixture
                                  fraud_fixture).
  - repeat constructor.
  - reflexivity.
Defined.

(** The holder fixture enters account 1 twice: merged as it is, the
    account row comes out twice. *)
Example fixture_merge_repeats_account :
  take 3 <$> rows (default acct_fixture
                     (merge_datasets acct_fixture holder_fixture fraud_fixture))
  = [[Num 1; Num 12; Null]; [Num 1; Num 12; Null];
     [Num 2; Null; Num 300]; [Num 3; Num 7; Num 50]].
Proof. vm_compute. reflexivity. Qed.

(** X9: the merge of three well-formed tables is well-formed, with the
    account columns, the holder columns but the key and the fraud
    columns but the key. *)
Theorem merge_datasets_well_formed
    (acct_info holder_info fraud_indicators combined_data : DataFrame) :
  well_formed acct_info → well_formed holder_info →
  well_formed fraud_indicators →
  merge_datasets acct_info holder_info fraud_indicators = Some combined_data →
  well_formed combined_data
  ∧ length (columns combined_data)
    = (length (columns acct_info) + (length (columns holder_info) - 1)
       + (length (columns fraud_indicators) - 1))%nat.
Proof.
  intros Hwa Hwh Hwf Hm.
  apply merge_datasets_inv in Hm
    as (ki & kh & kf & fl1 & fl2 & Hki & Hkh & Hkf & _ & Hcols & Hrows).
  split; [|done]. unfold well_formed. rewrite Hrows, Hcols.
  apply Forall_forall. intros r (ra & Hr & Hra)%list_elem_of_bind.
  apply list_elem_of_fmap in Hr as (p & -> & Hp).
  apply list_elem_of_bind in Hp as (p1 & Hp & Hp1).
  apply list_elem_of_fmap in Hp as (p2 & -> & Hp2).
  rewrite !length_app.
  rewrite (join_parts_length _ _ _ _ _ Hwh (col_index_bound _ _ _ Hkh) Hp1).
  rewrite (join_parts_length _ _ _ _ _ Hwf (col_index_bound _ _ _ Hkf) Hp2).
  rewrite (proj1 (Forall_forall _ _) Hwa ra Hra). lia.
Qed.

Lemma merge_datasets_well_formed_witness :
  well_formed (default acct_fixture
                 (merge_datasets acct_fixture holder_fixture fraud_fixture))
  ∧ length (columns (default acct_fixture
                       (merge_datasets acct_fixture holder_fixture
                                       fraud_fixture)))
    = (length (columns acct_fixture) + (length (columns holder_fixture) - 1)
       + (length (columns fraud_fixture) - 1))%nat.
Proof.
  apply (merge_datasets_well_formed acct_fixture holder_fixture fraud_fixture);
    [repeat constructor..|reflexivity].
Defined.

Lemma right_part_unmatched right kj k part :
  right_part right kj k part → k ∉ column_at kj right →
  part = replicate (length (columns right) - 1) Null.
Proof.
  intros [(rr & Hin & Hk & _)|[_ ->]] Hnin; [|done].
  exfalso. apply Hnin. apply list_elem_of_fmap. by exists rr.
Qed.

(** C9 (as the joins compare keys): cleaning runs before the merge and
    nothing is filled after it.  With identifiers that are text or
    integers of magnitude at most 2^53, when the merge of the cleaned
    tables returns, every cleaned account row is extended by a holder
    part and a fraud part; when the row's identifier occurs nowhere in
    the holder table, the holder part is all nulls, and when it occurs
    nowhere in the cleaned fraud table (the fraud identifiers with
    nulls turned into 0), the fraud part is all nulls: such cells carry
    null even in columns for which a default exists. *)
Theorem unmatched_rows_keep_nulls
    (acct_info holder_info fraud_indicators combined_data : DataFrame)
    (ki : nat) (ids_a ids_h ids_f : list cell) :
  well_formed acct_info →
  well_formed fraud_indicators →
  col_index "Identifier" (columns acct_info) = Some ki →
  identifier_column acct_info = Some ids_a →
  identifier_column holder_info = Some ids_h →
  identifier_column fraud_indicators = Some ids_f →
  safe_column ids_a → safe_column ids_h → safe_column ids_f →
  let cleaned := clean_data acct_info holder_info fraud_indicators in
  merge_datasets cleaned.1.1 cleaned.1.2 cleaned.2 = Some combined_data →
  (∀ ra, ra ∈ rows cleaned.1.1 →
     ∃ hp fp, ra ++ hp ++ fp ∈ rows combined_data)
  ∧ (∀ r, r ∈ rows combined_data →
       ∃ ra hp fp,
         r = ra ++ hp ++ fp ∧ ra ∈ rows cleaned.1.1
         ∧ length ra = length (columns acct_info)
         ∧ (cell_at ki ra ∉ ids_h →
            hp = replicate (length (columns holder_info) - 1) Null)
         ∧ (cell_at ki ra ∉ filled (Num 0) <$> ids_f →
            fp = replicate (length (columns fraud_indicators) - 1) Null)).
Proof.
  intros Hwa Hwf Hki Ha Hh Hf Hsa Hsh Hsf cleaned Hm.
  pose proof (clean_data_shape_ids acct_info holder_info fraud_indicators)
    as (Hwa' & Hida & Hidh & Hidf).
  fold cleaned in Hwa', Hida, Hidh, Hidf.
  specialize (Hwa' Hwa). specialize (Hidf Hwf).
  assert (Hca : columns cleaned.1.1 = columns acct_info) by done.
  assert (Hch : columns cleaned.1.2 = columns holder_info) by done.
  assert (Hcf : columns cleaned.2 = columns fraud_indicators) by done.
  destruct (merge_datasets_rows _ _ _ _ Hwa' Hm)
    as (ki' & kh & kf & fl1 & fl2 & Hki' & Hkh & Hkf & Hrows).
  rewrite Hca in Hki'. assert (ki' = ki) as -> by congruence.
  rewrite Hch in Hkh. rewrite Hcf in Hkf.
  unfold identifier_column in Ha, Hh, Hf, Hida, Hidh, Hidf.
  rewrite Hca in Hida. rewrite Hch in Hidh. rewrite Hcf in Hidf.
  change (columns (drop_duplicates holder_info))
    with (columns holder_info) in Hidh.
  rewrite Hki in Ha, Hida. rewrite Hkh in Hh, Hidh. rewrite Hkf in Hf, Hidf.
  cbn [fmap option_fmap option_map] in Ha, Hh, Hf, Hida, Hidh, Hidf.
  injection Ha as <-. injection Hh as <-. injection Hf as <-.
  injection Hida as Hida. injection Hidh as Hidh. injection Hidf as Hidf.
  change (fillna_dict acct_default_vals acct_info) with cleaned.1.1 in Hida.
  change (fillna_dict holder_default_vals (drop_duplicates holder_info))
    with cleaned.1.2 in Hidh.
  change (fillna (Num 0) fraud_indicators) with cleaned.2 in Hidf.
  assert (Hsh' : safe_column (column_at kh cleaned.1.2)).
  { rewrite Hidh. apply Forall_forall. intros c Hc.
    apply (safe_column_elem _ _ Hsh). by apply drop_duplicates_column. }
  assert (Hsf' : safe_column (column_at kf cleaned.2)).
  { rewrite Hidf. apply Forall_fmap, Forall_forall. intros c Hc.
    pose proof (safe_column_elem _ _ Hsf Hc) as Hs.
    by destruct c. }
  assert (Hkey : ∀ ra, ra ∈ rows cleaned.1.1 → safe_cell (cell_at ki ra)).
  { intros ra Hra. apply (safe_column_elem _ _ Hsa).
    rewrite <- Hida. apply list_elem_of_fmap. by exists ra. }
  split.
  - intros ra Hra.
    pose proof (join_parts_nonempty fl1 kh cleaned.1.2 (cell_at ki ra)) as H1.
    pose proof (join_parts_nonempty fl2 kf cleaned.2 (cell_at ki ra)) as H2.
    destruct (join_parts fl1 kh cleaned.1.2 (cell_at ki ra)) as [|hp ?] eqn:E1;
      [done|].
    destruct (join_parts fl2 kf cleaned.2 (cell_at ki ra)) as [|fp ?] eqn:E2;
      [done|].
    exists hp, fp. apply Hrows. exists ra, hp, fp.
    rewrite E1, E2. repeat split; try done; left.
  - intros r (ra & hp & fp & -> & Hra & Hhp & Hfp)%Hrows.
    exists ra, hp, fp.
    split; [done|]. split; [done|].
    split; [by apply (proj1 (Forall_forall _ _) Hwa' ra Hra)|].
    apply join_parts_exact in Hhp; [|by apply Hkey|done].
    apply join_parts_exact in Hfp; [|by apply Hkey|done].
    split.
    + intros Hnin. rewrite <- Hch.
      apply (right_part_unmatched _ _ _ _ Hhp).
      rewrite Hidh. intros Hin. apply Hnin. by apply drop_duplicates_column.
    + intros Hnin. rewrite <- Hcf.
      apply (right_part_unmatched _ _ _ _ Hfp).
      rewrite Hidf. exact Hnin.
Qed.

Lemma unmatched_rows_keep_nulls_witness :
  let cleaned := clean_data acct_fixture holder_fixture fraud_fixture in
  let combined_data :=
    default acct_fixture (merge_datasets cleaned.1.1 cleaned.1.2 cleaned.2) in
  (∀ ra, ra ∈ rows cleaned.1.1 →
     ∃ hp fp, ra ++ hp ++ fp ∈ rows combined_data)
  ∧ (∀ r, r ∈ rows combined_data →
       ∃ ra hp fp,
         r = ra ++ hp ++ fp ∧ ra ∈ rows cleaned.1.1
         ∧ length ra = length (columns acct_fixture)
         ∧ (cell_at 0 ra ∉ [Num 1; Num 2; Num 1] →
            hp = replicate (length (columns holder_fixture) - 1) Null)
         ∧ (cell_at 0 ra ∉ filled (Num 0) <$> [Num 1; Num 2; Num 3] →
            fp = replicate (length (columns fraud_fixture) - 1) Null)).
Proof.
  apply (unmatched_rows_keep_nulls acct_fixture holder_fixture fraud_fixture
           _ 0%nat [Num 1; Num 2; Num 3]);
    try reflexivity;
    repeat constructor; simpl; lia.
Defined.

(** Account 3 has no holder: after cleaning and merging its date of
    birth, gender and income are null, not "Missing" or -1. *)
Example fixture_unmatched_account :
  let cleaned := clean_data acct_fixture holder_fixture fraud_fixture in
  rows (default acct_fixture
          (merge_datasets cleaned.1.1 cleaned.1.2 cleaned.2)) !! 2%nat
  = Some [Num 3; Num 7; Num 50; Null; Null; Null; Num 1]
  ∧ holder_default_vals !! "Gender" = Some (Str "Missing").
Proof. vm_compute. split; reflexivity. Qed.

(** C9 as stated fails.  The holder identifiers 2^53 and blank make a
    binary64 column; the account identifier 2^53+1 is not among them,
    but the join compares it as a binary64 number, where it is 2^53:
    the account row gets the gender of holder 2^53, not a null. *)
Lemma rounded_identifier_takes_holder_row :
  ¬ (∀ (acct_info holder_info fraud_indicators combined_data : DataFrame)
       (ki : nat) (ids_h : list cell),
       well_formed acct_info →
       col_index "Identifier" (columns acct_info) = Some ki →
       identifier_column holder_info = Some ids_h →
       let cleaned := clean_data acct_info holder_info fraud_indicators in
       merge_datasets cleaned.1.1 cleaned.1.2 cleaned.2 = Some combined_data →
       ∀ r, r ∈ rows combined_data →
         ∃ ra hp fp,
           r = ra ++ hp ++ fp ∧ ra ∈ rows cleaned.1.1
           ∧ length hp = (length (columns holder_info) - 1)%nat
           ∧ (cell_at ki ra ∉ ids_h →
              hp = replicate (length (columns holder_info) - 1) Null)).
Proof.
  intros H.
  destruct (H odd_acct_fixture even_holder_fixture odd_fraud_fixture
              (Frame ["Identifier"; "AccountLength"; "Gender"; "MuleAccount"]
                     [[Num 9007199254740993; Num 12; Str "F"; Num 1]])
              0%nat [Num 9007199254740992; Null]
              ltac:(repeat constructor) eq_refl eq_refl
              ltac:(vm_compute; reflexivity)
              [Num 9007199254740993; Num 12; Str "F"; Num 1]
              ltac:(left))
    as (ra & hp & fp & Hr & Hra & Hlen & Hnull).
  apply list_elem_of_singleton in Hra. subst ra.
  injection Hr as Hr. rewrite Hnull in Hr; [discriminate Hr|].
  intros [[=]|[[=]|[]%elem_of_nil]%elem_of_cons]%elem_of_cons.
Qed.

(** The merged row of that account. *)
Example odd_fixture_merge :
  let cleaned :=
    clean_data odd_acct_fixture even_holder_fixture odd_fraud_fixture in
  rows <$> merge_datasets cleaned.1.1 cleaned.1.2 cleaned.2
  = Some [[Num 9007199254740993; Num 12; Str "F"; Num 1]].
Proof. vm_compute. reflexivity. Qed.

(** X20: which rows the merged table holds, with identifiers that are
    text or integers of magnitude at most 2^53.  A row is in it exactly
    when it is an account row followed by a holder part and a fraud part
    for that row's identifier: the cells of a holder (fraud) row with
    the same identifier, the identifier left out, or nulls for all those
    columns when no holder (fraud) row has the identifier. *)
Theorem merged_rows_are_joined_rows
    (acct_info holder_info fraud_indicators combined_data : DataFrame)
    (ki kh kf : nat) :
  well_formed acct_info →
  col_index "Identifier" (columns acct_info) = Some ki →
  col_index "Identifier" (columns holder_info) = Some kh →
  col_index "Identifier" (columns fraud_indicators) = Some kf →
  safe_column (column_at ki acct_info) →
  safe_column (column_at kh holder_info) →
  safe_column (column_at kf fraud_indicators) →
  merge_datasets acct_info holder_info fraud_indicators = Some combined_data →
  ∀ r, r ∈ rows combined_data ↔
       ∃ ra hp fp,
         r = ra ++ hp ++ fp ∧ ra ∈ rows acct_info
         ∧ right_part holder_info kh (cell_at ki ra) hp
         ∧ right_part fraud_indicators kf (cell_at ki ra) fp.
Proof.
  intros Hwa Hki Hkh Hkf Hsa Hsh Hsf Hm r.
  destruct (merge_datasets_rows _ _ _ _ Hwa Hm)
    as (ki' & kh' & kf' & fl1 & fl2 & Hki' & Hkh' & Hkf' & Hrows).
  assert (ki' = ki) as -> by congruence.
  assert (kh' = kh) as -> by congruence.
  assert (kf' = kf) as -> by congruence.
  assert (Hkey : ∀ ra, ra ∈ rows acct_info → safe_cell (cell_at ki ra)).
  { intros ra Hra. apply (safe_column_elem _ _ Hsa).
    apply list_elem_of_fmap. by exists ra. }
  rewrite Hrows. split.
  - intros (ra & hp & fp & -> & Hra & Hhp & Hfp). exists ra, hp, fp.
    split; [done|]. split; [done|].
    split; eapply join_parts_exact; eauto.
  - intros (ra & hp & fp & -> & Hra & Hhp & Hfp). exists ra, hp, fp.
    split; [done|]. split; [done|].
    split; eapply join_parts_exact; eauto.
Qed.

Lemma merged_rows_are_joined_rows_witness :
  [Num 3; Num 7; Num 50; Null; Null; Null; Num 1]
    ∈ rows (default acct_fixture
              (merge_datasets acct_fixture holder_fixture fraud_fixture))
  ↔ ∃ ra hp fp,
      [Num 3; Num 7; Num 50; Null; Null; Null; Num 1] = ra ++ hp ++ fp
      ∧ ra ∈ rows acct_fixture
      ∧ right_part holder_fixture 0 (cell_at 0 ra) hp
      ∧ right_part fraud_fixture 0 (cell_at 0 ra) fp.
Proof.
  apply (merged_rows_are_joined_rows acct_fixture holder_fixture fraud_fixture
           _ 0%nat 0%nat 0%nat);
    try reflexivity; repeat constructor; simpl; lia.
Defined.

End MergingMore.

Section FeaturesMore.

(** X10: what [cut] with [right=False] computes, for any strictly
    increasing bin edges: a value gets label [i] exactly when it lies in
    the half-open bin from edge [i] (included) to edge [i+1] (excluded);
    a value in no bin gets no label. *)
Theorem cut_label_half_open_bins (x : Z) (bins : list Z) (labels : list string)
    (l : string) :
  Sorted Z.lt bins →
  cut_label x bins labels = Some l ↔
  ∃ i lo hi, bins !! i = Some lo ∧ bins !! S i = Some hi
             ∧ lo ≤ x < hi ∧ labels !! i = Some l.
Proof.
  intros Hs%Sorted_StronglySorted; [|intros ???; lia].
  revert labels. induction bins as [|lo bins IH]; intros labels.
  - simpl. split; [done|]. by intros (i & ? & ? & ? & _).
  - destruct bins as [|hi rest].
    { simpl. split; [done|]. intros (i & ? & ? & _ & Hhi & _).
      by destruct i. }
    destruct labels as [|l0 ls].
    { simpl. split; [done|]. by intros (i & ? & ? & _ & _ & _ & ?). }
    apply StronglySorted_inv in Hs as [Hs Hlo].
    change (cut_label x (lo :: hi :: rest) (l0 :: ls))
      with (if (lo <=? x) && (x <? hi) then Some l0
            else cut_label x (hi :: rest) ls).
    destruct (Z.leb_spec lo x) as [Hle|Hgt], (Z.ltb_spec x hi) as [Hlt|Hge];
      simpl.
    + split.
      * intros [= <-]. exists 0%nat, lo, hi. by repeat split.
      * intros ([|i] & lo' & hi' & Hi & Hsi & Hx & Hl); simplify_eq/=; [done|].
        apply StronglySorted_inv in Hs as [_ Hhi].
        assert (hi ≤ lo'); [|lia].
        destruct i; simplify_eq/=; [lia|].
        apply list_elem_of_lookup_2 in Hi.
        pose proof (proj1 (Forall_forall _ _) Hhi lo' Hi). lia.
    + rewrite (IH Hs ls). split.
      * intros (i & lo' & hi' & ?). by exists (S i), lo', hi'.
      * intros ([|i] & lo' & hi' & Hi & Hsi & Hx & Hl); simplify_eq/=; [lia|].
        by exists i, lo', hi'.
    + rewrite (IH Hs ls). split.
      * intros (i & lo' & hi' & ?). by exists (S i), lo', hi'.
      * intros ([|i] & lo' & hi' & Hi & Hsi & Hx & Hl); simplify_eq/=; [lia|].
        by exists i, lo', hi'.
    + rewrite (IH Hs ls). split.
      * intros (i & lo' & hi' & ?). by exists (S i), lo', hi'.
      * intros ([|i] & lo' & hi' & Hi & Hsi & Hx & Hl); simplify_eq/=; [lia|].
        by exists i, lo', hi'.
Qed.

Lemma cut_label_half_open_bins_witness :
  cut_label 25000 income_ranges income_categories = Some "20k-30k" ↔
  ∃ i lo hi, income_ranges !! i = Some lo ∧ income_ranges !! S i = Some hi
             ∧ lo ≤ 25000 < hi ∧ income_categories !! i = Some "20k-30k".
Proof.
  apply (cut_label_half_open_bins 25000 income_ranges income_categories).
  repeat constructor.
Defined.

(** X11: the income brackets.  An income below 0 or from 100000 up gets
    no bracket, and neither does a null income; so an income that
    cleaning filled with -1 ends without a bracket.  Inside, the edges
    belong to the bracket above them: 9999 is in "0-10k", 10000 in
    "10k-20k". *)
Theorem income_brackets :
  (∀ x, cut income_ranges income_categories (Num x) = Null ↔
        x < 0 ∨ 100000 ≤ x)
  ∧ (∀ x, cut income_ranges income_categories (Num x) = Str "0-10k" ↔
          0 ≤ x < 10000)
  ∧ (∀ x, cut income_ranges income_categories (Num x) = Str "10k-20k" ↔
          10000 ≤ x < 20000)
  ∧ (∀ x, cut income_ranges income_categories (Num x) = Str "20k-30k" ↔
          20000 ≤ x < 30000)
  ∧ (∀ x, cut income_ranges income_categories (Num x) = Str "30k-40k" ↔
          30000 ≤ x < 40000)
  ∧ (∀ x, cut income_ranges income_categories (Num x) = Str "40k-60k" ↔
          40000 ≤ x < 60000)
  ∧ (∀ x, cut income_ranges income_categories (Num x) = Str "60k-80k" ↔
          60000 ≤ x < 80000)
  ∧ (∀ x, cut income_ranges income_categories (Num x) = Str "80k+" ↔
          80000 ≤ x < 100000)
  ∧ cut income_ranges income_categories Null = Null
  ∧ cut income_ranges income_categories (filled (Num (-1)) Null) = Null.
Proof.
  assert (Hcut : ∀ x, cut income_ranges income_categories (Num x) =
    if decide (x < 0) then Null else if decide (x < 10000) then Str "0-10k"
    else if decide (x < 20000) then Str "10k-20k"
    else if decide (x < 30000) then Str "20k-30k"
    else if decide (x < 40000) then Str "30k-40k"
    else if decide (x < 60000) then Str "40k-60k"
    else if decide (x < 80000) then Str "60k-80k"
    else if decide (x < 100000) then Str "80k+" else Null).
  { intros x. unfold cut, income_ranges, income_categories; simpl.
    repeat case_decide;
      repeat (match goal with
              | |- context [?a <=? ?b] => destruct (Z.leb_spec a b)
              | |- context [?a <? ?b] => destruct (Z.ltb_spec a b)
              end; simpl; try lia); done. }
  repeat (split; [intros x; rewrite Hcut;
                  repeat case_decide; split; (done || lia)|]).
  split; reflexivity.
Qed.

Lemma date_leb_spec (a b : date) :
  date_leb a b = true ↔
  year a < year b
  ∨ (year a = year b
     ∧ (month a < month b ∨ (month a = month b ∧ day a ≤ day b))).
Proof.
  unfold date_leb.
  rewrite !orb_true_iff, !andb_true_iff, !orb_true_iff, !andb_true_iff.
  rewrite !Z.ltb_lt, !Z.eqb_eq, Z.leb_le. tauto.
Qed.

(** X12: the derived age counts completed years.  For a parsed date of
    birth the age is [n] exactly when the [n]-th anniversary (same month
    and day, [n] years on) is not after the current date and the next
    one is; it is negative exactly when the date of birth is after the
    current date. *)
Theorem age_counts_completed_years (current_date b : date) :
  (∀ n, age_lambda current_date (Stamp b) = PInt n ↔
        date_leb (Date (year b + n) (month b) (day b)) current_date = true
        ∧ date_leb (Date (year b + n + 1) (month b) (day b)) current_date
          = false)
  ∧ (∃ n, age_lambda current_date (Stamp b) = PInt n
          ∧ (n < 0 ↔ date_leb b current_date = false)).
Proof.
  assert (Hage : age_lambda current_date (Stamp b) =
    PInt (year current_date - year b
          - (if decide (month current_date < month b
                        ∨ (month current_date = month b
                           ∧ day current_date < day b))
             then 1 else 0))).
  { pose proof (age_lambda_stamp current_date b) as H.
    destruct (age_lambda current_date (Stamp b)) as [z|]; [|done].
    simpl in H. by injection H as ->. }
  rewrite Hage. split.
  - intros n. rewrite <- (not_true_iff_false (date_leb _ _)), !date_leb_spec.
    simpl. destruct (decide _) as [Hd|Hd]; split.
    + intros [= <-]. lia.
    + intros [H1 H2]. f_equal. lia.
    + intros [= <-]. lia.
    + intros [H1 H2]. f_equal. lia.
  - eexists. split; [done|].
    rewrite <- (not_true_iff_false (date_leb _ _)), date_leb_spec.
    destruct (decide _) as [Hd|Hd]; lia.
Qed.

Lemma col_index_None name cols : col_index name cols = None ↔ name ∉ cols.
Proof.
  induction cols as [|c cols IH]; simpl.
  - split; [intros _; apply not_elem_of_nil|done].
  - rewrite not_elem_of_cons. destruct (decide (c = name)) as [->|Hne].
    + split; [done|]. by intros [? _].
    + destruct (col_index name cols); simpl.
      * split; [done|]. intros [_ Hn]. by apply IH in Hn.
      * split; [|done]. intros _. split; [done|]. by apply IH.
Qed.

Lemma set_column_has_column name vals df :
  is_Some (col_index name (columns (set_column name vals df))).
Proof.
  unfold set_column.
  destruct (col_index name (columns df)) as [i|] eqn:Hi; simpl.
  - by rewrite Hi.
  - rewrite col_index_snoc_new by done. by eexists.
Qed.

Lemma set_column_other_column name name' vals df :
  name ≠ name' →
  col_index name' (columns (set_column name vals df))
  = col_index name' (columns df).
Proof.
  intros Hne. unfold set_column.
  destruct (col_index name (columns df)); simpl; [done|].
  by apply col_index_snoc_other.
Qed.

Lemma get_column_None name df :
  get_column name df = None ↔ name ∉ columns df.
Proof.
  rewrite <- col_index_None. unfold get_column.
  by destruct (col_index name (columns df)).
Qed.

(** What a feature step that returns has found in the table. *)
Lemma create_derived_features_inv ns current_date df df' :
  well_formed df →
  create_derived_features ns current_date df = Some df' →
  ∃ dob income,
    get_column "DateOfBirth" df = Some dob
    ∧ get_column "Income" df = Some income
    ∧ numeric_column income = true.
Proof.
  intros Hwf Hdf'.
  destruct (get_column "DateOfBirth" df) as [dob|] eqn:Hdob.
  2:{ unfold create_derived_features in Hdf'. by rewrite Hdob in Hdf'. }
  destruct (get_column "Income" df) as [income|] eqn:Hinc.
  2:{ exfalso. unfold create_derived_features in Hdf'.
      rewrite Hdob in Hdf'. simpl in Hdf'.
      destruct (get_column "DateOfBirth" _); simpl in Hdf'; [|done].
      destruct (get_column "Age" _); simpl in Hdf'; [|done].
      assert (Hnone : ∀ vals1 vals2 vals3,
        get_column "Income"
          (set_column "AgeCategory" vals3
             (set_column "Age" vals2 (set_column "DateOfBirth" vals1 df)))
        = None).
      { intros. apply get_column_None, col_index_None.
        rewrite !set_column_other_column by done.
        by apply col_index_None, get_column_None. }
      by rewrite Hnone in Hdf'. }
  exists dob, income. split; [done|]. split; [done|].
  destruct (feature_step_result ns current_date df dob income Hwf Hdob Hinc)
    as (df'' & Hdf'' & _).
  rewrite Hdf' in Hdf''. by destruct (numeric_column income).
Qed.

Lemma feature_step_columns ns current_date df df' :
  well_formed df →
  create_derived_features ns current_date df = Some df' →
  ∃ age, get_column "Age" df' = Some age
         ∧ get_column "AgeCategory" df'
           = Some (cut age_ranges age_categories <$> age).
Proof.
  intros Hwf Hdf'.
  destruct (create_derived_features_inv _ _ _ _ Hwf Hdf')
    as (dob & income & Hdob & Hinc & Hnum).
  destruct (create_derived_features_columns ns current_date df dob income
              Hwf Hdob Hinc Hnum) as (df'' & Hdf'' & _ & _ & _ & Ha & Hc & _).
  assert (df'' = df') as -> by congruence. eauto.
Qed.

Lemma feature_step_keeps ns current_date df df' :
  well_formed df →
  create_derived_features ns current_date df = Some df' →
  well_formed df' ∧ len df' = len df
  ∧ (∀ name,
       name ∉ ["DateOfBirth"; "Age"; "AgeCategory"; "IncomeCategory"] →
       get_column name df' = get_column name df).
Proof.
  intros Hwf Hdf'.
  destruct (create_derived_features_inv _ _ _ _ Hwf Hdf')
    as (dob & income & Hdob & Hinc & Hnum).
  destruct (create_derived_features_columns ns current_date df dob income
              Hwf Hdob Hinc Hnum)
    as (df'' & Hdf'' & Hw & Hl & _ & _ & _ & _ & Ho).
  assert (df'' = df') as -> by congruence. done.
Qed.

(** X13: the feature step fails when the table has no date-of-birth
    column or no income column; on a well-formed table it also fails
    when the income column holds text, and returns otherwise.  When it returns on a
    well-formed table it keeps the rows and every column other than the
    four it writes (identifier, gender and flag among them); the date of
    birth is replaced by its parsed form, the age category is cut from
    the age column and the income category from the income column, row
    by row. *)
Theorem feature_step_shape (nanoseconds : bool) (current_date : date)
    (df : DataFrame) :
  ("DateOfBirth" ∉ columns df ∨ "Income" ∉ columns df →
   create_derived_features nanoseconds current_date df = None)
  ∧ (well_formed df →
     (∀ income, get_column "Income" df = Some income →
        numeric_column income = false →
        create_derived_features nanoseconds current_date df = None)
     ∧ (is_Some (create_derived_features nanoseconds current_date df) ↔
          "DateOfBirth" ∈ columns df
          ∧ ∃ income, get_column "Income" df = Some income
                      ∧ numeric_column income = true)
     ∧ ∀ df', create_derived_features nanoseconds current_date df = Some df' →
       well_formed df' ∧ len df' = len df
       ∧ (∀ name,
            name ∉ ["DateOfBirth"; "Age"; "AgeCategory"; "IncomeCategory"] →
            get_column name df' = get_column name df)
       ∧ (∃ dob, get_column "DateOfBirth" df = Some dob
                 ∧ get_column "DateOfBirth" df'
                   = Some (to_datetime nanoseconds <$> dob))
       ∧ (∃ age, get_column "Age" df' = Some age
                 ∧ get_column "AgeCategory" df'
                   = Some (cut age_ranges age_categories <$> age))
       ∧ (∃ income, get_column "Income" df' = Some income
                    ∧ get_column "IncomeCategory" df'
                      = Some (cut income_ranges income_categories <$> income))).
Proof.
  split.
  - rewrite <- !get_column_None. unfold create_derived_features.
    destruct (get_column "DateOfBirth" df) as [dob|] eqn:Hdob; simpl; [|done].
    intros [?|Hinc]; [done|].
    match goal with
    | |- context [get_column "DateOfBirth" ?d] =>
        destruct (get_column "DateOfBirth" d); simpl; [|done]
    end.
    match goal with
    | |- context [get_column "Age" ?d] =>
        destruct (get_column "Age" d); simpl; [|done]
    end.
    assert (Hnone : ∀ vals1 vals2 vals3,
      get_column "Income"
        (set_column "AgeCategory" vals3
           (set_column "Age" vals2 (set_column "DateOfBirth" vals1 df)))
      = None).
    { intros. apply get_column_None, col_index_None.
      rewrite !set_column_other_column by done.
      by apply col_index_None, get_column_None. }
    by rewrite Hnone.
  - intros Hwf. split; [|split].
    + intros income Hinc Hnum.
      destruct (create_derived_features nanoseconds current_date df)
        as [df'|] eqn:Hdf'; [|done].
      destruct (create_derived_features_inv _ _ _ _ Hwf Hdf')
        as (dob & income' & Hdob & Hinc' & Hnum').
      congruence.
    + split.
      * intros [df' Hdf'].
        destruct (create_derived_features_inv _ _ _ _ Hwf Hdf')
          as (dob & income & Hdob & Hinc & Hnum).
        split; [|by exists income].
        destruct (decide ("DateOfBirth" ∈ columns df)) as [|Hn]; [done|].
        apply get_column_None in Hn. congruence.
      * intros [Hin (income & Hinc & Hnum)].
        destruct (get_column "DateOfBirth" df) as [dob|] eqn:Hdob.
        2:{ by apply get_column_None in Hdob. }
        destruct (create_derived_features_columns nanoseconds current_date df
                    dob income Hwf Hdob Hinc Hnum) as (df' & -> & _).
        by eexists.
    + intros df' Hdf'.
      destruct (create_derived_features_inv _ _ _ _ Hwf Hdf')
        as (dob & income & Hdob & Hinc & Hnum).
      destruct (create_derived_features_columns nanoseconds current_date df
                  dob income Hwf Hdob Hinc Hnum)
        as (df'' & Hdf'' & Hwf' & Hlen & Hd & Ha & Hc & Hi & Hother).
      assert (df'' = df') as -> by congruence.
      split; [done|]. split; [done|]. split; [done|].
      split; [by exists dob|]. split; [eauto|].
      exists income. split; [|done]. rewrite Hother; [done|].
      rewrite !not_elem_of_cons. repeat split; [done..|apply not_elem_of_nil].
Qed.

(** A table whose income column holds text: the feature step stops. *)
Example text_income_raises :
  create_derived_features true today_fixture
    (Frame ["DateOfBirth"; "Income"]
           [[Str "15/06/1990"; Str "high"]; [Null; Num 100]])
  = None.
Proof. reflexivity. Qed.

End FeaturesMore.

Section AnalysisMore.

Local Abbreviation step :=
  (λ (gs : list group) (kv : list cell * cell),
     if has_null kv.1 then gs else add_to_group kv.1 (indicator kv.2) gs).

(** X15: the two single-key results.  The per-age-category result and
    the per-gender result each hold one group per key, no key twice and
    none null, and every row with a non-null key is in a group; while
    the indicators add up to at most 2^53 in absolute value, a group's
    sum is the indicator summed over the rows with that key.  Neither
    result depends on the sorting routine. *)
Theorem single_key_sums (observed : bool)
    (sort_values : list group → list group) (df : DataFrame) (r : analysis) :
  analyze_fraud_patterns observed sort_values df = Some r →
  ∃ age_cat gender mule,
    get_column "AgeCategory" df = Some age_cat
    ∧ get_column "Gender" df = Some gender
    ∧ get_column "MuleAccount" df = Some mule
    ∧ NoDup (age_cat_results r).*1
    ∧ (∀ k s, (k, s) ∈ age_cat_results r → has_null k = false)
    ∧ (∀ i a, age_cat !! i = Some a → a ≠ Null →
         [a] ∈ (age_cat_results r).*1)
    ∧ NoDup (gender_breakdown r).*1
    ∧ (∀ k s, (k, s) ∈ gender_breakdown r → has_null k = false)
    ∧ (∀ i g, gender !! i = Some g → g ≠ Null →
         [g] ∈ (gender_breakdown r).*1)
    ∧ (abs_sum mule ≤ 2 ^ 53 →
       (∀ k s, (k, s) ∈ age_cat_results r →
          s = key_total k ((λ c, [c]) <$> age_cat) mule)
       ∧ (∀ k s, (k, s) ∈ gender_breakdown r →
            s = key_total k ((λ c, [c]) <$> gender) mule))
    ∧ (∀ sort_values' r',
         analyze_fraud_patterns observed sort_values' df = Some r' →
         age_cat_results r' = age_cat_results r
         ∧ gender_breakdown r' = gender_breakdown r).
Proof.
  intros Hr.
  apply analyze_fraud_patterns_inv in Hr
    as (age_cat & gender & mule & groups & Ha & Hg & Hm & Hla & Hlg & Hlm
        & Hnum & Hgroups & Hcomb & ->).
  exists age_cat, gender, mule. simpl.
  destruct (groupby_sum_fresh _ ((λ c, [c]) <$> age_cat) mule
              (fresh_age_groups observed)) as [Hnda Hsuma].
  destruct (groupby_sum_fresh _ ((λ c, [c]) <$> gender) mule fresh_nil)
    as [Hndg Hsumg].
  split; [done|]. split; [done|]. split; [done|].
  split; [by rewrite int64_sums_keys|].
  split; [intros k s Hin; by eapply int64_sums_no_null, Hin;
          apply fresh_age_groups|].
  split; [|split; [by rewrite int64_sums_keys|split; [|split; [|split]]]].
  - intros i a Hi Hna. rewrite int64_sums_keys.
    apply (groupby_sum_row _ _ _ i).
    + rewrite length_fmap. lia.
    + by rewrite list_lookup_fmap, Hi.
    + by destruct a.
  - intros k s Hin. eapply int64_sums_no_null, Hin. apply fresh_nil.
  - intros i g Hi Hng. rewrite int64_sums_keys.
    apply (groupby_sum_row _ _ _ i).
    + rewrite length_fmap. lia.
    + by rewrite list_lookup_fmap, Hi.
    + by destruct g.
  - intros Hsmall.
    rewrite !int64_sums_small
      by (done || apply fresh_age_groups || apply fresh_nil).
    split; intros k s Hin; [by eapply Hsuma|by eapply Hsumg].
  - intros sort_values' r' Hr'.
    apply analyze_fraud_patterns_inv in Hr'
      as (age_cat' & gender' & mule' & groups' & Ha' & Hg' & Hm' & _ & _ & _
          & _ & _ & _ & ->).
    simpl. by simplify_eq.
Qed.

Lemma single_key_sums_witness :
  ∃ age_cat gender mule,
    get_column "AgeCategory" derived_fixture = Some age_cat
    ∧ get_column "Gender" derived_fixture = Some gender
    ∧ get_column "MuleAccount" derived_fixture = Some mule
    ∧ NoDup (age_cat_results derived_fixture_analysis).*1
    ∧ (∀ k s, (k, s) ∈ age_cat_results derived_fixture_analysis →
         has_null k = false)
    ∧ (∀ i a, age_cat !! i = Some a → a ≠ Null →
         [a] ∈ (age_cat_results derived_fixture_analysis).*1)
    ∧ NoDup (gender_breakdown derived_fixture_analysis).*1
    ∧ (∀ k s, (k, s) ∈ gender_breakdown derived_fixture_analysis →
         has_null k = false)
    ∧ (∀ i g, gender !! i = Some g → g ≠ Null →
         [g] ∈ (gender_breakdown derived_fixture_analysis).*1)
    ∧ (abs_sum mule ≤ 2 ^ 53 →
       (∀ k s, (k, s) ∈ age_cat_results derived_fixture_analysis →
          s = key_total k ((λ c, [c]) <$> age_cat) mule)
       ∧ (∀ k s, (k, s) ∈ gender_breakdown derived_fixture_analysis →
            s = key_total k ((λ c, [c]) <$> gender) mule))
    ∧ (∀ sort_values' r',
         analyze_fraud_patterns true sort_values' derived_fixture = Some r' →
         age_cat_results r' = age_cat_results derived_fixture_analysis
         ∧ gender_breakdown r' = gender_breakdown derived_fixture_analysis).
Proof.
  apply (single_key_sums true stable_sort_values derived_fixture).
  reflexivity.
Defined.

(** Sums past the 64 bits wrap around: two rows of 2^62 in one bracket
    come out as -2^63. *)
Example wrapped_group_sum :
  age_cat_results <$>
    analyze_fraud_patterns true stable_sort_values
      (Frame ["AgeCategory"; "Gender"; "MuleAccount"]
             [[Str "25-35"; Str "F"; Num (2 ^ 62)];
              [Str "25-35"; Str "M"; Num (2 ^ 62)]])
  = Some [([Str "25-35"], - 2 ^ 63)].
Proof. vm_compute. reflexivity. Qed.

Lemma foldl_keys_fixed kvs (init : list group) :
  (∀ kv, kv ∈ kvs → has_null kv.1 = false → kv.1 ∈ init.*1) →
  (foldl step init kvs).*1 = init.*1.
Proof.
  revert init. induction kvs as [|[k c] kvs IH]; intros init Hin; [done|].
  simpl. destruct (has_null k) eqn:Hk.
  - apply IH. intros kv Hkv. apply Hin. by right.
  - assert (Hki : k ∈ init.*1) by (by apply (Hin (k, c)); [left|]).
    unfold add_to_group. rewrite decide_True by done.
    rewrite IH; [by rewrite bump_keys|].
    intros kv Hkv Hn. rewrite bump_keys. apply Hin; [by right|done].
Qed.

Lemma age_category_cases c :
  cut age_ranges age_categories c = Null
  ∨ ∃ l, l ∈ age_categories ∧ cut age_ranges age_categories c = Str l.
Proof.
  destruct c as [|x| |]; try by left.
  destruct (decide (x < 0 ∨ 100 ≤ x)) as [Hout|Hin].
  - left. by apply (proj1 age_17_bucket_edges).
  - right. apply (proj2 age_17_bucket_edges). lia.
Qed.

(** X18: the brackets of the per-age result after the feature step.
    When the grouping lists unseen categories (observed off), the
    result has exactly the six brackets, in the order of the label list,
    whatever the data; when it lists seen categories only, every key is
    one of the six labels. *)
Theorem age_result_brackets (nanoseconds : bool) (current_date : date)
    (observed : bool)
    (sort_values : list group → list group) (df df' : DataFrame)
    (r : analysis) :
  well_formed df →
  create_derived_features nanoseconds current_date df = Some df' →
  analyze_fraud_patterns observed sort_values df' = Some r →
  (observed = false →
   (age_cat_results r).*1 = (λ l, [Str l]) <$> age_categories)
  ∧ (∀ k, k ∈ (age_cat_results r).*1 →
          ∃ l, l ∈ age_categories ∧ k = [Str l]).
Proof.
  intros Hwf Hdf' Hr.
  destruct (feature_step_columns nanoseconds current_date df df' Hwf Hdf')
    as (age & Hage & Hcat).
  apply analyze_fraud_patterns_inv in Hr
    as (age_cat & gender & mule & groups & Ha & Hg & Hm & Hla & Hlg & Hlm
        & Hnum & Hgroups & Hcomb & ->).
  simpl. rewrite int64_sums_keys. assert (age_cat = cut age_ranges age_categories <$> age) as ->
    by congruence.
  assert (Hkeys : ∀ kv, kv ∈ zip ((λ c, [c]) <$>
                     (cut age_ranges age_categories <$> age)) mule →
                   has_null kv.1 = false →
                   ∃ l, l ∈ age_categories ∧ kv.1 = [Str l]).
  { intros [k v] Hkv Hn. apply elem_of_zip_l in Hkv. simpl in *.
    apply list_elem_of_fmap in Hkv as (c & -> & Hc).
    apply list_elem_of_fmap in Hc as (a & -> & _).
    destruct (age_category_cases a) as [Hnull|(l & Hl & Heq)].
    - by rewrite Hnull in Hn.
    - exists l. by rewrite Heq. }
  split.
  - intros ->. unfold groupby_sum. rewrite foldl_keys_fixed.
    + unfold age_groups. by rewrite <- list_fmap_compose.
    + intros kv Hkv Hn. destruct (Hkeys kv Hkv Hn) as (l & Hl & ->).
      unfold age_groups. rewrite <- list_fmap_compose.
      apply list_elem_of_fmap. by exists l.
  - intros k Hk. unfold groupby_sum in Hk.
    apply foldl_groups_keys in Hk as [Hk|[Hn Hk]].
    + destruct observed.
      * simpl in Hk. by apply elem_of_nil in Hk.
      * unfold age_groups in Hk. rewrite <- list_fmap_compose in Hk.
        apply list_elem_of_fmap in Hk as (l & -> & Hl). by exists l.
    + apply list_elem_of_fmap in Hk as (kv & -> & Hkv). by apply Hkeys.
Qed.

Lemma age_result_brackets_witness :
  (false = false →
   (age_cat_results
      (default derived_fixture_analysis
         (df ← create_derived_features true today_fixture combined_fixture;
          analyze_fraud_patterns false stable_sort_values df))).*1
   = (λ l, [Str l]) <$> age_categories)
  ∧ (∀ k, k ∈ (age_cat_results
                 (default derived_fixture_analysis
                    (df ← create_derived_features true today_fixture
                            combined_fixture;
                     analyze_fraud_patterns false stable_sort_values
                                            df))).*1 →
          ∃ l, l ∈ age_categories ∧ k = [Str l]).
Proof.
  apply (age_result_brackets true today_fixture false stable_sort_values
           combined_fixture
           (default combined_fixture
              (create_derived_features true today_fixture combined_fixture))).
  - repeat constructor.
  - reflexivity.
  - reflexivity.
Defined.

End AnalysisMore.

Section EndToEnd.

Lemma main_inv ns current_date observed sort_values create_visualizations
    acct_info holder_info fraud_indicators combined_data r flags :
  main ns current_date observed sort_values create_visualizations
       acct_info holder_info fraud_indicators
  = Some (combined_data, r, flags) →
  let cleaned := clean_data acct_info holder_info fraud_indicators in
  ∃ merged,
    ids_match acct_info holder_info fraud_indicators = Some flags.1
    ∧ unique_ids acct_info = Some flags.2
    ∧ merge_datasets cleaned.1.1 cleaned.1.2 cleaned.2 = Some merged
    ∧ create_derived_features ns current_date merged = Some combined_data
    ∧ analyze_fraud_patterns observed sort_values combined_data = Some r
    ∧ create_visualizations (age_cat_results r) (gender_breakdown r)
      = Some ().
Proof.
  intros Hmain. cbv zeta. unfold main in Hmain.
  destruct (audit_data acct_info); simpl in Hmain; [|done].
  destruct (audit_data holder_info); simpl in Hmain; [|done].
  destruct (audit_data fraud_indicators); simpl in Hmain; [|done].
  destruct (ids_match _ _ _) as [ids_ok|]; simpl in Hmain; [|done].
  destruct (unique_ids _) as [unique|]; simpl in Hmain; [|done].
  destruct (merge_datasets _ _ _) as [merged|]; simpl in Hmain; [|done].
  destruct (create_derived_features _ _ _) as [df'|] eqn:Hdf';
    simpl in Hmain; [|done].
  destruct (analyze_fraud_patterns _ _ _) as [r'|] eqn:Hr';
    simpl in Hmain; [|done].
  destruct (create_visualizations _ _) as [[]|] eqn:Hv;
    simpl in Hmain; [|done].
  injection Hmain as <- <- <-. exists merged. by rewrite Hdf', Hr', Hv.
Qed.

(** X19: a whole run on three well-formed tables.  When [main] returns,
    its two flags are the identifier checks on the tables as loaded,
    its result is the analysis of the table it returns, the charts were
    drawn, and the table is well-formed and never shorter than the
    account table.  When moreover the identifiers of the cleaned holder
    table and of the cleaned fraud table do not repeat and are text or
    integers of magnitude at most 2^53, the table has one row per
    account and its identifier column is the account table's, in the
    same order. *)
Theorem main_one_row_per_account (nanoseconds : bool) (current_date : date)
    (observed : bool) (sort_values : list group → list group)
    (create_visualizations : list group → list group → option unit)
    (acct_info holder_info fraud_indicators combined_data : DataFrame)
    (r : analysis) (flags : bool * bool) :
  well_formed acct_info → well_formed holder_info →
  well_formed fraud_indicators →
  main nanoseconds current_date observed sort_values create_visualizations
       acct_info holder_info fraud_indicators
  = Some (combined_data, r, flags) →
  let cleaned := clean_data acct_info holder_info fraud_indicators in
  ids_match acct_info holder_info fraud_indicators = Some flags.1
  ∧ unique_ids acct_info = Some flags.2
  ∧ analyze_fraud_patterns observed sort_values combined_data = Some r
  ∧ create_visualizations (age_cat_results r) (gender_breakdown r) = Some ()
  ∧ well_formed combined_data
  ∧ (len acct_info ≤ len combined_data)%nat
  ∧ (∀ ids_h ids_f,
       identifier_column cleaned.1.2 = Some ids_h →
       identifier_column cleaned.2 = Some ids_f →
       NoDup ids_h → NoDup ids_f → safe_column ids_h → safe_column ids_f →
       len combined_data = len acct_info
       ∧ get_column "Identifier" combined_data = identifier_column acct_info).
Proof.
  intros Hwa Hwh Hwf Hmain cleaned.
  apply main_inv in Hmain as (merged & Hids & Huniq & Hm & Hdf & Hr & Hv).
  fold cleaned in Hm.
  assert (Hwa' : well_formed cleaned.1.1) by by apply fillna_dict_well_formed.
  assert (Hwh' : well_formed cleaned.1.2)
    by by apply fillna_dict_well_formed, drop_duplicates_well_formed.
  assert (Hwf' : well_formed cleaned.2) by by apply fillna_well_formed.
  assert (Hlena : len cleaned.1.1 = len acct_info).
  { unfold len, cleaned, clean_data, fillna_dict; simpl.
    by rewrite length_fmap. }
  apply merge_datasets_inv in Hm
    as (ki & kh & kf & fl1 & fl2 & Hki & Hkh & Hkf & Hkm & Hcols & Hrows).
  set (parts := λ ra,
         join_parts fl1 kh cleaned.1.2 (cell_at ki ra) ≫= λ p1,
           (p1 ++.) <$> join_parts fl2 kf cleaned.2
                                   (cell_at ki (ra ++ p1))) in Hrows.
  assert (Hwm : well_formed merged).
  { unfold well_formed. rewrite Hrows, Hcols.
    apply Forall_forall. intros row (ra & Hrow & Hra)%list_elem_of_bind.
    apply list_elem_of_fmap in Hrow as (p & -> & Hp).
    apply list_elem_of_bind in Hp as (p1 & Hp & Hp1).
    apply list_elem_of_fmap in Hp as (p2 & -> & Hp2).
    rewrite !length_app.
    rewrite (join_parts_length _ _ _ _ _ Hwh' (col_index_bound _ _ _ Hkh) Hp1).
    rewrite (join_parts_length _ _ _ _ _ Hwf' (col_index_bound _ _ _ Hkf) Hp2).
    rewrite (proj1 (Forall_forall _ _) Hwa' ra Hra). lia. }
  destruct (feature_step_keeps nanoseconds current_date merged combined_data
              Hwm Hdf) as (Hwc & Hlenc & Hother).
  split; [done|]. split; [done|]. split; [done|]. split; [done|].
  split; [done|]. split.
  { rewrite Hlenc, <- Hlena. unfold len. rewrite Hrows.
    apply merged_rows_at_least. intros ra. apply two_joins_nonempty. }
  intros ids_h ids_f Hh Hf Hndh Hndf Hsh Hsf.
  unfold identifier_column in Hh, Hf. rewrite Hkh in Hh. rewrite Hkf in Hf.
  injection Hh as <-. injection Hf as <-.
  assert (Hsame : take (length (columns cleaned.1.1)) <$> rows merged
                  = rows cleaned.1.1).
  { rewrite Hrows, merged_left_parts by done. apply merged_rows_once.
    intros ra. by apply two_joins_once. }
  split.
  - rewrite Hlenc, <- Hlena. unfold len.
    by rewrite <- Hsame, length_fmap.
  - rewrite Hother.
    2:{ rewrite !not_elem_of_cons.
        repeat split; [done..|apply not_elem_of_nil]. }
    unfold get_column. rewrite Hkm. simpl.
    destruct (clean_data_shape_ids acct_info holder_info fraud_indicators)
      as (_ & Hida & _).
    fold cleaned in Hida. rewrite <- Hida.
    unfold identifier_column. rewrite Hki. simpl. f_equal.
    unfold column_at.
    trans (cell_at ki <$> (take (length (columns cleaned.1.1))
                             <$> rows merged)).
    + rewrite <- list_fmap_compose. apply list_fmap_ext. intros _ row _.
      simpl. unfold cell_at. rewrite lookup_take_lt; [done|].
      by eapply col_index_bound.
    + f_equal. exact Hsame.
Qed.

Lemma main_one_row_per_account_witness :
  let cleaned := clean_data acct_fixture acct_holders_fixture fraud_fixture in
  let out := default (acct_fixture, derived_fixture_analysis, (false, false))
               (main true today_fixture true stable_sort_values
                     (λ _ _, Some ()) acct_fixture
                     acct_holders_fixture fraud_fixture) in
  ids_match acct_fixture acct_holders_fixture fraud_fixture = Some out.2.1
  ∧ unique_ids acct_fixture = Some out.2.2
  ∧ analyze_fraud_patterns true stable_sort_values out.1.1 = Some out.1.2
  ∧ (λ _ _, Some ()) (age_cat_results out.1.2) (gender_breakdown out.1.2)
    = Some ()
  ∧ well_formed out.1.1
  ∧ (len acct_fixture ≤ len out.1.1)%nat
  ∧ (∀ ids_h ids_f,
       identifier_column cleaned.1.2 = Some ids_h →
       identifier_column cleaned.2 = Some ids_f →
       NoDup ids_h → NoDup ids_f → safe_column ids_h → safe_column ids_f →
       len out.1.1 = len acct_fixture
       ∧ get_column "Identifier" out.1.1 = identifier_column acct_fixture).
Proof.
  apply (main_one_row_per_account true today_fixture true stable_sort_values
           (λ _ _, Some ()) acct_fixture acct_holders_fixture fraud_fixture);
    [repeat constructor..|reflexivity].
Defined.

(** The run on the fixture: three accounts, one row each; identifiers
    consistent and without repeats. *)
Example fixture_run :
  (λ out : DataFrame * analysis * (bool * bool),
     (len out.1.1, out.2, age_cat_results out.1.2)) <$>
    main true today_fixture true stable_sort_values (λ _ _, Some ())
         acct_fixture acct_holders_fixture fraud_fixture
  = Some (3%nat, (true, true), [([Str "18-24"], 1); ([Str "25-35"], 1)]).
Proof. vm_compute. reflexivity. Qed.

End EndToEnd.
